(** * calculus-agent: the chat client's session engine (frontend/src/App.jsx)

    A shallow embedding of the state-handling code of [App.jsx]: loading a
    conversation ([parseMessagesData]), the conversation store
    ([togglePin], [toggleArchive], [deleteConversation], the metadata merge
    of [initConversations]) and one send ([sendMessage]) with its stream
    decoder; then the effects that run after a load (the reveal timer, the
    poll, the reload on a change of selection), creating and renaming a
    conversation, the profile, the order and the lists of the sidebar
    ([Sidebar.jsx]), the expanded flag of a message ([MessageList.jsx]) and
    the image viewer ([Modals.jsx]).

    Conventions of the embedding
    - A JavaScript string is a [string]; one character stands for one code
      unit, so [String.length] is [.length] and [substring 0 n] is
      [.substring(0, n)].
    - Timestamps ([Date#getTime]) are integers of milliseconds, [Z]; [NaN]
      (an unparsable date) is [None].  [Math.floor (e * 0.25)] on an integer
      [e] is exact in binary floating point and equals [e / 4] (floor
      division).
    - React state is passed explicitly; a state updater runs at the place the
      source calls the setter, in order, and each handler is followed on its
      own: no other handler or effect writes the state in between.
    - The platform's [JSON.parse] and [JSON.stringify] are parameters of the
      development (Section variables): [None] is a [SyntaxError].
    - A conversation id used as a property name ([metadata[id]]) is looked
      up as the engine does it: the own properties first, then the members
      of the built-in prototypes ([Js.lookup]); an assignment to
      [__proto__] goes to the inherited setter. *)

From Stdlib Require Import ZArith String Ascii List Bool Lia.
From stdpp Require Import base option list gmap strings pretty fin_maps
  sorting.

Set Default Proof Using "Type".
Set Warnings "-register-all".

(* ===================================================================== *)
(** ** JavaScript values *)
(* ===================================================================== *)

Module Js.

(** What [JSON.parse] can return, plus [undefined] (a missing property).
    A number is kept as its canonical rendering (what [String(n)] gives):
    the code never computes with a parsed number, it only tests and prints
    it.  An object is a finite map of its own properties. *)
Inductive value : Type :=
| Undefined
| Null
| Bool (b : bool)
| Num (repr : string)
| Str (s : string)
| Arr (xs : list value)
| Obj (props : gmap string value).

(** ToBoolean. *)
Definition truthy (v : value) : bool :=
  match v with
  | Undefined | Null => false
  | Bool b => b
  | Num r => negb (String.eqb r "0") && negb (String.eqb r "NaN")
  | Str s => negb (String.eqb s "")
  | Arr _ | Obj _ => true
  end.

(** [v[k]] for a property name the program writes literally ([type],
    [content], [status], [isPinned], [isArchived], [avatar]): none is an
    array index or a member of a prototype.  A conversation id as property
    name goes through [lookup] below. *)
Definition get (v : value) (k : string) : value :=
  match v with
  | Obj props => default Undefined (props !! k)
  | _ => Undefined
  end.

Definition join_with (sep : string) (parts : list string) : string :=
  match parts with
  | [] => ""
  | p :: ps => fold_left (fun acc q => acc +:+ sep +:+ q) ps p
  end.

(** ToString, as string concatenation and template literals apply it. *)
Fixpoint to_string (v : value) : string :=
  match v with
  | Undefined => "undefined"
  | Null => "null"
  | Bool true => "true"
  | Bool false => "false"
  | Num r => r
  | Str s => s
  | Arr xs =>
      join_with ","
        (List.map (fun x => match x with
                            | Undefined | Null => ""
                            | _ => to_string x
                            end) xs)
  | Obj _ => "[object Object]"
  end.

(** The value of a decimal numeral; [None] for a text with any other
    character. *)
Fixpoint numeral (acc : N) (s : string) : option N :=
  match s with
  | EmptyString => Some acc
  | String c rest =>
      match Ascii.is_nat c with
      | Some d => numeral (10 * acc + N.of_nat d)%N rest
      | None => None
      end
  end.

(** An array index: the canonical decimal numeral of an integer below
    [2^32 - 1]. *)
Definition array_index (k : string) : option nat :=
  match k with
  | EmptyString => None
  | _ =>
      match numeral 0 k with
      | Some n =>
          if String.eqb (pretty n) k && (n <? 4294967295)%N
          then Some (N.to_nat n) else None
      | None => None
      end
  end.

(** The string-named members of the built-in prototypes (ECMAScript 2024
    with its Annex B, as browsers implement it).  Each member is a function,
    except [__proto__], an accessor that returns the prototype object: all
    of them are truthy, have no enumerable property of their own, and none
    is named by a property name the program writes literally. *)
Definition Object_prototype : list string :=
  ["constructor"; "__defineGetter__"; "__defineSetter__"; "hasOwnProperty";
   "__lookupGetter__"; "__lookupSetter__"; "isPrototypeOf";
   "propertyIsEnumerable"; "toString"; "valueOf"; "__proto__";
   "toLocaleString"].

Definition Array_prototype : list string :=
  ["at"; "concat"; "copyWithin"; "fill"; "find"; "findIndex"; "findLast";
   "findLastIndex"; "lastIndexOf"; "pop"; "push"; "reverse"; "shift";
   "unshift"; "slice"; "sort"; "splice"; "includes"; "indexOf"; "join";
   "keys"; "entries"; "values"; "forEach"; "filter"; "flat"; "flatMap";
   "map"; "every"; "some"; "reduce"; "reduceRight"; "toReversed";
   "toSorted"; "toSpliced"; "with"].

Definition String_prototype : list string :=
  ["anchor"; "at"; "big"; "blink"; "bold"; "charAt"; "charCodeAt";
   "codePointAt"; "concat"; "endsWith"; "fontcolor"; "fontsize"; "fixed";
   "includes"; "indexOf"; "isWellFormed"; "italics"; "lastIndexOf"; "link";
   "localeCompare"; "match"; "matchAll"; "normalize"; "padEnd"; "padStart";
   "repeat"; "replace"; "replaceAll"; "search"; "slice"; "small"; "split";
   "strike"; "sub"; "substr"; "substring"; "sup"; "startsWith";
   "toLocaleLowerCase"; "toLocaleUpperCase"; "toLowerCase"; "toUpperCase";
   "toWellFormed"; "trim"; "trimStart"; "trimLeft"; "trimEnd";
   "trimRight"].

Definition Number_prototype : list string :=
  ["toExponential"; "toFixed"; "toPrecision"].

(** The named members a value inherits; [Boolean.prototype] adds none to
    those of [Object.prototype]. *)
Definition inherited (v : value) : list string :=
  match v with
  | Obj _ | Bool _ => Object_prototype
  | Arr _ => Array_prototype ++ Object_prototype
  | Str _ => String_prototype ++ Object_prototype
  | Num _ => Number_prototype ++ Object_prototype
  | Undefined | Null => []
  end.

Definition inherits (v : value) (k : string) : bool :=
  bool_decide (k ∈ inherited v).

(** What [v[k]] finds, for any property name [k]: an own property that
    [delete] removes (an entry of an object, an element of an array), an own
    property that is not configurable (the [length] of an array or of a
    string, a character of a string), a member of a prototype, or
    nothing. *)
Inductive property : Type :=
| Own (x : value)
| Fixed (x : value)
| Inherited
| Absent.

Definition lookup (v : value) (k : string) : property :=
  match v with
  | Obj props =>
      match props !! k with
      | Some x => Own x
      | None => if inherits v k then Inherited else Absent
      end
  | Arr xs =>
      match array_index k with
      | Some n => match xs !! n with Some x => Own x | None => Absent end
      | None =>
          if String.eqb k "length" then Fixed (Num (pretty (length xs)))
          else if inherits v k then Inherited else Absent
      end
  | Str s =>
      match array_index k with
      | Some n =>
          match String.get n s with
          | Some c => Fixed (Str (String c EmptyString))
          | None => Absent
          end
      | None =>
          if String.eqb k "length"
          then Fixed (Num (pretty (String.length s)))
          else if inherits v k then Inherited else Absent
      end
  | Num _ | Bool _ => if inherits v k then Inherited else Absent
  | Undefined | Null => Absent
  end.

(** ToBoolean of [v[k]]. *)
Definition truthy_at (p : property) : bool :=
  match p with
  | Own x | Fixed x => truthy x
  | Inherited => true
  | Absent => false
  end.

(** [xs[n] = x] on an array: the elements between the old end and [n] are
    holes, which read and serialise as [undefined] does. *)
Definition set_index (n : nat) (x : value) (xs : list value) : list value :=
  if n <? length xs then <[n := x]> xs
  else xs ++ replicate (n - length xs) Undefined ++ [x].

(** [delete v[k]] where [v[k]] is an own configurable property: the entry
    leaves the object, the element of the array becomes a hole. *)
Definition remove (v : value) (k : string) : value :=
  match v with
  | Obj props => Obj (delete k props)
  | Arr xs =>
      match array_index k with
      | Some n => Arr (<[n := Undefined]> xs)
      | None => v
      end
  | _ => v
  end.

End Js.

(* ===================================================================== *)
(** ** Strings as the code uses them *)
(* ===================================================================== *)

(** White space and line terminators that [String.prototype.trim] removes,
    among the code units below 256. *)
Definition is_js_space (c : ascii) : bool :=
  match nat_of_ascii c with
  | 9 | 10 | 11 | 12 | 13 | 32 | 160 => true
  | _ => false
  end.

Fixpoint trimStart (s : string) : string :=
  match s with
  | EmptyString => EmptyString
  | String c r => if is_js_space c then trimStart r else s
  end.

(** Drops trailing white space: a character is kept when something that is
    not white space follows it or it is none itself. *)
Fixpoint trimEnd (s : string) : string :=
  match s with
  | EmptyString => EmptyString
  | String c r =>
      match trimEnd r with
      | EmptyString =>
          if is_js_space c then EmptyString else String c EmptyString
      | r' => String c r'
      end
  end.

(** [s.trim()] *)
Definition trim (s : string) : string := trimEnd (trimStart s).

(** [s.split('\n')]: always at least one piece. *)
Fixpoint split_lines (s : string) : list string :=
  match s with
  | EmptyString => [EmptyString]
  | String c r =>
      if Ascii.eqb c "010"%char then EmptyString :: split_lines r
      else match split_lines r with
           | [] => [String c EmptyString]
           | l :: ls => String c l :: ls
           end
  end.

(** [s.slice(n)] for [0 <= n]. *)
Fixpoint drop_string (n : nat) (s : string) : string :=
  match n, s with
  | O, _ => s
  | S n', EmptyString => EmptyString
  | S n', String _ r => drop_string n' r
  end.

(** [s.startsWith(p)] *)
Definition startsWith (s p : string) : bool := String.prefix p s.

(* ===================================================================== *)
(** ** A reference reader and printer for plain JSON texts *)
(* ===================================================================== *)

(** The development is parametric in [JSON.parse] and [JSON.stringify].  The
    closed examples need one concrete pair: [Json.parse] reads the JSON texts
    that use no escape sequence, sign, fraction or exponent, and on those
    returns what [JSON.parse] returns; it rejects every other text, as
    [JSON.parse] rejects a text that is not JSON. *)
Module Json.

Definition quote : ascii := "034"%char.

Definition is_ws (c : ascii) : bool :=
  match nat_of_ascii c with
  | 9 | 10 | 13 | 32 => true
  | _ => false
  end.

Definition is_digit (c : ascii) : bool :=
  let n := nat_of_ascii c in (48 <=? n) && (n <=? 57).

Fixpoint skip_ws (s : string) : string :=
  match s with
  | String c r => if is_ws c then skip_ws r else s
  | EmptyString => EmptyString
  end.

(** The characters up to the closing quote, and what follows it. *)
Fixpoint string_body (s : string) : option (string * string) :=
  match s with
  | EmptyString => None
  | String c r =>
      if Ascii.eqb c quote then Some (EmptyString, r)
      else if Ascii.eqb c "\"%char || (nat_of_ascii c <? 32) then None
      else match string_body r with
           | Some (body, rest) => Some (String c body, rest)
           | None => None
           end
  end.

Fixpoint digits (s : string) : string * string :=
  match s with
  | String c r =>
      if is_digit c then let '(ds, rest) := digits r in (String c ds, rest)
      else (EmptyString, s)
  | EmptyString => (EmptyString, EmptyString)
  end.

(** [keyword w v s]: [s] starts with the literal [w]. *)
Definition keyword (w : string) (v : Js.value) (s : string)
  : option (Js.value * string) :=
  if String.prefix w s then Some (v, drop_string (String.length w) s)
  else None.

Inductive mode : Type :=
| Value
| Elements (acc : list Js.value)
| Members (acc : gmap string Js.value).

Fixpoint read (fuel : nat) (m : mode) (s : string)
  : option (Js.value * string) :=
  match fuel with
  | O => None
  | S fuel =>
      match m, skip_ws s with
      | _, EmptyString => None
      | Value, String c r =>
          if Ascii.eqb c "n" then keyword "null" Js.Null (String c r)
          else if Ascii.eqb c "t"
               then keyword "true" (Js.Bool true) (String c r)
          else if Ascii.eqb c "f"
               then keyword "false" (Js.Bool false) (String c r)
          else if Ascii.eqb c quote then
            match string_body r with
            | Some (body, rest) => Some (Js.Str body, rest)
            | None => None
            end
          else if Ascii.eqb c "[" then
            match skip_ws r with
            | String d r' =>
                if Ascii.eqb d "]" then Some (Js.Arr [], r')
                else read fuel (Elements []) r
            | EmptyString => None
            end
          else if Ascii.eqb c "{" then
            match skip_ws r with
            | String d r' =>
                if Ascii.eqb d "}" then Some (Js.Obj ∅, r')
                else read fuel (Members ∅) r
            | EmptyString => None
            end
          else if Ascii.eqb c "0" then Some (Js.Num "0", r)
          else if is_digit c then
            let '(ds, rest) := digits r in Some (Js.Num (String c ds), rest)
          else None
      | Elements acc, s' =>
          match read fuel Value s' with
          | Some (v, r) =>
              match skip_ws r with
              | String d r' =>
                  if Ascii.eqb d "," then read fuel (Elements (acc ++ [v])) r'
                  else if Ascii.eqb d "]" then Some (Js.Arr (acc ++ [v]), r')
                  else None
              | EmptyString => None
              end
          | None => None
          end
      | Members acc, String c r =>
          if Ascii.eqb c quote then
            match string_body r with
            | Some (key, r1) =>
                match skip_ws r1 with
                | String d r2 =>
                    if Ascii.eqb d ":" then
                      match read fuel Value r2 with
                      | Some (v, r3) =>
                          match skip_ws r3 with
                          | String e r4 =>
                              if Ascii.eqb e ","
                              then read fuel (Members (<[key := v]> acc)) r4
                              else if Ascii.eqb e "}"
                              then Some (Js.Obj (<[key := v]> acc), r4)
                              else None
                          | EmptyString => None
                          end
                      | None => None
                      end
                    else None
                | EmptyString => None
                end
            | None => None
            end
          else None
      end
  end.

Definition parse (text : string) : option Js.value :=
  match read (S (2 * String.length text)) Value text with
  | Some (v, rest) =>
      match skip_ws rest with
      | EmptyString => Some v
      | String _ _ => None
      end
  | None => None
  end.

Definition quoted (s : string) : string :=
  String quote s +:+ String quote EmptyString.

(** Prints a value [parse] can return; the properties of an object come in
    the order of the map. *)
Fixpoint stringify (v : Js.value) : string :=
  match v with
  | Js.Undefined | Js.Null => "null"
  | Js.Bool true => "true"
  | Js.Bool false => "false"
  | Js.Num r => r
  | Js.Str s => quoted s
  | Js.Arr xs => "[" +:+ Js.join_with "," (List.map stringify xs) +:+ "]"
  | Js.Obj props =>
      "{" +:+ Js.join_with ","
                (List.map (fun kv => quoted kv.1 +:+ ":" +:+ kv.2)
                   (map_to_list (stringify <$> props)))
          +:+ "}"
  end.

End Json.

(* ===================================================================== *)
(** ** Messages *)
(* ===================================================================== *)

(** A message as [GET /conversations/{id}/messages] returns it.  [content]
    is [None] for [null] or a missing field; [created_at] holds
    [new Date(m.created_at).getTime()], [None] for [NaN]. *)
Module Wire.
Record message : Type := Message {
  role : string;
  content : option string;
  image_data : option string;
  created_at : option Z
}.
End Wire.

(** A message of the buffer (the [messages] state).  A flag the object
    literal does not set is [None] ([undefined]). *)
Record Message : Type := mkMessage {
  role : string;
  content : string;
  images : list string;
  _fullContent : option string;
  isStreaming : option bool;
  isSimulating : option bool;
  status : option Js.value
}.


(* ===================================================================== *)
(** ** Conversations and the application state *)
(* ===================================================================== *)

Module Conv.
(** A conversation summary.  [isPinned] and [isArchived] hold whatever the
    merge or a toggle stored ([Js.Undefined] when the object literal has no
    such field); the code only tests them for truthiness. *)
Record t : Type := Make {
  id : string;
  title : option string;
  created_at : option string;
  updated_at : option string;
  isPinned : Js.value;
  isArchived : Js.value
}.

Definition pinned (c : t) : bool := Js.truthy (isPinned c).
Definition archived (c : t) : bool := Js.truthy (isArchived c).
Definition has_id (i : string) (c : t) : bool := String.eqb (id c) i.
End Conv.

(** What a caught or escaping exception is. *)
Inductive exn : Type :=
  SyntaxError | TypeError | RangeError | NetworkError.

(** The result of code that may throw. *)
Inductive outcome (A : Type) : Type :=
| Done (a : A)
| Throws (e : exn).
Arguments Done {A} a.
Arguments Throws {A} e.

#[export] Instance outcome_ret : MRet outcome := fun A a => Done a.

#[export] Instance outcome_bind : MBind outcome := fun A B k x =>
  match x with
  | Done a => k a
  | Throws e => Throws e
  end.

(** A callback handed to [setTimeout]. *)
Inductive timer : Type :=
| HidePinLimitToast.

(** The component's state, its refs and the browser state it touches. *)
Record AppState : Type := mkApp {
  conversations : list Conv.t;
  currentConversation : option string;
  messages : list Message;
  isLoading : bool;
  isInitializing : bool;
  showPinLimitToast : bool;
  isCreatingSessionRef : bool;
  isSendingMessageRef : bool;
  localStorage : gmap string string;
  (** pending [setTimeout] callbacks with their delay in ms, newest first *)
  timers : list (Z * timer);
  (** first argument of each [console.error] call, newest first *)
  console : list string
}.

Definition setConversations (v : list Conv.t) (st : AppState) : AppState :=
  mkApp v (currentConversation st) (messages st) (isLoading st)
    (isInitializing st) (showPinLimitToast st) (isCreatingSessionRef st)
    (isSendingMessageRef st) (localStorage st) (timers st) (console st).

Definition setCurrentConversation (v : option string) (st : AppState)
  : AppState :=
  mkApp (conversations st) v (messages st) (isLoading st)
    (isInitializing st) (showPinLimitToast st) (isCreatingSessionRef st)
    (isSendingMessageRef st) (localStorage st) (timers st) (console st).

Definition setMessages (v : list Message) (st : AppState) : AppState :=
  mkApp (conversations st) (currentConversation st) v (isLoading st)
    (isInitializing st) (showPinLimitToast st) (isCreatingSessionRef st)
    (isSendingMessageRef st) (localStorage st) (timers st) (console st).

Definition setIsLoading (v : bool) (st : AppState) : AppState :=
  mkApp (conversations st) (currentConversation st) (messages st) v
    (isInitializing st) (showPinLimitToast st) (isCreatingSessionRef st)
    (isSendingMessageRef st) (localStorage st) (timers st) (console st).

Definition setIsInitializing (v : bool) (st : AppState) : AppState :=
  mkApp (conversations st) (currentConversation st) (messages st)
    (isLoading st) v (showPinLimitToast st) (isCreatingSessionRef st)
    (isSendingMessageRef st) (localStorage st) (timers st) (console st).

Definition setShowPinLimitToast (v : bool) (st : AppState) : AppState :=
  mkApp (conversations st) (currentConversation st) (messages st)
    (isLoading st) (isInitializing st) v (isCreatingSessionRef st)
    (isSendingMessageRef st) (localStorage st) (timers st) (console st).

Definition set_isCreatingSessionRef (v : bool) (st : AppState) : AppState :=
  mkApp (conversations st) (currentConversation st) (messages st)
    (isLoading st) (isInitializing st) (showPinLimitToast st) v
    (isSendingMessageRef st) (localStorage st) (timers st) (console st).

Definition set_isSendingMessageRef (v : bool) (st : AppState) : AppState :=
  mkApp (conversations st) (currentConversation st) (messages st)
    (isLoading st) (isInitializing st) (showPinLimitToast st)
    (isCreatingSessionRef st) v (localStorage st) (timers st) (console st).

Definition set_localStorage (v : gmap string string) (st : AppState)
  : AppState :=
  mkApp (conversations st) (currentConversation st) (messages st)
    (isLoading st) (isInitializing st) (showPinLimitToast st)
    (isCreatingSessionRef st) (isSendingMessageRef st) v (timers st)
    (console st).

(** [setTimeout(cb, delay)] *)
Definition setTimeout (cb : timer) (delay : Z) (st : AppState) : AppState :=
  mkApp (conversations st) (currentConversation st) (messages st)
    (isLoading st) (isInitializing st) (showPinLimitToast st)
    (isCreatingSessionRef st) (isSendingMessageRef st) (localStorage st)
    ((delay, cb) :: timers st) (console st).

(** [console.error(label, ...)] *)
Definition console_error (label : string) (st : AppState) : AppState :=
  mkApp (conversations st) (currentConversation st) (messages st)
    (isLoading st) (isInitializing st) (showPinLimitToast st)
    (isCreatingSessionRef st) (isSendingMessageRef st) (localStorage st)
    (timers st) (label :: console st).

(** [localStorage.setItem], [localStorage.removeItem] *)
Definition setItem (k v : string) (st : AppState) : AppState :=
  set_localStorage (<[k := v]> (localStorage st)) st.

Definition removeItem (k : string) (st : AppState) : AppState :=
  set_localStorage (delete k (localStorage st)) st.

Section Platform.

(** [JSON.parse]: [None] when it throws. *)
Variable JSON_parse : string -> option Js.value.
(** [JSON.stringify] on a value that came out of [JSON.parse]. *)
Variable JSON_stringify : Js.value -> string.

(* =================================================================== *)
(** ** Loading a conversation: [parseMessagesData] *)
(* =================================================================== *)

Definition jpeg_url (b64 : string) : string :=
  "data:image/jpeg;base64," +:+ b64.

(** Lines 354-366: the [images] of a loaded message. *)
Definition parse_images (image_data : option string) : list string :=
  match image_data with
  | None => []
  | Some raw =>
      if String.eqb raw "" then []
      else match JSON_parse raw with
           | Some (Js.Arr parsed) =>
               List.map (fun b64 => jpeg_url (Js.to_string b64)) parsed
           | Some _ => [jpeg_url raw]
           | None => [jpeg_url raw]
           end
  end.

(** [Math.floor(elapsed * TYPING_SPEED)] with [TYPING_SPEED = 0.25]. *)
Definition expectedVisibleLength (elapsed : Z) : Z := (elapsed / 4)%Z.

(** [m.content || ''] *)
Definition fullContent (m : Wire.message) : string :=
  default "" (Wire.content m).

(** [now - createdAt], [None] for [NaN]. *)
Definition elapsed (now : Z) (m : Wire.message) : option Z :=
  (fun createdAt => (now - createdAt)%Z) <$> Wire.created_at m.

Definition shouldSimulate (len idx : nat) (m : Wire.message) : bool :=
  (Z.of_nat idx =? Z.of_nat len - 1)%Z
  && String.eqb (Wire.role m) "assistant"
  && (0 <? String.length (fullContent m))%nat.

(** The object the second [return] of the callback builds (lines 390-396). *)
Definition plainMessage (m : Wire.message) : Message :=
  {| role := Wire.role m;
     content := fullContent m;
     images := parse_images (Wire.image_data m);
     _fullContent := None;
     isStreaming :=
       Some (String.eqb (Wire.role m) "assistant"
             && String.eqb (fullContent m) "");
     isSimulating := None;
     status := None |}.

(** The callback of [data.map] (lines 353-397); [len] is [data.length]. *)
Definition parseMessage (now : Z) (len idx : nat) (m : Wire.message)
  : Message :=
  if shouldSimulate len idx m then
    match expectedVisibleLength <$> elapsed now m with
    | Some visible =>
        if (visible <? Z.of_nat (String.length (fullContent m)))%Z then
          {| role := Wire.role m;
             content :=
               substring 0 (Z.to_nat (Z.max 0 visible)) (fullContent m);
             images := parse_images (Wire.image_data m);
             _fullContent := Some (fullContent m);
             isStreaming := Some true;
             isSimulating := Some true;
             status := None |}
        else plainMessage m
    | None => plainMessage m
    end
  else plainMessage m.

Definition parseMessagesData (now : Z) (data : list Wire.message)
  : list Message :=
  imap (parseMessage now (length data)) data.

(* =================================================================== *)
(** ** The conversation store *)
(* =================================================================== *)

(** [JSON.parse(localStorage.getItem('chat_metadata') || '{}')] *)
Definition read_chat_metadata (store : gmap string string)
  : outcome Js.value :=
  let raw := match store !! "chat_metadata" with
             | Some s => if String.eqb s "" then "{}" else s
             | None => "{}"
             end in
  match JSON_parse raw with
  | Some v => Done v
  | None => Throws SyntaxError
  end.

(** The indexed elements of an array or a string as properties. *)
Definition index_props (xs : list Js.value) : gmap string Js.value :=
  list_to_map (imap (fun i x => (pretty i, x)) xs).

(** [{ ...v }] *)
Definition spread (v : Js.value) : gmap string Js.value :=
  match v with
  | Js.Obj props => props
  | Js.Arr xs => index_props xs
  | Js.Str s =>
      index_props
        (List.map (fun c => Js.Str (String c EmptyString))
           (list_ascii_of_string s))
  | _ => ∅
  end.

(** [{ ...v[k] }]: a member of a prototype has no enumerable property of
    its own. *)
Definition spread_at (p : Js.property) : gmap string Js.value :=
  match p with
  | Js.Own x | Js.Fixed x => spread x
  | Js.Inherited | Js.Absent => ∅
  end.

(** Lines 485-486 (and 511-512):
    [metadata[id] = { ...metadata[id], isPinned, isArchived }] and the
    [setItem].  The module is strict code.  Reading a property of [null]
    throws.  On an object the assignment makes or replaces the entry of
    [id], except for the id [__proto__] when the object has no entry of
    that name: the inherited setter then makes the new entry the prototype
    of the object and [JSON.stringify], which writes own properties only,
    stores the object as it was read.  On an array it sets the element
    when [id] is an index, throws a [RangeError] when [id] is [length], and
    otherwise sets a property (or the prototype) that is not serialised.
    On a string, number or boolean it throws, except for [__proto__], whose
    setter ignores a primitive. *)
Definition write_flags (id : string) (conv : Conv.t) (metadata : Js.value)
    (store : gmap string string) : outcome (gmap string string) :=
  let entry :=
    <["isArchived" := Conv.isArchived conv]>
      (<["isPinned" := Conv.isPinned conv]>
         (spread_at (Js.lookup metadata id))) in
  match metadata with
  | Js.Undefined | Js.Null => Throws TypeError
  | Js.Obj props =>
      if String.eqb id "__proto__" && bool_decide (props !! id = None)
      then Done (<["chat_metadata" := JSON_stringify metadata]> store)
      else Done (<["chat_metadata" :=
                     JSON_stringify (Js.Obj (<[id := Js.Obj entry]> props))]>
                   store)
  | Js.Arr xs =>
      match Js.array_index id with
      | Some n =>
          Done (<["chat_metadata" :=
                    JSON_stringify
                      (Js.Arr (Js.set_index n (Js.Obj entry) xs))]> store)
      | None =>
          if String.eqb id "length" then Throws RangeError
          else Done (<["chat_metadata" := JSON_stringify metadata]> store)
      end
  | Js.Str _ | Js.Num _ | Js.Bool _ =>
      if String.eqb id "__proto__"
      then Done (<["chat_metadata" := JSON_stringify metadata]> store)
      else Throws TypeError
  end.

(** The callback of [prev.map] in [togglePin] (lines 475-481). *)
Definition pin_toggled (id : string) (c : Conv.t) : Conv.t :=
  if Conv.has_id id c then
    let newPinned := negb (Conv.pinned c) in
    Conv.Make (Conv.id c) (Conv.title c) (Conv.created_at c)
      (Conv.updated_at c) (Js.Bool newPinned)
      (if newPinned then Js.Bool false else Conv.isArchived c)
  else c.

(** [togglePin] (lines 463-489).  [Throws]: the exception leaves the state
    updater, React unmounts the tree and the error boundary shows its
    fallback. *)
Definition togglePin (id : string) (st : AppState) : outcome AppState :=
  let prev := conversations st in
  let isCurrentlyPinned :=
    from_option Conv.pinned false (List.find (Conv.has_id id) prev) in
  let currentPinnedCount := length (List.filter Conv.pinned prev) in
  if negb isCurrentlyPinned && (5 <=? currentPinnedCount) then
    Done (setTimeout HidePinLimitToast 3000 (setShowPinLimitToast true st))
  else
    let updated := List.map (pin_toggled id) prev in
    metadata ← read_chat_metadata (localStorage st);
    match List.find (Conv.has_id id) updated with
    | None => Throws TypeError
    | Some conv =>
        store ← write_flags id conv metadata (localStorage st);
        Done (setConversations updated (set_localStorage store st))
    end.

(** The callback of [prev.map] in [toggleArchive] (lines 493-499). *)
Definition archive_toggled (id : string) (c : Conv.t) : Conv.t :=
  if Conv.has_id id c then
    let newArchived := negb (Conv.archived c) in
    Conv.Make (Conv.id c) (Conv.title c) (Conv.created_at c)
      (Conv.updated_at c)
      (if newArchived then Js.Bool false else Conv.isPinned c)
      (Js.Bool newArchived)
  else c.

Definition is_current (id : string) (st : AppState) : bool :=
  match currentConversation st with
  | Some cur => String.eqb cur id
  | None => false
  end.

(** [toggleArchive] (lines 491-515). *)
Definition toggleArchive (id : string) (st : AppState) : outcome AppState :=
  let prev := conversations st in
  let updated := List.map (archive_toggled id) prev in
  let st1 :=
    if is_current id st
       && negb (from_option Conv.archived false
                  (List.find (Conv.has_id id) prev))
    then setMessages [] (setCurrentConversation None st)
    else st in
  metadata ← read_chat_metadata (localStorage st1);
  match List.find (Conv.has_id id) updated with
  | None => Throws TypeError
  | Some conv =>
      store ← write_flags id conv metadata (localStorage st1);
      Done (setConversations updated (set_localStorage store st1))
  end.

(** Lines 420-424: [if (metadata[id]) { delete metadata[id]; setItem }].
    [metadata[id]] is also truthy when [id] names a member the value
    inherits ([constructor], [toString], ...): nothing is deleted then and
    the metadata is stored again as read.  In strict code [delete] throws on
    an own property that is not configurable. *)
Definition cleanup_metadata (id : string) (st : AppState)
  : outcome AppState :=
  metadata ← read_chat_metadata (localStorage st);
  match metadata with
  | Js.Undefined | Js.Null => Throws TypeError
  | _ =>
      match Js.lookup metadata id with
      | Js.Own x =>
          if Js.truthy x then
            Done (setItem "chat_metadata"
                    (JSON_stringify (Js.remove metadata id)) st)
          else Done st
      | Js.Fixed x => if Js.truthy x then Throws TypeError else Done st
      | Js.Inherited =>
          Done (setItem "chat_metadata" (JSON_stringify metadata) st)
      | Js.Absent => Done st
      end
  end.

(** Lines 427-431: remove every key that starts with [expand_<id>]. *)
Definition cleanup_expansion (id : string) (st : AppState) : AppState :=
  set_localStorage
    (filter (fun kv => startsWith kv.1 ("expand_" +:+ id) = false)
       (localStorage st)) st.

(** [deleteConversation] (lines 407-435); [fetch_resolves] says whether the
    [DELETE] request's promise resolved (with any status) or rejected. *)
Definition deleteConversation (fetch_resolves : bool) (id : string)
    (st : AppState) : AppState :=
  if fetch_resolves then
    let remaining :=
      List.filter (fun c => negb (Conv.has_id id c)) (conversations st) in
    let st1 := setConversations remaining st in
    let st2 :=
      if is_current id st
      then removeItem "lastConversationId"
             (setMessages [] (setCurrentConversation None st1))
      else st1 in
    match cleanup_metadata id st2 with
    | Done st3 => cleanup_expansion id st3
    | Throws _ => console_error "Failed to delete conversation:" st2
    end
  else console_error "Failed to delete conversation:" st.

(** [x || false] *)
Definition or_false (v : Js.value) : Js.value :=
  if Js.truthy v then v else Js.Bool false.

(** [o?.k] *)
Definition opt_get (o : Js.value) (k : string) : Js.value :=
  match o with
  | Js.Undefined | Js.Null => Js.Undefined
  | _ => Js.get o k
  end.

(** [o[i]?.k] for a literal name [k] *)
Definition opt_get_at (p : Js.property) (k : string) : Js.value :=
  match p with
  | Js.Own x | Js.Fixed x => opt_get x k
  | Js.Inherited | Js.Absent => Js.Undefined
  end.

(** The callback of [data.map] in [initConversations] (lines 210-214). *)
Definition merge_metadata (persistedMetadata : Js.value) (conv : Conv.t)
  : outcome Conv.t :=
  match persistedMetadata with
  | Js.Undefined | Js.Null => Throws TypeError
  | _ =>
      let entry := Js.lookup persistedMetadata (Conv.id conv) in
      Done (Conv.Make (Conv.id conv) (Conv.title conv)
              (Conv.created_at conv) (Conv.updated_at conv)
              (or_false (opt_get_at entry "isPinned"))
              (or_false (opt_get_at entry "isArchived")))
  end.

(** [loadMessages] / [loadMessagesSync] (lines 327-346); [fetched] is the
    decoded response, [None] when the request or its decoding fails. *)
Definition loadMessagesSync (fetched : option (list Wire.message))
    (now : Z) (st : AppState) : AppState :=
  match fetched with
  | Some data => setMessages (parseMessagesData now data) st
  | None => console_error "Failed to load messages:" st
  end.

(** [initConversations] (lines 203-236). *)
Definition initConversations (fetched : option (list Conv.t))
    (fetched_messages : option (list Wire.message)) (now : Z)
    (st : AppState) : AppState :=
  let attempt : outcome AppState :=
    match fetched with
    | None => Throws NetworkError
    | Some data =>
        persistedMetadata ← read_chat_metadata (localStorage st);
        mergedData ← mapM (merge_metadata persistedMetadata) data;
        let st1 := setConversations mergedData st in
        match localStorage st !! "lastConversationId" with
        | Some savedId =>
            if String.eqb savedId "" then Done st1
            else if existsb (Conv.has_id savedId) data
                 then Done (loadMessagesSync fetched_messages now st1)
                 else Done (setMessages []
                              (setCurrentConversation None
                                 (removeItem "lastConversationId" st1)))
        | None => Done st1
        end
    end in
  setIsInitializing false
    match attempt with
    | Done st' => st'
    | Throws _ => console_error "Failed to fetch conversations:" st
    end.

(** The imported asset [defaultAvatar]. *)
Variable defaultAvatar : string.

Definition guestProfile : Js.value :=
  Js.Obj (<["name" := Js.Str "Guest"]>
            (<["email" := Js.Str "guest@example.com"]>
               (<["avatar" := Js.Str defaultAvatar]> ∅))).

(** [s.includes(sub)] *)
Definition includes (s sub : string) : bool :=
  match String.index 0 sub s with Some _ => true | None => false end.

(** The migration test of line 41 on [profile.avatar]. *)
Definition avatar_is_old (avatar : Js.value) : outcome bool :=
  match avatar with
  | Js.Str s =>
      Done (String.eqb s "/hnam.jpeg" || String.eqb s "/pochi.jpeg"
            || includes s "hnam")
  | Js.Arr xs =>
      Done (existsb (fun x => match x with
                              | Js.Str e => String.eqb e "hnam"
                              | _ => false
                              end) xs)
  | _ => Throws TypeError
  end.

(** The initialiser of the [userProfile] state (lines 35-55): the profile
    and the state after its [setItem] or [console.error]. *)
Definition initUserProfile (st : AppState) : Js.value * AppState :=
  match localStorage st !! "user_profile" with
  | None => (guestProfile, st)
  | Some saved =>
      if String.eqb saved "" then (guestProfile, st)
      else
        let attempt : outcome (Js.value * AppState) :=
          match JSON_parse saved with
          | None => Throws SyntaxError
          | Some (Js.Undefined | Js.Null) => Throws TypeError
          | Some (Js.Obj props) =>
              old ← avatar_is_old (Js.get (Js.Obj props) "avatar");
              if (old : bool) then
                let profile :=
                  Js.Obj (<["avatar" := Js.Str defaultAvatar]> props) in
                Done (profile,
                      setItem "user_profile" (JSON_stringify profile) st)
              else Done (Js.Obj props, st)
          | Some _ => Throws TypeError
          end in
        match attempt with
        | Done r => r
        | Throws _ =>
            (guestProfile, console_error "Failed to parse user_profile" st)
        end
  end.

(* =================================================================== *)
(** ** One send: [sendMessage] *)
(* =================================================================== *)

(** What [reader.read()] yields, call after call: a decoded chunk, the end
    of the stream ([done]), or a rejection. *)
Inductive stream : Type :=
| Closed
| Chunk (text : string) (rest : stream)
| Broken.

(** The outcome of [fetch(`${API_BASE}/chat`)]: a rejection, or a response
    with its [X-Session-Id] header and its [body] ([None] for [null]). *)
Inductive fetched : Type :=
| Rejected
| Response (sessionId : option string) (body : option stream).

(** An element of [uploadedImages]. *)
Record upload : Type := Upload { preview : string; file : string }.

(** [newMessages[newMessages.length - 1]] updated in place, when there is
    one. *)
Definition update_last (f : Message -> Message) (l : list Message)
  : list Message :=
  match length l with
  | O => l
  | S n => alter f n l
  end.

Definition with_status (v : Js.value) (m : Message) : Message :=
  mkMessage (role m) (content m) (images m) (_fullContent m)
    (isStreaming m) (isSimulating m) (Some v).

Definition with_content (s : string) (m : Message) : Message :=
  mkMessage (role m) s (images m) (_fullContent m)
    (isStreaming m) (isSimulating m) (status m).

(** [isStreaming = false; status = null] *)
Definition finished (m : Message) : Message :=
  mkMessage (role m) (content m) (images m) (_fullContent m)
    (Some false) (isSimulating m) (Some Js.Null).

(** The locals of the read loop. *)
Record decoder : Type := Decoder {
  assistantMessage : string;
  batchTokens : nat
}.

Definition token (s : string) (d : decoder) : decoder :=
  Decoder (assistantMessage d +:+ s) (S (batchTokens d)).

Inductive flow : Type := Next | Break.

Definition BATCH_SIZE : nat := 8.

(** Lines 576-596: decode one payload and act on it. *)
Definition dispatch (data : string) (d : decoder) (st : AppState)
  : flow * decoder * AppState :=
  let parsed := match JSON_parse data with
                | Some v => v
                | None => Js.Str data
                end in
  match parsed with
  | Js.Obj _ | Js.Arr _ =>
      match Js.get parsed "type" with
      | Js.Str ty =>
          if String.eqb ty "token" then
            (Next, token (Js.to_string (Js.get parsed "content")) d, st)
          else if String.eqb ty "status" then
            (Next, d,
             setMessages
               (update_last (with_status (Js.get parsed "status"))
                  (messages st)) st)
          else if String.eqb ty "done" then (Break, d, st)
          else (Next, d, st)
      | _ => (Next, d, st)
      end
  | Js.Str s => (Next, token s d, st)
  | _ => (Next, d, st)
  end.

(** Lines 598-611: the flush at a full batch or at the chunk's last line. *)
Definition flush (len i : nat) (d : decoder) (st : AppState)
  : decoder * AppState :=
  if (BATCH_SIZE <=? batchTokens d) || (Z.of_nat i =? Z.of_nat len - 1)%Z
  then (Decoder (assistantMessage d) 0,
        setMessages
          (update_last (with_content (assistantMessage d)) (messages st))
          st)
  else (d, st).

(** The body of the [for] loop (lines 571-612) at index [i] of [len]
    lines. *)
Definition processLine (len i : nat) (line : string) (d : decoder)
    (st : AppState) : flow * decoder * AppState :=
  if startsWith line "data: " then
    let data := drop_string 6 line in
    if String.eqb data "[DONE]" then (Break, d, st)
    else
      match dispatch data d st with
      | (Break, d1, st1) => (Break, d1, st1)
      | (Next, d1, st1) =>
          let '(d2, st2) := flush len i d1 st1 in (Next, d2, st2)
      end
  else (Next, d, st).

(** The [for] loop over the lines of one chunk, from index [i]. *)
Fixpoint processLines (len i : nat) (lines : list string) (d : decoder)
    (st : AppState) : decoder * AppState :=
  match lines with
  | [] => (d, st)
  | line :: rest =>
      match processLine len i line d st with
      | (Break, d1, st1) => (d1, st1)
      | (Next, d1, st1) => processLines len (S i) rest d1 st1
      end
  end.

(** [chunk.split('\n').filter(l => l.trim().length > 0)] *)
Definition chunk_lines (chunk : string) : list string :=
  List.filter (fun l => (0 <? String.length (trim l))%nat)
    (split_lines chunk).

(** The [while (true)] loop (lines 561-614): the state reached and the
    exception that ended it, if one did; [soFar] is [assistantMessage] on
    entry. *)
Fixpoint readLoop (body : stream) (soFar : string)
    (st : AppState) : AppState * option exn :=
  match body with
  | Closed => (st, None)
  | Broken => (st, Some NetworkError)
  | Chunk text rest =>
      let lines := chunk_lines text in
      let '(d, st1) :=
        processLines (length lines) 0 lines (Decoder soFar 0) st
      in readLoop rest (assistantMessage d) st1
  end.

Definition userTurn (userMessage : string) (imagePreviews : list string)
  : Message :=
  mkMessage "user" userMessage imagePreviews None None None None.

(** [{ role: 'assistant', content: '', isStreaming: true }] *)
Definition placeholder : Message :=
  mkMessage "assistant" "" [] None (Some true) None None.

(** The message the [catch] branch appends (its text is kept as the bytes
    of the source file). *)
Definition apology : Message :=
  mkMessage "assistant" "Xin lỗi, đã có lỗi xảy ra." [] None None None None.

(** Lines 544-552: a session the server just created. *)
Definition adoptSession (sessionId userMessage nowISO : string)
    (st : AppState) : AppState :=
  let st1 := set_isCreatingSessionRef true st in
  let st2 := setCurrentConversation (Some sessionId) st1 in
  let st3 := setItem "lastConversationId" sessionId st2 in
  setConversations
    (match List.find (Conv.has_id sessionId) (conversations st3) with
     | Some _ => conversations st3
     | None =>
         Conv.Make sessionId (Some (substring 0 50 userMessage))
           (Some nowISO) None Js.Undefined Js.Undefined
         :: conversations st3
     end) st3.

(** The truth value of [currentConversation]: an id that is not empty. *)
Definition is_selected (selected : option string) : bool :=
  match selected with
  | Some cur => negb (String.eqb cur "")
  | None => false
  end.

(** The [try] block (lines 540-624); [selected] is the
    [currentConversation] the closure captured. *)
Definition trySend (userMessage nowISO : string) (selected : option string)
    (net : fetched) (st : AppState) : AppState * option exn :=
  match net with
  | Rejected => (st, Some NetworkError)
  | Response sessionId body =>
      let st1 :=
        match sessionId with
        | Some sid =>
            if negb (String.eqb sid "") && negb (is_selected selected)
            then adoptSession sid userMessage nowISO st
            else st
        | None => st
        end in
      match body with
      | None => (st1, Some TypeError)
      | Some reader =>
          let st2 := setMessages (messages st1 ++ [placeholder]) st1 in
          match readLoop reader "" st2 with
          | (st3, None) =>
              (setMessages (update_last finished (messages st3)) st3, None)
          | (st3, Some e) => (st3, Some e)
          end
      end
  end.

(** The [catch] branch (lines 626-636). *)
Definition sendFailed (st : AppState) : AppState :=
  let st1 := console_error "Failed to send message:" st in
  let prev := messages st1 in
  let newMessages :=
    match last prev with
    | Some m =>
        if String.eqb (role m) "assistant"
        then update_last finished prev else prev
    | None => prev
    end in
  setMessages (newMessages ++ [apology]) st1.

(** [sendMessage] (lines 517-642): the state once the returned promise has
    settled.  [net] is what the network does, [nowISO] is
    [new Date().toISOString()]. *)
Definition sendMessage (text : string) (uploadedImages : list upload)
    (net : fetched) (nowISO : string) (st : AppState) : AppState :=
  let userMessage := trim text in
  let imagePreviews := List.map preview uploadedImages in
  let st1 := set_isSendingMessageRef true st in
  let st2 :=
    setMessages (messages st1 ++ [userTurn userMessage imagePreviews]) st1 in
  let st3 := setIsLoading true st2 in
  let st4 :=
    match trySend userMessage nowISO (currentConversation st) net st3 with
    | (st', None) => st'
    | (st', Some _) => sendFailed st'
    end in
  set_isSendingMessageRef false (setIsLoading false st4).

End Platform.

(* ===================================================================== *)
(** ** Vocabulary of the properties, and sample data *)
(* ===================================================================== *)




Definition pinned_count (cs : list Conv.t) : nat :=
  length (List.filter Conv.pinned cs).



(** A parsed payload of one of the shapes the decoder acts on: an object
    whose [type] is [token], [status] or [done]. *)
Definition recognized (v : Js.value) : bool :=
  match v with
  | Js.Obj _ =>
      match Js.get v "type" with
      | Js.Str ty =>
          String.eqb ty "token" || String.eqb ty "status"
          || String.eqb ty "done"
      | _ => false
      end
  | _ => false
  end.



Module Sample.

Definition newline : string := String "010"%char EmptyString.

(** The record [data: <payload>] followed by a line feed. *)
Definition record (payload : string) : string :=
  "data: " +:+ payload +:+ newline.

(** [{"type":"token","content":"<s>"}] *)
Definition token_payload (s : string) : string :=
  "{" +:+ Json.quoted "type" +:+ ":" +:+ Json.quoted "token" +:+ ","
      +:+ Json.quoted "content" +:+ ":" +:+ Json.quoted s +:+ "}".

(** [{"type":"<ty>"}] *)
Definition typed_payload (ty : string) : string :=
  "{" +:+ Json.quoted "type" +:+ ":" +:+ Json.quoted ty +:+ "}".

(** What [JSON.parse] returns on [token_payload s] and on
    [typed_payload ty]. *)
Definition token_object (s : string) : Js.value :=
  Js.Obj (<["type" := Js.Str "token"]> (<["content" := Js.Str s]> ∅)).

Definition typed_object (ty : string) : Js.value :=
  Js.Obj (<["type" := Js.Str ty]> ∅).

(** A body that sends [sentinel] in one chunk and a token [X] in the next,
    then closes. *)
Definition token_after (sentinel : string) : stream :=
  Chunk (record sentinel) (Chunk (record (token_payload "X")) Closed).

Fixpoint repeat_string (n : nat) (s : string) : string :=
  match n with
  | O => EmptyString
  | S n' => s +:+ repeat_string n' s
  end.

(** A text of 1000 characters: [0123456789] a hundred times. *)
Definition thousand : string := repeat_string 100 "0123456789".

Definition assistant_reply (text : string) (createdAt : Z) : Wire.message :=
  Wire.Message "assistant" (Some text) None (Some createdAt).

Definition user_turn (text : string) (createdAt : Z) : Wire.message :=
  Wire.Message "user" (Some text) None (Some createdAt).

Definition conv (id : string) (pinned : bool) : Conv.t :=
  Conv.Make id (Some id) None None (Js.Bool pinned) (Js.Bool false).

Definition flags (pinned archived : bool) : Js.value :=
  Js.Obj (<["isPinned" := Js.Bool pinned]>
            (<["isArchived" := Js.Bool archived]> ∅)).

(** The metadata of two conversations: [a] plain, [b] pinned. *)
Definition metadata_ab : gmap string Js.value :=
  <["a" := flags false false]> (<["b" := flags true false]> ∅).

Definition store_ab : gmap string string :=
  list_to_map
    [("chat_metadata", Json.stringify (Js.Obj metadata_ab));
     ("lastConversationId", "a");
     ("expand_a_0", "true");
     ("expand_a_1", "false");
     ("expand_b_0", "true")].

(** The same storage with a truncated [chat_metadata]. *)
Definition store_corrupt : gmap string string :=
  <["chat_metadata" := "{"]> store_ab.

(** Conversations [a] and [b], [a] selected, over [store]. *)
Definition browsing (store : gmap string string) : AppState :=
  mkApp [conv "a" false; conv "b" true] (Some "a")
    [mkMessage "user" "hi" [] None None None None]
    false false false false false store [] [].

(** Five pinned conversations and a sixth that is not. *)
Definition crowded : AppState :=
  mkApp [conv "c1" true; conv "c2" true; conv "c3" true; conv "c4" true;
         conv "c5" true; conv "c6" false]
    None [] false false false false false ∅ [] [].

(** The state right after the first render, with [store] as the browser's
    storage. *)
Definition fresh (store : gmap string string) : AppState :=
  mkApp [] None [] false true false false false store [] [].

(** A table for [new Date(s).getTime()]: two dates, every other text is no
    date. *)
Definition getTime (s : string) : option Z :=
  if String.eqb s "2026-01-01T00:00:00.000Z" then Some 1767225600000%Z
  else if String.eqb s "2026-01-02T00:00:00.000Z" then Some 1767312000000%Z
  else None.

(** A conversation created at [createdAt]. *)
Definition dated (id createdAt : string) (pinned : bool) : Conv.t :=
  Conv.Make id (Some id) (Some createdAt) None (Js.Bool pinned)
    (Js.Bool false).

End Sample.

(* ===================================================================== *)
(** ** After a load: the reveal timer and the poll *)
(* ===================================================================== *)

(** [lastMsg.isSimulating && lastMsg._fullContent] *)
Definition reveal_pending (lastMsg : Message) : bool :=
  match isSimulating lastMsg, _fullContent lastMsg with
  | Some true, Some full => negb (String.eqb full "")
  | _, _ => false
  end.

(** The guard of the simulation effect (lines 290-295): the index [lastIdx]
    its timer is armed with, if it is armed. *)
Definition simulationArmed (st : AppState) : option nat :=
  if isLoading st then None
  else match last (messages st) with
       | Some lastMsg =>
           if reveal_pending lastMsg
           then Some (pred (length (messages st)))
           else None
       | None => None
       end.

Definition batchSize : nat := 24.

(** The state updater the timer runs (lines 297-318) on the buffer [prev] it
    finds.  A simulating message without [_fullContent] makes
    [fullContent.substring] throw. *)
Definition revealStep (lastIdx : nat) (prev : list Message)
  : outcome (list Message) :=
  match prev !! lastIdx with
  | None => Done prev
  | Some msg =>
      match isSimulating msg with
      | Some true =>
          match _fullContent msg with
          | None => Throws TypeError
          | Some fullContent =>
              let currentLen := String.length (content msg) in
              let nextContent :=
                substring 0 (currentLen + batchSize) fullContent in
              Done (<[lastIdx :=
                       if String.length fullContent
                          <=? String.length nextContent
                       then mkMessage (role msg) nextContent (images msg)
                              None (Some false) (Some false) (status msg)
                       else mkMessage (role msg) nextContent (images msg)
                              (Some fullContent) (isStreaming msg)
                              (isSimulating msg) (status msg)]> prev)
          end
      | _ => Done prev
      end
  end.

(** The effect and one firing of its timer (5 ms later), nothing else
    having written the buffer in between. *)
Definition simulationTick (st : AppState) : outcome AppState :=
  match simulationArmed st with
  | Some lastIdx =>
      newMessages ← revealStep lastIdx (messages st);
      Done (setMessages newMessages st)
  | None => Done st
  end.

(** [ticks] firings in a row. *)
Fixpoint simulation (ticks : nat) (st : AppState) : outcome AppState :=
  match ticks with
  | O => Done st
  | S n => st' ← simulationTick st; simulation n st'
  end.

(** [lastMsg.role === 'assistant' && !lastMsg.content] (line 277) *)
Definition isPending (lastMsg : Message) : bool :=
  String.eqb (role lastMsg) "assistant" && String.eqb (content lastMsg) "".

(** The guard of the poll effect (lines 274-279): the 3 s interval is set. *)
Definition pollArmed (st : AppState) : bool :=
  is_selected (currentConversation st)
  && negb (isLoading st)
  && from_option isPending false (last (messages st)).

(** The message the reveal ends with. *)
Definition revealed (m : Message) (full : string) : Message :=
  mkMessage (role m) full (images m) None (Some false) (Some false)
    (status m).

(** The message the reveal shows while [shown] characters are visible. *)
Definition revealing (m : Message) (full : string) (shown : nat) : Message :=
  mkMessage (role m) (substring 0 shown full) (images m) (Some full)
    (isStreaming m) (isSimulating m) (status m).

(* ===================================================================== *)
(** ** Selecting, creating and renaming conversations *)
(* ===================================================================== *)

(** The initialiser of the [currentConversation] state (lines 26-29). *)
Definition initialConversation (store : gmap string string)
  : option string :=
  match store !! "lastConversationId" with
  | Some lastId =>
      if String.eqb lastId "null" || String.eqb lastId "" then None
      else Some lastId
  | None => None
  end.

(** [createConversation] (lines 400-405): the state, and [sidebarOpen]
    after it; [innerWidth] is [window.innerWidth]. *)
Definition createConversation (innerWidth : Z) (sidebarOpen : bool)
    (st : AppState) : AppState * bool :=
  (removeItem "lastConversationId"
     (setMessages [] (setCurrentConversation None st)),
   if (innerWidth <? 768)%Z then false else sidebarOpen).

(** The callback of [prev.map] in [renameConversation] (lines 439-441). *)
Definition retitled (id newTitle : string) (c : Conv.t) : Conv.t :=
  if Conv.has_id id c then
    Conv.Make (Conv.id c) (Some newTitle) (Conv.created_at c)
      (Conv.updated_at c) (Conv.isPinned c) (Conv.isArchived c)
  else c.

(** [renameConversation] (lines 437-454); [patched] says whether the
    [PATCH] request resolved with an ok status. *)
Definition renameConversation (patched : bool) (id newTitle : string)
    (st : AppState) : AppState :=
  let st1 :=
    setConversations (List.map (retitled id newTitle) (conversations st)) st
  in
  if patched then st1
  else console_error "Failed to rename conversation:" st1.

(** The three lists the conversations are shown in: pinned and active in
    the sidebar (Sidebar.jsx, lines 56-57), archived in the settings
    (App.jsx, line 792). *)
Definition pinnedChats (conversations : list Conv.t) : list Conv.t :=
  List.filter (fun c => Conv.pinned c && negb (Conv.archived c))
    conversations.

Definition activeChats (conversations : list Conv.t) : list Conv.t :=
  List.filter (fun c => negb (Conv.pinned c) && negb (Conv.archived c))
    conversations.

Definition archivedSessions (conversations : list Conv.t) : list Conv.t :=
  List.filter Conv.archived conversations.

(* ===================================================================== *)
(** ** The expanded flag of a message (MessageList.jsx) *)
(* ===================================================================== *)

(** [`expand_${conversationId}_${idx}`] (line 418). *)
Definition messageId (conversationId : string) (idx : nat) : string :=
  "expand_" +:+ conversationId +:+ "_" +:+ pretty idx.

(** The initialiser of [expanded] (lines 63-66). *)
Definition initExpanded (messageId : option string)
    (store : gmap string string) : bool :=
  match messageId with
  | None => false
  | Some key =>
      match store !! key with
      | Some flag => String.eqb flag "true"
      | None => false
      end
  end.

(** [String(b)] *)
Definition string_of_bool (b : bool) : string :=
  if b then "true" else "false".

(** [toggleExpand] (lines 88-94): the new [expanded] and the storage. *)
Definition toggleExpand (expanded : bool) (messageId : option string)
    (store : gmap string string) : bool * gmap string string :=
  let nextState := negb expanded in
  (nextState,
   match messageId with
   | Some key => <[key := string_of_bool nextState]> store
   | None => store
   end).

(* ===================================================================== *)
(** ** The image viewer (Modals.jsx) *)
(* ===================================================================== *)

Module ImageViewer.

(** The state of the viewer: [currentIndex] ([None] for [NaN]), [zoom]
    counted in quarters (every value the handlers reach from 1 is a
    multiple of 0.25 between 0.5 and 3, which binary floating point adds
    and compares exactly) and [rotation]. *)
Record state : Type := mkViewer {
  currentIndex : option Z;
  zoom : Z;
  rotation : Z
}.

(** [useState(startIndex)], [useState(1)], [useState(0)] (lines 481-483). *)
Definition init (startIndex : Z) : state := mkViewer (Some startIndex) 4 0.

(** [a % b] on integers: [NaN] ([None]) for [b = 0], else the remainder
    with the sign of [a]. *)
Definition js_rem (a b : Z) : option Z :=
  if (b =? 0)%Z then None else Some (Z.rem a b).

(** [handleNext], [handlePrev] (lines 500-510) for [images.length = len]. *)
Definition handleNext (len : nat) (v : state) : state :=
  mkViewer (prev ← currentIndex v; js_rem (prev + 1) (Z.of_nat len)) 4 0.

Definition handlePrev (len : nat) (v : state) : state :=
  mkViewer
    (prev ← currentIndex v; js_rem (prev - 1 + Z.of_nat len) (Z.of_nat len))
    4 0.

(** [handleZoomIn], [handleZoomOut], [handleReset] (lines 512-517). *)
Definition handleZoomIn (v : state) : state :=
  mkViewer (currentIndex v) (Z.min (zoom v + 1) 12) (rotation v).

Definition handleZoomOut (v : state) : state :=
  mkViewer (currentIndex v) (Z.max (zoom v - 1) 2) (rotation v).

Definition handleReset (v : state) : state :=
  mkViewer (currentIndex v) 4 0.

(** The controls of the viewer, and a run of them. *)
Inductive control : Type := Next | Prev | ZoomIn | ZoomOut | Reset.

Definition press (len : nat) (v : state) (c : control) : state :=
  match c with
  | Next => handleNext len v
  | Prev => handlePrev len v
  | ZoomIn => handleZoomIn v
  | ZoomOut => handleZoomOut v
  | Reset => handleReset v
  end.

Definition presses (len : nat) (cs : list control) (v : state) : state :=
  foldl (press len) v cs.

(** The index is one of the [len] images and the zoom is between 0.5 and
    3. *)
Definition in_range (len : nat) (v : state) : Prop :=
  (∃ i, currentIndex v = Some i ∧ (0 ≤ i < Z.of_nat len)%Z)
  ∧ (2 ≤ zoom v ≤ 12)%Z.

End ImageViewer.

(* ===================================================================== *)
(** ** The effect that follows a change of conversation *)
(* ===================================================================== *)

Section Reconciliation.

Variable JSON_parse : string -> option Js.value.

(** [loadMessages] (lines 327-335), the same body as [loadMessagesSync]. *)
Definition loadMessages (fetched : option (list Wire.message)) (now : Z)
    (st : AppState) : AppState :=
  match fetched with
  | Some data => setMessages (parseMessagesData JSON_parse now data) st
  | None => console_error "Failed to load messages:" st
  end.

(** The effect on [currentConversation] (lines 251-270), with the request
    of [loadMessages] settled as [fetched]. *)
Definition conversationChanged (fetched : option (list Wire.message))
    (now : Z) (st : AppState) : AppState :=
  match currentConversation st with
  | Some cur =>
      if String.eqb cur "" then setMessages [] st
      else if isCreatingSessionRef st then set_isCreatingSessionRef false st
      else if isSendingMessageRef st then st
      else setItem "lastConversationId" cur (loadMessages fetched now st)
  | None => setMessages [] st
  end.

(** The effect run [n] times with the same response. *)
Fixpoint conversationChanges (n : nat)
    (fetched : option (list Wire.message)) (now : Z) (st : AppState)
  : AppState :=
  match n with
  | O => st
  | S n' => conversationChanges n' fetched now
              (conversationChanged fetched now st)
  end.

End Reconciliation.

(* ===================================================================== *)
(** ** The order of the sidebar *)
(* ===================================================================== *)

Section SidebarOrder.

(** [new Date(s).getTime()], [None] for [NaN]. *)
Variable Date_getTime : string -> option Z.

(** [c.created_at ? new Date(c.created_at).getTime() : 0] *)
Definition createdTime (c : Conv.t) : option Z :=
  match Conv.created_at c with
  | Some s => if String.eqb s "" then Some 0%Z else Date_getTime s
  | None => Some 0%Z
  end.

(** The comparator handed to [sort] (App.jsx, lines 668-675); [None] is
    [NaN]. *)
Definition compareConversations (a b : Conv.t) : option Z :=
  if Conv.pinned a && negb (Conv.pinned b) then Some (-1)%Z
  else if negb (Conv.pinned a) && Conv.pinned b then Some 1%Z
  else match createdTime a, createdTime b with
       | Some dateA, Some dateB => Some (dateB - dateA)%Z
       | _, _ => None
       end.

(** [a] may stand before [b]: the comparator's value is not positive
    ([sort] reads [NaN] as 0). *)
Definition notAfter (a b : Conv.t) : bool :=
  match compareConversations a b with
  | Some v => (v <=? 0)%Z
  | None => true
  end.

Fixpoint insertSorted (a : Conv.t) (sorted : list Conv.t) : list Conv.t :=
  match sorted with
  | [] => [a]
  | b :: rest =>
      if notAfter a b then a :: sorted else b :: insertSorted a rest
  end.

(** [[...conversations].sort(compare)]: [Array.prototype.sort] is stable,
    and for a comparator that is a consistent ordering its result is the
    one of any stable sort; here, insertion from the right. *)
Definition sortedConversations (conversations : list Conv.t)
  : list Conv.t :=
  foldr insertSorted [] conversations.

(** Every [created_at] that is read is a date. *)
Definition datesReadable (conversations : list Conv.t) : Prop :=
  ∀ c, c ∈ conversations → is_Some (createdTime c).

End SidebarOrder.

(* ===================================================================== *)
(** ** The profile *)
(* ===================================================================== *)

Section Profile.

Variable JSON_stringify : Js.value -> string.

(** [handleUpdateProfile] (lines 57-61): the new [userProfile] and the
    state. *)
Definition handleUpdateProfile (userProfile newProfile : Js.value)
    (st : AppState) : Js.value * AppState :=
  let updated := Js.Obj (spread newProfile ∪ spread userProfile) in
  (updated, setItem "user_profile" (JSON_stringify updated) st).

End Profile.

(* ===================================================================== *)
(** ** The events of a reply *)
(* ===================================================================== *)

Section Protocol.

Variable JSON_parse : string -> option Js.value.

(** What the server sends in one record of the stream. *)
Inductive event : Type :=
| Token (text : string)
| Status (status : Js.value)
| Finished.

(** [line] is a record of [e], as [JSON_parse] reads its payload. *)
Definition carries (line : string) (e : event) : Prop :=
  ∃ payload, line = "data: " +:+ payload ∧
    match e with
    | Token text =>
        payload ≠ "[DONE]"
        ∧ ∃ props, JSON_parse payload = Some (Js.Obj props)
                   ∧ props !! "type" = Some (Js.Str "token")
                   ∧ props !! "content" = Some (Js.Str text)
    | Status status =>
        payload ≠ "[DONE]"
        ∧ ∃ props, JSON_parse payload = Some (Js.Obj props)
                   ∧ props !! "type" = Some (Js.Str "status")
                   ∧ Js.get (Js.Obj props) "status" = status
    | Finished =>
        payload = "[DONE]"
        ∨ ∃ props, JSON_parse payload = Some (Js.Obj props)
                   ∧ props !! "type" = Some (Js.Str "done")
    end.

Definition is_finished (e : event) : bool :=
  match e with Finished => true | _ => false end.

(** The text of the tokens among [events]. *)
Fixpoint text_of (events : list event) : string :=
  match events with
  | [] => ""
  | Token text :: rest => text +:+ text_of rest
  | _ :: rest => text_of rest
  end.

(** The lines of [chunk] are records of [events], one each; the end of the
    reply, if it is among them, has the chunk to itself. *)
Definition chunk_carries (chunk : string) (events : list event) : Prop :=
  events ≠ []
  ∧ Forall2 carries (chunk_lines chunk) events
  ∧ (existsb is_finished events = true → events = [Finished]).

(** [body] closes after chunks that carry [chunks], in this order. *)
Fixpoint delivers (body : stream) (chunks : list (list event)) : Prop :=
  match body, chunks with
  | Closed, [] => True
  | Chunk text rest, events :: more =>
      chunk_carries text events ∧ delivers rest more
  | _, _ => False
  end.


End Protocol.

(** [st'] differs from [st] at most in the buffer, the two busy flags and
    the log. *)
Definition keeps_session (st st' : AppState) : Prop :=
  conversations st' = conversations st
  ∧ currentConversation st' = currentConversation st
  ∧ localStorage st' = localStorage st
  ∧ isCreatingSessionRef st' = isCreatingSessionRef st
  ∧ isInitializing st' = isInitializing st
  ∧ showPinLimitToast st' = showPinLimitToast st
  ∧ timers st' = timers st.

(** The metadata object a toggle stores for the conversation [conv] with
    id [id] when it has read [props]: for the id [__proto__] without an
    entry, [props] itself. *)
Definition stored_flags (id : string) (conv : Conv.t)
    (props : gmap string Js.value) : gmap string Js.value :=
  if String.eqb id "__proto__" && bool_decide (props !! id = None)
  then props
  else <[id := Js.Obj (<["isArchived" := Conv.isArchived conv]>
                         (<["isPinned" := Conv.isPinned conv]>
                            (spread_at (Js.lookup (Js.Obj props) id))))]>
         props.

(* ===================================================================== *)
(** ** Facts about strings *)
(* ===================================================================== *)

Lemma substring_0_length (n : nat) (s : string) :
  n ≤ String.length s → String.length (substring 0 n s) = n.
Proof.
  revert n; induction s as [|c s IH]; intros [|n] Hn; simpl in *;
    try reflexivity; try lia.
  rewrite IH; lia.
Qed.

Lemma substring_0_prefix (n : nat) (s : string) :
  String.prefix (substring 0 n s) s = true.
Proof.
  revert n; induction s as [|c s IH]; intros [|n]; simpl; try reflexivity.
  destruct (ascii_dec c c) as [_|Hc]; [apply IH | congruence].
Qed.

Lemma prefix_refl (s : string) : String.prefix s s = true.
Proof.
  induction s as [|c s IH]; simpl; [reflexivity|].
  destruct (ascii_dec c c) as [_|Hc]; [apply IH | congruence].
Qed.

Lemma prefix_length_le (p s : string) :
  String.prefix p s = true → String.length p ≤ String.length s.
Proof.
  revert s; induction p as [|c p IH]; intros [|d s] H; simpl in *;
    try lia; try discriminate.
  destruct (ascii_dec c d); [|discriminate]. apply IH in H. lia.
Qed.

Lemma eqb_empty_length (s : string) :
  String.eqb s "" = false ↔ 0 < String.length s.
Proof. destruct s; simpl; split; (discriminate || lia || reflexivity). Qed.

(* ===================================================================== *)
(** ** Loading a conversation *)
(* ===================================================================== *)

Section Loading.

Variable JSON_parse : string -> option Js.value.

Lemma parseMessagesData_lookup now data i :
  parseMessagesData JSON_parse now data !! i
  = parseMessage JSON_parse now (length data) i <$> data !! i.
Proof. apply list_lookup_imap. Qed.

Lemma parseMessagesData_length now data :
  length (parseMessagesData JSON_parse now data) = length data.
Proof. apply length_imap. Qed.

Lemma parseMessagesData_last now data :
  last (parseMessagesData JSON_parse now data)
  = parseMessage JSON_parse now (length data) (pred (length data)) <$> last data.
Proof.
  rewrite !last_lookup, parseMessagesData_length.
  apply parseMessagesData_lookup.
Qed.

Lemma shouldSimulate_last len m :
  0 < len → Wire.role m = "assistant" → fullContent m ≠ "" →
  shouldSimulate len (pred len) m = true.
Proof.
  intros Hlen Hrole Hfull. unfold shouldSimulate.
  rewrite Hrole. simpl.
  replace (Z.of_nat (pred len) =? Z.of_nat len - 1)%Z with true
    by (symmetry; apply Z.eqb_eq; lia).
  simpl. apply Nat.ltb_lt, eqb_empty_length.
  destruct (String.eqb_spec (fullContent m) ""); congruence.
Qed.

Lemma shouldSimulate_inv len idx m :
  shouldSimulate len idx m = true →
  S idx = len ∧ Wire.role m = "assistant" ∧ fullContent m ≠ "".
Proof.
  unfold shouldSimulate.
  intros [[Hidx Hrole%String.eqb_eq]%andb_prop Hfull%Nat.ltb_lt]%andb_prop.
  apply Z.eqb_eq in Hidx. repeat split; [lia | done |].
  intros E. rewrite E in Hfull. simpl in Hfull. lia.
Qed.









(** What the last message of the loaded buffer is when the backend's last
    message is an assistant message with content. *)
Lemma parse_trailing_assistant now data m :
  last data = Some m → Wire.role m = "assistant" → fullContent m ≠ "" →
  last (parseMessagesData JSON_parse now data)
  = Some (parseMessage JSON_parse now (length data) (pred (length data)) m)
  ∧ shouldSimulate (length data) (pred (length data)) m = true
  ∧ isStreaming (plainMessage JSON_parse m) = Some false.
Proof.
  intros Hlast Hrole Hfull.
  assert (Hlen : 0 < length data).
  { destruct data; [discriminate | simpl; lia]. }
  split; [by rewrite parseMessagesData_last, Hlast|].
  split; [by apply shouldSimulate_last|].
  unfold plainMessage. simpl. rewrite Hrole. simpl.
  destruct (String.eqb_spec (fullContent m) ""); congruence.
Qed.


(** C5.  The content of a parsed message is a prefix of the full content,
    so it is never longer; and when the visible length computed from the
    elapsed time reaches the full length the message carries the whole
    content and is not simulating. *)
Theorem reveal_never_overshoots now len idx m :
  String.prefix (content (parseMessage JSON_parse now len idx m))
    (fullContent m) = true
  ∧ String.length (content (parseMessage JSON_parse now len idx m))
    ≤ String.length (fullContent m)
  ∧ ∀ visible,
      expectedVisibleLength <$> elapsed now m = Some visible →
      (Z.of_nat (String.length (fullContent m)) ≤ visible)%Z →
      content (parseMessage JSON_parse now len idx m) = fullContent m
      ∧ isSimulating (parseMessage JSON_parse now len idx m) = None
      ∧ _fullContent (parseMessage JSON_parse now len idx m) = None
      ∧ (fullContent m ≠ "" →
         isStreaming (parseMessage JSON_parse now len idx m) = Some false).
Proof.
  assert (Hpre : String.prefix
                   (content (parseMessage JSON_parse now len idx m))
                   (fullContent m) = true).
  { unfold parseMessage.
    destruct (shouldSimulate len idx m); [|apply prefix_refl].
    destruct (expectedVisibleLength <$> elapsed now m) as [visible|];
      [|apply prefix_refl].
    destruct (visible <? _)%Z; [apply substring_0_prefix | apply prefix_refl]. }
  split; [exact Hpre|]. split; [by apply prefix_length_le|].
  intros visible Hvis Hfull. unfold parseMessage. rewrite Hvis.
  replace (visible <? Z.of_nat (String.length (fullContent m)))%Z
    with false by (symmetry; apply Z.ltb_ge; lia).
  assert (Hplain : fullContent m ≠ "" →
                   isStreaming (plainMessage JSON_parse m) = Some false).
  { intros Hne. unfold plainMessage. simpl.
    destruct (String.eqb_spec (fullContent m) ""); [done|].
    by rewrite andb_false_r. }
  by destruct (shouldSimulate len idx m).
Qed.

(** C9.  A last assistant message with content whose creation time lies
    after [now] is shown with empty content: the visible length is
    negative and is clamped to 0; the message is streaming and simulating
    and keeps the full text for the reveal.  [parseMessagesData] is a total
    function, so nothing is thrown. *)
Theorem future_timestamp_reveals_nothing now data m created :
  last data = Some m → Wire.role m = "assistant" → fullContent m ≠ "" →
  Wire.created_at m = Some created → (now < created)%Z →
  (expectedVisibleLength (now - created) < 0)%Z
  ∧ Z.max 0 (expectedVisibleLength (now - created)) = 0%Z
  ∧ ∃ p, last (parseMessagesData JSON_parse now data) = Some p
         ∧ content p = ""
         ∧ isStreaming p = Some true
         ∧ isSimulating p = Some true
         ∧ _fullContent p = Some (fullContent m).
Proof.
  intros Hlast Hrole Hfull Hcreated Hfuture.
  assert (Hneg : (expectedVisibleLength (now - created) < 0)%Z).
  { unfold expectedVisibleLength. apply Z.div_lt_upper_bound; lia. }
  split; [exact Hneg|]. split; [lia|].
  destruct (parse_trailing_assistant now data m Hlast Hrole Hfull)
    as (Hp & Hsim & _).
  eexists; split; [exact Hp|].
  unfold parseMessage, elapsed. rewrite Hsim, Hcreated. simpl.
  replace (expectedVisibleLength (now - created)
           <? Z.of_nat (String.length (fullContent m)))%Z
    with true by (symmetry; apply Z.ltb_lt; lia).
  simpl. repeat split.
  replace (Z.to_nat _) with 0 by lia.
  by destruct (fullContent m).
Qed.

End Loading.

(** *** Loading: closed examples *)


(** C5 at a reply of four characters loaded 7000 ms after its creation. *)
Lemma old_reply_is_shown_whole :
  content (parseMessage Json.parse 7000 1 0 (Sample.assistant_reply "done" 0))
  = "done"
  ∧ isSimulating
      (parseMessage Json.parse 7000 1 0 (Sample.assistant_reply "done" 0))
    = None
  ∧ isStreaming
      (parseMessage Json.parse 7000 1 0 (Sample.assistant_reply "done" 0))
    = Some false.
Proof.
  destruct (reveal_never_overshoots Json.parse 7000 1 0
              (Sample.assistant_reply "done" 0)) as (_ & _ & Hfull).
  destruct (Hfull 1750%Z eq_refl) as (Hc & Hsim & _ & Hstr).
  - simpl. lia.
  - split; [exact Hc|]. split; [exact Hsim|]. apply Hstr. discriminate.
Defined.

(** C9 at a reply stamped 4000 ms after the client's clock. *)
Lemma reply_from_the_future :
  ∃ p, last (parseMessagesData Json.parse 1000
               [Sample.assistant_reply "soon" 5000]) = Some p
       ∧ content p = ""
       ∧ isStreaming p = Some true
       ∧ isSimulating p = Some true
       ∧ _fullContent p = Some "soon".
Proof.
  destruct (future_timestamp_reveals_nothing Json.parse 1000
              [Sample.assistant_reply "soon" 5000]
              (Sample.assistant_reply "soon" 5000) 5000
              eq_refl eq_refl) as (_ & _ & Hp).
  - discriminate.
  - reflexivity.
  - lia.
  - exact Hp.
Defined.

(* ===================================================================== *)
(** ** The conversation store *)
(* ===================================================================== *)

Section Store.

Variable JSON_parse : string -> option Js.value.
Variable JSON_stringify : Js.value -> string.

Lemma has_id_true id c : Conv.has_id id c = true ↔ Conv.id c = id.
Proof. apply String.eqb_eq. Qed.

Lemma has_id_false id c : Conv.has_id id c = false ↔ Conv.id c ≠ id.
Proof. apply String.eqb_neq. Qed.

Lemma pin_toggled_absent id cs :
  id ∉ Conv.id <$> cs → List.map (pin_toggled id) cs = cs.
Proof.
  induction cs as [|c cs IH]; intros Hid; simpl; [done|].
  rewrite fmap_cons, not_elem_of_cons in Hid. destruct Hid as [Hc Hcs].
  unfold pin_toggled at 1.
  replace (Conv.has_id id c) with false
    by (symmetry; apply has_id_false; congruence).
  by rewrite IH.
Qed.

(** With distinct ids a toggle changes the number of pinned conversations
    by one: down when the target was pinned, up otherwise. *)
Lemma pinned_count_toggled id cs :
  NoDup (Conv.id <$> cs) →
  pinned_count (List.map (pin_toggled id) cs)
  ≤ if from_option Conv.pinned false (List.find (Conv.has_id id) cs)
    then pinned_count cs else S (pinned_count cs).
Proof.
  unfold pinned_count.
  induction cs as [|c cs IH]; intros Hnd; simpl; [lia|].
  rewrite fmap_cons, NoDup_cons in Hnd. destruct Hnd as [Hc Hnd].
  unfold pin_toggled at 1.
  destruct (Conv.has_id id c) eqn:Hid.
  - apply has_id_true in Hid. subst id.
    rewrite pin_toggled_absent by done. simpl.
    unfold Conv.pinned at 1. simpl.
    destruct (Conv.pinned c); simpl; lia.
  - specialize (IH Hnd).
    destruct (from_option Conv.pinned false
                (List.find (Conv.has_id id) cs));
      destruct (Conv.pinned c); simpl; lia.
Qed.

Lemma pin_toggled_ids id cs :
  Conv.id <$> List.map (pin_toggled id) cs = Conv.id <$> cs.
Proof.
  induction cs as [|c cs IH]; [done|]. cbn [List.map].
  rewrite !fmap_cons, IH. f_equal.
  unfold pin_toggled. by destruct (Conv.has_id id c).
Qed.

(** C6 (amended).  From a list with distinct ids and at most 5 pinned
    conversations, every state [togglePin] produces has at most 5 pinned
    conversations; a pin attempt on a conversation that is not pinned while
    5 (or more) are leaves the list and the storage as they were, shows the
    notice and schedules its removal after 3000 ms; and [togglePin] never
    changes the ids of the list nor their order, so that the ids stay
    distinct. *)
Theorem pin_cap_is_kept id st :
  (NoDup (Conv.id <$> conversations st) →
   pinned_count (conversations st) ≤ 5 →
   ∀ st', togglePin JSON_parse JSON_stringify id st = Done st' →
          pinned_count (conversations st') ≤ 5)
  ∧ (5 ≤ pinned_count (conversations st) →
     from_option Conv.pinned false
       (List.find (Conv.has_id id) (conversations st)) = false →
     ∃ st', togglePin JSON_parse JSON_stringify id st = Done st'
            ∧ conversations st' = conversations st
            ∧ localStorage st' = localStorage st
            ∧ showPinLimitToast st' = true
            ∧ timers st' = (3000%Z, HidePinLimitToast) :: timers st)
  ∧ (∀ st', togglePin JSON_parse JSON_stringify id st = Done st' →
            Conv.id <$> conversations st' = Conv.id <$> conversations st).
Proof.
  split; [|split].
  - intros Hnd Hcap st'. unfold togglePin.
    fold (pinned_count (conversations st)).
    pose proof (pinned_count_toggled id (conversations st) Hnd) as Hcount.
    destruct (negb _ && _) eqn:Hguard.
    + intros [= <-]. exact Hcap.
    + destruct (read_chat_metadata JSON_parse (localStorage st))
        as [metadata|]; simpl; [|discriminate].
      destruct (List.find _ (List.map _ _)) as [conv|]; [|discriminate].
      destruct (write_flags _ _ _ _ _) as [store|]; simpl; [|discriminate].
      intros [= <-]. simpl.
      apply andb_false_iff in Hguard as [Hpinned|Hroom].
      * apply negb_false_iff in Hpinned. rewrite Hpinned in Hcount. lia.
      * apply Nat.leb_gt in Hroom.
        destruct (from_option _ _ _) in Hcount; lia.
  - intros Hfull Hnot. unfold togglePin.
    fold (pinned_count (conversations st)). rewrite Hnot.
    replace (5 <=? pinned_count (conversations st)) with true
      by (symmetry; by apply Nat.leb_le).
    simpl. eexists. split; [reflexivity|]. by repeat split.
  - intros st'. unfold togglePin.
    destruct (negb _ && _); [by intros [= <-]|].
    destruct (read_chat_metadata JSON_parse (localStorage st))
      as [metadata|]; simpl; [|discriminate].
    destruct (List.find _ (List.map _ _)) as [conv|]; [|discriminate].
    destruct (write_flags _ _ _ _ _) as [store|]; simpl; [|discriminate].
    intros [= <-]. simpl. apply pin_toggled_ids.
Qed.

Lemma read_chat_metadata_corrupt raw store :
  store !! "chat_metadata" = Some raw → raw ≠ "" → JSON_parse raw = None →
  read_chat_metadata JSON_parse store = Throws SyntaxError.
Proof.
  intros Hraw Hne Hparse. unfold read_chat_metadata. rewrite Hraw.
  destruct (String.eqb_spec raw ""); [done|]. by rewrite Hparse.
Qed.

(** C8 (where the code departs from it).  With an unparsable
    [chat_metadata] in storage, [toggleArchive] throws the [SyntaxError]
    out of its state updater, and so does [togglePin] whenever it gets past
    the pin limit (fewer than 5 pinned, or the target is pinned). *)
Theorem corrupt_metadata_escapes_toggles raw id st :
  localStorage st !! "chat_metadata" = Some raw → raw ≠ "" →
  JSON_parse raw = None →
  toggleArchive JSON_parse JSON_stringify id st = Throws SyntaxError
  ∧ (pinned_count (conversations st) < 5
     ∨ from_option Conv.pinned false
         (List.find (Conv.has_id id) (conversations st)) = true →
     togglePin JSON_parse JSON_stringify id st = Throws SyntaxError).
Proof.
  intros Hraw Hne Hparse.
  pose proof (read_chat_metadata_corrupt raw _ Hraw Hne Hparse) as Hread.
  split.
  - unfold toggleArchive.
    destruct (is_current id st && _); simpl; by rewrite Hread.
  - intros Hpast. unfold togglePin.
    fold (pinned_count (conversations st)).
    replace (negb _ && (5 <=? pinned_count (conversations st)))
      with false; [by rewrite Hread|].
    symmetry. destruct Hpast as [Hroom| ->]; [|done].
    apply andb_false_iff. right. apply Nat.leb_gt. lia.
Qed.

(** The sibling reads of storage do catch: a corrupt profile is logged and
    replaced by the guest profile ... *)
Lemma corrupt_profile_falls_back defaultAvatar raw st :
  localStorage st !! "user_profile" = Some raw → raw ≠ "" →
  JSON_parse raw = None →
  initUserProfile JSON_parse JSON_stringify defaultAvatar st
  = (guestProfile defaultAvatar,
     console_error "Failed to parse user_profile" st).
Proof.
  intros Hraw Hne Hparse. unfold initUserProfile. rewrite Hraw.
  destruct (String.eqb_spec raw ""); [done|]. by rewrite Hparse.
Qed.

(** ... and on load a corrupt [chat_metadata] is logged; the fetched list
    is dropped with it and the view leaves its initialising state. *)
Lemma corrupt_metadata_on_load raw data fetched_messages now st :
  localStorage st !! "chat_metadata" = Some raw → raw ≠ "" →
  JSON_parse raw = None →
  initConversations JSON_parse (Some data) fetched_messages now st
  = setIsInitializing false
      (console_error "Failed to fetch conversations:" st).
Proof.
  intros Hraw Hne Hparse. unfold initConversations.
  by rewrite (read_chat_metadata_corrupt raw _ Hraw Hne Hparse).
Qed.

Lemma read_chat_metadata_ext (s1 s2 : gmap string string) :
  s1 !! "chat_metadata" = s2 !! "chat_metadata" →
  read_chat_metadata JSON_parse s1 = read_chat_metadata JSON_parse s2.
Proof. unfold read_chat_metadata. by intros ->. Qed.

(** [metadata[id]] on an object: the entry, or a member of
    [Object.prototype]. *)
Lemma truthy_at_object props id :
  Js.truthy_at (Js.lookup (Js.Obj props) id)
  = match props !! id with
    | Some x => Js.truthy x
    | None => bool_decide (id ∈ Js.Object_prototype)
    end.
Proof.
  unfold Js.lookup. destruct (props !! id) as [x|]; [done|].
  unfold Js.inherits, Js.inherited. by case_bool_decide.
Qed.

Lemma cleanup_metadata_object id st props :
  read_chat_metadata JSON_parse (localStorage st) = Done (Js.Obj props) →
  cleanup_metadata JSON_parse JSON_stringify id st
  = Done (if Js.truthy_at (Js.lookup (Js.Obj props) id)
          then setItem "chat_metadata"
                 (JSON_stringify (Js.Obj (delete id props))) st
          else st).
Proof.
  intros Hread. unfold cleanup_metadata. rewrite Hread.
  cbn [mbind outcome_bind]. unfold Js.lookup.
  destruct (props !! id) as [x|] eqn:Hid; simpl.
  - by destruct (Js.truthy x).
  - destruct (Js.inherits _ _); simpl; [|done].
    by rewrite (delete_id props id Hid).
Qed.

Lemma cleanup_expansion_lookup id st k :
  localStorage (cleanup_expansion id st) !! k
  = if startsWith k ("expand_" +:+ id) then None else localStorage st !! k.
Proof.
  unfold cleanup_expansion. simpl. rewrite map_lookup_filter.
  destruct (localStorage st !! k) as [v|] eqn:Hk; simpl.
  - destruct (startsWith k _) eqn:Hp.
    + rewrite option_guard_False; [done | congruence].
    + by rewrite option_guard_True.
  - by destruct (startsWith k _).
Qed.

Lemma not_an_expansion_key id :
  startsWith "chat_metadata" ("expand_" +:+ id) = false
  ∧ startsWith "lastConversationId" ("expand_" +:+ id) = false.
Proof. split; reflexivity. Qed.

(** [cleanup_metadata] writes nothing but the key [chat_metadata] of the
    storage. *)
Lemma cleanup_metadata_frame id st st' :
  cleanup_metadata JSON_parse JSON_stringify id st = Done st' →
  conversations st' = conversations st
  ∧ currentConversation st' = currentConversation st
  ∧ messages st' = messages st.
Proof.
  unfold cleanup_metadata.
  destruct (read_chat_metadata _ _) as [metadata|];
    cbn [mbind outcome_bind]; [|discriminate].
  destruct metadata as [| |b|r|s|xs|props]; try discriminate;
    destruct (Js.lookup _ id) as [x|x| |]; try destruct (Js.truthy x);
    try discriminate; by intros [= <-].
Qed.

Lemma cleanup_metadata_keys id st st' k :
  cleanup_metadata JSON_parse JSON_stringify id st = Done st' →
  k ≠ "chat_metadata" →
  localStorage st' !! k = localStorage st !! k.
Proof.
  unfold cleanup_metadata. intros Hdone Hk.
  destruct (read_chat_metadata _ _) as [metadata|];
    cbn [mbind outcome_bind] in Hdone; [|discriminate].
  destruct metadata as [| |b|r|s|xs|props]; try discriminate;
    destruct (Js.lookup _ id) as [x|x| |]; try destruct (Js.truthy x);
    try discriminate; injection Hdone as <-; simpl;
    by rewrite ?lookup_insert_ne.
Qed.

(** What [deleteConversation] leaves of the storage outside
    [chat_metadata] when the request resolves and the cleanup of the
    metadata does not throw. *)
Lemma deleteConversation_cleaned id st2 st3 k :
  cleanup_metadata JSON_parse JSON_stringify id st2 = Done st3 →
  k ≠ "chat_metadata" →
  localStorage (cleanup_expansion id st3) !! k
  = if startsWith k ("expand_" +:+ id) then None else localStorage st2 !! k.
Proof.
  intros Hclean Hk. rewrite cleanup_expansion_lookup.
  by rewrite (cleanup_metadata_keys id st2 st3 k Hclean Hk).
Qed.

(** C10 (amended).  When the [DELETE] request resolves, [deleteConversation]
    removes the conversation from the list and leaves the others in place,
    and clears the selection, the buffer and the remembered id exactly when
    the conversation was selected, whatever the stored metadata is.  When
    moreover the stored [chat_metadata] reads as an object (or is absent)
    and [metadata[id]] is truthy, the metadata is stored without an entry
    for the conversation and with every other entry as it was; it is truthy
    when the entry has a truthy value, and also when there is no entry but
    the id names a member of [Object.prototype], in which case there is
    nothing to delete and the same entries are stored again; when
    [metadata[id]] is falsy the stored metadata is not written; in both
    cases every storage key that starts with [expand_<id>] is removed and
    the other keys of the storage are left alone.  When the stored metadata
    cannot be read the failure is logged, and no key of the storage but the
    remembered id changes.  When the request is rejected the failure is
    logged and nothing else changes. *)
Theorem delete_after_resolved_request id st :
  (conversations (deleteConversation JSON_parse JSON_stringify true id st)
   = List.filter (fun c => negb (Conv.has_id id c)) (conversations st)
   ∧ (∀ c, c ∈ conversations
                 (deleteConversation JSON_parse JSON_stringify true id st)
           ↔ c ∈ conversations st ∧ Conv.id c ≠ id)
   ∧ (if is_current id st
      then currentConversation
             (deleteConversation JSON_parse JSON_stringify true id st) = None
           ∧ messages
               (deleteConversation JSON_parse JSON_stringify true id st) = []
      else currentConversation
             (deleteConversation JSON_parse JSON_stringify true id st)
           = currentConversation st
           ∧ messages
               (deleteConversation JSON_parse JSON_stringify true id st)
             = messages st)
   ∧ localStorage (deleteConversation JSON_parse JSON_stringify true id st)
       !! "lastConversationId"
     = (if is_current id st then None
        else localStorage st !! "lastConversationId"))
  ∧ (∀ props,
       read_chat_metadata JSON_parse (localStorage st) = Done (Js.Obj props) →
       Js.truthy_at (Js.lookup (Js.Obj props) id)
       = match props !! id with
         | Some x => Js.truthy x
         | None => bool_decide (id ∈ Js.Object_prototype)
         end
       ∧ (if Js.truthy_at (Js.lookup (Js.Obj props) id)
          then localStorage
                 (deleteConversation JSON_parse JSON_stringify true id st)
                 !! "chat_metadata"
               = Some (JSON_stringify (Js.Obj (delete id props)))
               ∧ delete id props !! id = None
               ∧ ∀ other, other ≠ id →
                          delete id props !! other = props !! other
          else localStorage
                 (deleteConversation JSON_parse JSON_stringify true id st)
                 !! "chat_metadata"
               = localStorage st !! "chat_metadata")
       ∧ (∀ k, startsWith k ("expand_" +:+ id) = true →
               localStorage
                 (deleteConversation JSON_parse JSON_stringify true id st)
                 !! k = None)
       ∧ (∀ k, startsWith k ("expand_" +:+ id) = false →
               k ≠ "chat_metadata" → k ≠ "lastConversationId" →
               localStorage
                 (deleteConversation JSON_parse JSON_stringify true id st)
                 !! k = localStorage st !! k))
  ∧ (∀ e,
       read_chat_metadata JSON_parse (localStorage st) = Throws e →
       console (deleteConversation JSON_parse JSON_stringify true id st)
       = "Failed to delete conversation:" :: console st
       ∧ ∀ k, k ≠ "lastConversationId" →
              localStorage
                (deleteConversation JSON_parse JSON_stringify true id st)
                !! k = localStorage st !! k)
  ∧ deleteConversation JSON_parse JSON_stringify false id st
    = console_error "Failed to delete conversation:" st.
Proof.
  destruct (not_an_expansion_key id) as [Hcm Hlast].
  unfold deleteConversation.
  set (remaining := List.filter _ (conversations st)).
  set (st2 := if is_current id st then _ else _).
  assert (Hconv2 : conversations st2 = remaining).
  { unfold st2. by destruct (is_current id st). }
  assert (Hmem : ∀ c, c ∈ remaining ↔ c ∈ conversations st ∧ Conv.id c ≠ id).
  { intros c. unfold remaining.
    rewrite !list_elem_of_In, filter_In, negb_true_iff, has_id_false.
    tauto. }
  assert (Hsel2 : if is_current id st
                  then currentConversation st2 = None ∧ messages st2 = []
                  else currentConversation st2 = currentConversation st
                       ∧ messages st2 = messages st).
  { unfold st2. by destruct (is_current id st). }
  assert (Hlast2 : localStorage st2 !! "lastConversationId"
                   = if is_current id st then None
                     else localStorage st !! "lastConversationId").
  { unfold st2. destruct (is_current id st); [|done].
    simpl. by rewrite lookup_delete_eq. }
  assert (Hkeys2 : ∀ k, k ≠ "lastConversationId" →
                        localStorage st2 !! k = localStorage st !! k).
  { intros k Hk. unfold st2. destruct (is_current id st); [|done].
    simpl. by rewrite lookup_delete_ne. }
  assert (Hread2 : read_chat_metadata JSON_parse (localStorage st2)
                   = read_chat_metadata JSON_parse (localStorage st)).
  { apply read_chat_metadata_ext. by apply Hkeys2. }
  split; [|split; [|split; [|done]]].
  - destruct (cleanup_metadata JSON_parse JSON_stringify id st2)
      as [st3|e] eqn:Hclean.
    + rewrite (deleteConversation_cleaned id st2 st3 _ Hclean) by done.
      rewrite Hlast.
      apply cleanup_metadata_frame in Hclean as (Hc & Hcur & Hmsg).
      simpl. rewrite Hc, Hcur, Hmsg, Hconv2.
      split; [done|]. split; [exact Hmem|]. split; [exact Hsel2|].
      exact Hlast2.
    + simpl. rewrite Hconv2.
      split; [done|]. split; [exact Hmem|]. split; [exact Hsel2|].
      exact Hlast2.
  - intros props Hread. rewrite <- Hread2 in Hread.
    rewrite (cleanup_metadata_object id st2 props Hread).
    split; [apply truthy_at_object|].
    split; [|split].
    + rewrite cleanup_expansion_lookup, Hcm.
      destruct (Js.truthy_at _); simpl.
      * rewrite lookup_insert_eq. split; [done|].
        split; [apply lookup_delete_eq|].
        intros other Hne. by apply lookup_delete_ne.
      * by apply Hkeys2.
    + intros k Hk. by rewrite cleanup_expansion_lookup, Hk.
    + intros k Hk Hk1 Hk2. rewrite cleanup_expansion_lookup, Hk.
      destruct (Js.truthy_at _); simpl;
        rewrite ?lookup_insert_ne by done; by apply Hkeys2.
  - intros e Hread. rewrite <- Hread2 in Hread.
    unfold cleanup_metadata. rewrite Hread. cbn [mbind outcome_bind].
    split; [unfold st2; by destruct (is_current id st)|].
    intros k Hk. simpl. by apply Hkeys2.
Qed.


(** A conversation that is not both pinned and archived is not both after
    either toggle: pinning clears the archive flag and archiving clears the
    pin. *)
Theorem toggles_keep_pin_and_archive_apart id c :
  Conv.pinned c && Conv.archived c = false →
  Conv.pinned (pin_toggled id c) && Conv.archived (pin_toggled id c) = false
  ∧ Conv.pinned (archive_toggled id c)
    && Conv.archived (archive_toggled id c) = false.
Proof.
  intros Hc. unfold pin_toggled, archive_toggled.
  destruct (Conv.has_id id c); [|by split].
  unfold Conv.pinned, Conv.archived in *. simpl.
  destruct (Js.truthy (Conv.isPinned c)) eqn:Hp,
           (Js.truthy (Conv.isArchived c)) eqn:Ha;
    simpl in *; rewrite ?Hp, ?Ha, ?andb_false_r; by split.
Qed.

End Store.

(** *** The conversation store: closed examples *)

(** C6 (amended) at five pinned conversations: pinning the sixth is refused
    without any change, unpinning the first is carried out within the
    limit. *)
Lemma sixth_pin_is_refused :
  (∃ st', togglePin Json.parse Json.stringify "c6" Sample.crowded = Done st'
          ∧ conversations st' = conversations Sample.crowded
          ∧ localStorage st' = localStorage Sample.crowded
          ∧ showPinLimitToast st' = true
          ∧ timers st' = [(3000%Z, HidePinLimitToast)])
  ∧ (∃ st', togglePin Json.parse Json.stringify "c1" Sample.crowded = Done st'
            ∧ pinned_count (conversations st') ≤ 5).
Proof.
  split.
  - apply (proj1 (proj2 (pin_cap_is_kept Json.parse Json.stringify "c6"
                           Sample.crowded))).
    + vm_compute. lia.
    + reflexivity.
  - eexists. split; [reflexivity|].
    apply (proj1 (pin_cap_is_kept Json.parse Json.stringify "c1"
                    Sample.crowded)).
    + apply (bool_decide_unpack
               (NoDup (Conv.id <$> conversations Sample.crowded))).
      vm_compute. exact I.
    + vm_compute. lia.
    + reflexivity.
Defined.

(** C6 as stated fails for some lists.  With two conversations of the same
    id, one click pins both: from 4 pinned the list goes to 6.  And from a
    list that holds 7 pinned conversations (loaded so from the stored
    metadata), unpinning one is carried out and leaves 6. *)
Lemma pin_cap_needs_its_conditions :
  (pinned_count
     [Sample.conv "c1" true; Sample.conv "c2" true; Sample.conv "c3" true;
      Sample.conv "c4" true; Sample.conv "x" false; Sample.conv "x" false]
   = 4
   ∧ ∃ st',
       togglePin Json.parse Json.stringify "x"
         (setConversations
            [Sample.conv "c1" true; Sample.conv "c2" true;
             Sample.conv "c3" true; Sample.conv "c4" true;
             Sample.conv "x" false; Sample.conv "x" false]
            (Sample.fresh ∅)) = Done st'
       ∧ pinned_count (conversations st') = 6)
  ∧ ∃ st',
      togglePin Json.parse Json.stringify "c1"
        (setConversations
           [Sample.conv "c1" true; Sample.conv "c2" true;
            Sample.conv "c3" true; Sample.conv "c4" true;
            Sample.conv "c5" true; Sample.conv "c6" true;
            Sample.conv "c7" true]
           (Sample.fresh ∅)) = Done st'
      ∧ pinned_count (conversations st') = 6.
Proof.
  split; [split; [reflexivity|]|];
    (eexists; split; [vm_compute; reflexivity | reflexivity]).
Qed.

(** C8: with [chat_metadata] truncated to an opening brace both toggles
    throw. *)
Lemma truncated_metadata_breaks_toggles :
  toggleArchive Json.parse Json.stringify "a"
    (Sample.browsing Sample.store_corrupt) = Throws SyntaxError
  ∧ togglePin Json.parse Json.stringify "a"
      (Sample.browsing Sample.store_corrupt) = Throws SyntaxError.
Proof.
  destruct (corrupt_metadata_escapes_toggles Json.parse Json.stringify
              "{" "a" (Sample.browsing Sample.store_corrupt))
    as [Harchive Hpin].
  - reflexivity.
  - discriminate.
  - reflexivity.
  - split; [exact Harchive|]. apply Hpin. left. vm_compute. lia.
Defined.

(** C10 (amended) at the deletion of the selected conversation [a], and at
    the deletion of a conversation whose id is [constructor] while nothing
    is stored: [metadata.constructor] is truthy, so the empty metadata is
    written. *)
Lemma delete_selected_conversation :
  Conv.id <$>
    conversations
      (deleteConversation Json.parse Json.stringify true "a"
         (Sample.browsing Sample.store_ab)) = ["b"]
  ∧ currentConversation
      (deleteConversation Json.parse Json.stringify true "a"
         (Sample.browsing Sample.store_ab)) = None
  ∧ messages
      (deleteConversation Json.parse Json.stringify true "a"
         (Sample.browsing Sample.store_ab)) = []
  ∧ localStorage
      (deleteConversation Json.parse Json.stringify true "a"
         (Sample.browsing Sample.store_ab)) !! "lastConversationId" = None
  ∧ localStorage
      (deleteConversation Json.parse Json.stringify true "a"
         (Sample.browsing Sample.store_ab)) !! "chat_metadata"
    = Some (Json.stringify (Js.Obj (delete "a" Sample.metadata_ab)))
  ∧ localStorage
      (deleteConversation Json.parse Json.stringify true "a"
         (Sample.browsing Sample.store_ab)) !! "expand_a_1" = None
  ∧ localStorage
      (deleteConversation Json.parse Json.stringify true "a"
         (Sample.browsing Sample.store_ab)) !! "expand_b_0" = Some "true"
  ∧ localStorage
      (deleteConversation Json.parse Json.stringify true "constructor"
         (Sample.browsing ∅)) !! "chat_metadata" = Some "{}".
Proof.
  destruct (delete_after_resolved_request Json.parse Json.stringify "a"
              (Sample.browsing Sample.store_ab))
    as ((Hlist & _ & Hsel & Hlast) & Hstore & _).
  destruct (Hstore Sample.metadata_ab) as (_ & Hmeta & Hexp & Hframe).
  { vm_compute. reflexivity. }
  destruct (delete_after_resolved_request Json.parse Json.stringify
              "constructor" (Sample.browsing ∅)) as (_ & Hstore' & _).
  destruct (Hstore' ∅) as (_ & Hmeta' & _).
  { vm_compute. reflexivity. }
  split; [by rewrite Hlist|].
  change (is_current "a" (Sample.browsing Sample.store_ab)) with true
    in Hsel, Hlast.
  destruct Hsel as (Hcur & Hmsg).
  split; [exact Hcur|]. split; [exact Hmsg|]. split; [exact Hlast|].
  change (Js.truthy_at (Js.lookup (Js.Obj Sample.metadata_ab) "a"))
    with true in Hmeta.
  split; [exact (proj1 Hmeta)|].
  split; [by apply Hexp|].
  split; [by rewrite Hframe|].
  change (Js.truthy_at (Js.lookup (Js.Obj ∅) "constructor"))
    with true in Hmeta'.
  exact (proj1 Hmeta').
Defined.

(** C10 as stated fails: when the [DELETE] request is rejected nothing is
    removed, and when the stored metadata is unparsable the expanded flags
    of the deleted conversation stay in storage. *)
Lemma failed_delete_keeps_the_conversation :
  Conv.id <$>
    conversations
      (deleteConversation Json.parse Json.stringify false "a"
         (Sample.browsing Sample.store_ab)) = ["a"; "b"]
  ∧ localStorage
      (deleteConversation Json.parse Json.stringify false "a"
         (Sample.browsing Sample.store_ab)) = Sample.store_ab
  ∧ Conv.id <$>
      conversations
        (deleteConversation Json.parse Json.stringify true "a"
           (Sample.browsing Sample.store_corrupt)) = ["b"]
  ∧ localStorage
      (deleteConversation Json.parse Json.stringify true "a"
         (Sample.browsing Sample.store_corrupt)) !! "expand_a_0"
    = Some "true".
Proof. repeat split; vm_compute; reflexivity. Qed.

(* ===================================================================== *)
(** ** One send *)
(* ===================================================================== *)

Section Send.

Variable JSON_parse : string -> option Js.value.

Lemma update_last_snoc f (pre : list Message) m :
  update_last f (pre ++ [m]) = pre ++ [f m].
Proof.
  unfold update_last. rewrite length_app. simpl.
  rewrite Nat.add_1_r.
  replace (length pre) with (length pre + 0) at 1 by lia.
  by rewrite alter_app_r.
Qed.




Lemma flush_assistantMessage len i d st :
  assistantMessage (flush len i d st).1 = assistantMessage d.
Proof. unfold flush. by destruct (_ || _). Qed.





Lemma adoptSession_messages sessionId userMessage nowISO st :
  messages (adoptSession sessionId userMessage nowISO st) = messages st.
Proof. unfold adoptSession. by destruct (List.find _ _). Qed.



Section LastMessage.

(** A property of the reply that a status and a flush keep. *)
Variable P : Message → Prop.
Hypothesis P_status : ∀ v m, P m → P (with_status v m).
Hypothesis P_content : ∀ s m, P m → P (with_content s m).







End LastMessage.






Lemma record_payload payload :
  startsWith ("data: " +:+ payload) "data: " = true
  ∧ drop_string 6 ("data: " +:+ payload) = payload.
Proof.
  split; [|reflexivity]. unfold startsWith. simpl. by destruct payload.
Qed.

Lemma processLine_record len i payload d st :
  payload ≠ "[DONE]" →
  processLine JSON_parse len i ("data: " +:+ payload) d st
  = match dispatch JSON_parse payload d st with
    | (Break, d1, st1) => (Break, d1, st1)
    | (Next, d1, st1) =>
        (Next, (flush len i d1 st1).1, (flush len i d1 st1).2)
    end.
Proof.
  intros Hne. unfold processLine.
  destruct (record_payload payload) as [-> ->].
  destruct (String.eqb_spec payload "[DONE]"); [done|].
  destruct (dispatch _ _ _ _) as [[[] d1] st1]; [|done].
  by destruct (flush len i d1 st1).
Qed.

(** Inside one chunk the sentinel does end the loop over the lines. *)
Lemma sentinel_ends_the_chunk len i rest d st :
  processLines JSON_parse len i ("data: [DONE]" :: rest) d st = (d, st).
Proof. reflexivity. Qed.

(** C7 (amended).  For a record [data: <payload>] other than the sentinel:
    a payload that is not JSON is appended to the accumulated text as it
    is; a payload that is a JSON string is appended decoded; any other
    JSON value that is not of a recognised shape is dropped, the
    accumulated text staying as it was.  In each case the loop goes on to
    the next line and the only other effect is the flush of the
    accumulated text; nothing is thrown. *)
Theorem unreadable_payload_is_raw_token len i payload d st :
  payload ≠ "[DONE]" →
  (JSON_parse payload = None →
   processLine JSON_parse len i ("data: " +:+ payload) d st
   = (Next, (flush len i (token payload d) st).1,
            (flush len i (token payload d) st).2)
   ∧ assistantMessage (flush len i (token payload d) st).1
     = assistantMessage d +:+ payload)
  ∧ (∀ s, JSON_parse payload = Some (Js.Str s) →
     processLine JSON_parse len i ("data: " +:+ payload) d st
     = (Next, (flush len i (token s d) st).1,
              (flush len i (token s d) st).2)
     ∧ assistantMessage (flush len i (token s d) st).1
       = assistantMessage d +:+ s)
  ∧ (∀ v, JSON_parse payload = Some v →
     recognized v = false → (∀ s, v ≠ Js.Str s) →
     processLine JSON_parse len i ("data: " +:+ payload) d st
     = (Next, (flush len i d st).1, (flush len i d st).2)
     ∧ assistantMessage (flush len i d st).1 = assistantMessage d).
Proof.
  intros Hne. rewrite (processLine_record len i payload d st Hne).
  unfold dispatch. split; [|split].
  - intros Hparse. rewrite Hparse.
    split; [done | apply flush_assistantMessage].
  - intros s Hparse. rewrite Hparse.
    split; [done | apply flush_assistantMessage].
  - intros v Hparse Hshape Hstr. rewrite Hparse.
    split; [|apply flush_assistantMessage].
    unfold recognized in Hshape.
    destruct v as [| |b|r|s|xs|props]; simpl in *; try done.
    + by destruct (Hstr s).
    + destruct (default Js.Undefined (props !! "type"))
        as [| |b|r|ty|xs|props']; try done.
      apply orb_false_elim in Hshape as [[-> ->]%orb_false_elim ->].
      done.
Qed.

Lemma dispatch_token payload s d st :
  JSON_parse payload = Some (Sample.token_object s) →
  dispatch JSON_parse payload d st = (Next, token s d, st).
Proof. intros H. unfold dispatch. by rewrite H. Qed.

Lemma dispatch_done payload d st :
  JSON_parse payload = Some (Sample.typed_object "done") →
  dispatch JSON_parse payload d st = (Break, d, st).
Proof. intros H. unfold dispatch. by rewrite H. Qed.

(** Reading [Sample.token_after sentinel] into an open reply, for a
    sentinel that ends the loop over the lines of its chunk: the token of
    the second chunk is decoded and flushed into the reply. *)
Lemma readLoop_token_after sentinel pre st :
  chunk_lines (Sample.record sentinel) = ["data: " +:+ sentinel] →
  (∀ d st', processLines JSON_parse 1 0 ["data: " +:+ sentinel] d st'
            = (d, st')) →
  JSON_parse (Sample.token_payload "X") = Some (Sample.token_object "X") →
  messages st = pre ++ [placeholder] →
  messages (readLoop JSON_parse (Sample.token_after sentinel) "" st).1
  = pre ++ [with_content "X" placeholder]
  ∧ (readLoop JSON_parse (Sample.token_after sentinel) "" st).2 = None.
Proof.
  intros Hlines Hsentinel Htoken Hm.
  unfold Sample.token_after. cbn [readLoop].
  rewrite Hlines. cbn [length]. rewrite Hsentinel.
  replace (chunk_lines (Sample.record (Sample.token_payload "X")))
    with ["data: " +:+ Sample.token_payload "X"] by (by vm_compute).
  cbn [length processLines assistantMessage].
  rewrite processLine_record by discriminate.
  rewrite (dispatch_token _ "X") by exact Htoken.
  unfold flush. cbn -[update_last].
  by rewrite Hm, update_last_snoc.
Qed.

(** C2 (where the code departs from it).  A token record that arrives in
    the chunk after the sentinel is decoded and shown: the sentinel ends
    the loop over the lines of its chunk, not the reading of the body. *)
Theorem records_after_sentinel_are_processed st :
  JSON_parse (Sample.token_payload "X") = Some (Sample.token_object "X") →
  JSON_parse (Sample.typed_payload "done")
  = Some (Sample.typed_object "done") →
  messages
    (sendMessage JSON_parse "hi" []
       (Response None (Some (Sample.token_after "[DONE]"))) "" st)
  = messages st
    ++ [userTurn "hi" [];
        mkMessage "assistant" "X" [] None (Some false) None (Some Js.Null)]
  ∧ messages
      (sendMessage JSON_parse "hi" []
         (Response None
            (Some (Sample.token_after (Sample.typed_payload "done"))))
         "" st)
    = messages st
      ++ [userTurn "hi" [];
          mkMessage "assistant" "X" [] None (Some false) None
            (Some Js.Null)].
Proof.
  intros Htoken Hdone.
  assert (Hsend : ∀ sentinel,
    chunk_lines (Sample.record sentinel) = ["data: " +:+ sentinel] →
    (∀ d st', processLines JSON_parse 1 0 ["data: " +:+ sentinel] d st'
              = (d, st')) →
    messages
      (sendMessage JSON_parse "hi" []
         (Response None (Some (Sample.token_after sentinel))) "" st)
    = messages st
      ++ [userTurn "hi" [];
          mkMessage "assistant" "X" [] None (Some false) None
            (Some Js.Null)]).
  { intros sentinel Hlines Hsentinel.
    unfold sendMessage, trySend. cbn [trim trimStart trimEnd List.map].
    set (st2 := setMessages _ _).
    destruct (readLoop_token_after sentinel
                (messages st ++ [userTurn "hi" []]) st2
                Hlines Hsentinel Htoken) as [Hmsgs Hok]; [done|].
    destruct (readLoop JSON_parse _ "" st2) as [st3 failure].
    simpl in Hmsgs, Hok. subst failure. simpl.
    by rewrite Hmsgs, update_last_snoc, <- app_assoc. }
  split; apply Hsend; try done.
  intros d st'. cbn [processLines].
  rewrite processLine_record by discriminate.
  by rewrite dispatch_done.
Qed.

End Send.

(** *** One send: closed examples *)


(** C2 with the reference reader: the token that follows either sentinel is
    the content of the finished reply. *)
Lemma token_after_sentinel_is_shown :
  messages
    (sendMessage Json.parse "hi" []
       (Response None (Some (Sample.token_after "[DONE]"))) ""
       (Sample.fresh ∅))
  = [userTurn "hi" [];
     mkMessage "assistant" "X" [] None (Some false) None (Some Js.Null)]
  ∧ messages
      (sendMessage Json.parse "hi" []
         (Response None
            (Some (Sample.token_after (Sample.typed_payload "done"))))
         "" (Sample.fresh ∅))
    = [userTurn "hi" [];
       mkMessage "assistant" "X" [] None (Some false) None (Some Js.Null)].
Proof.
  apply (records_after_sentinel_are_processed Json.parse (Sample.fresh ∅));
    vm_compute; reflexivity.
Defined.

(** C7 (amended) at three payloads: text that is not JSON, a JSON string and
    a JSON number. *)
Lemma payloads_outside_the_protocol :
  assistantMessage
    (processLine Json.parse 2 0 ("data: " +:+ "hello")
       (Decoder "so far: " 0) (Sample.fresh ∅)).1.2 = "so far: hello"
  ∧ assistantMessage
      (processLine Json.parse 2 0 ("data: " +:+ Json.quoted "hi")
         (Decoder "so far: " 0) (Sample.fresh ∅)).1.2 = "so far: hi"
  ∧ assistantMessage
      (processLine Json.parse 2 0 ("data: " +:+ "42")
         (Decoder "so far: " 0) (Sample.fresh ∅)).1.2 = "so far: ".
Proof.
  split; [|split].
  - destruct (unreadable_payload_is_raw_token Json.parse 2 0 "hello"
                (Decoder "so far: " 0) (Sample.fresh ∅)) as (Hraw & _ & _).
    + discriminate.
    + destruct (Hraw eq_refl) as [-> Hacc]. exact Hacc.
  - destruct (unreadable_payload_is_raw_token Json.parse 2 0
                (Json.quoted "hi") (Decoder "so far: " 0) (Sample.fresh ∅))
      as (_ & Hstr & _).
    + discriminate.
    + destruct (Hstr "hi" eq_refl) as [-> Hacc]. exact Hacc.
  - destruct (unreadable_payload_is_raw_token Json.parse 2 0 "42"
                (Decoder "so far: " 0) (Sample.fresh ∅)) as (_ & _ & Hother).
    + discriminate.
    + destruct (Hother (Js.Num "42") eq_refl eq_refl) as [-> Hacc].
      * discriminate.
      * exact Hacc.
Defined.

(** C7 as stated fails: a payload that is JSON but of no recognised shape
    is not appended to the accumulated text. *)
Lemma unknown_json_shape_is_dropped :
  Json.parse (Sample.typed_payload "ping") = Some (Sample.typed_object "ping")
  ∧ recognized (Sample.typed_object "ping") = false
  ∧ assistantMessage
      (processLine Json.parse 1 0 ("data: " +:+ Sample.typed_payload "ping")
         (Decoder "so far: " 0) (Sample.fresh ∅)).1.2 = "so far: "
  ∧ assistantMessage
      (processLine Json.parse 1 0 ("data: " +:+ "{}")
         (Decoder "so far: " 0) (Sample.fresh ∅)).1.2 = "so far: ".
Proof. repeat split; vm_compute; reflexivity. Qed.



(** *** Further closed examples *)


(** Pinning an archived conversation, archiving a pinned one. *)
Lemma pin_and_archive_exclude_each_other :
  (Conv.pinned
     (pin_toggled "a"
        (Conv.Make "a" None None None (Js.Bool false) (Js.Bool true)))
   && Conv.archived
        (pin_toggled "a"
           (Conv.Make "a" None None None (Js.Bool false) (Js.Bool true)))
   = false)
  ∧ (Conv.pinned (archive_toggled "b" (Sample.conv "b" true))
     && Conv.archived (archive_toggled "b" (Sample.conv "b" true)) = false).
Proof.
  split.
  - apply (toggles_keep_pin_and_archive_apart "a"
             (Conv.Make "a" None None None (Js.Bool false) (Js.Bool true))).
    reflexivity.
  - apply (toggles_keep_pin_and_archive_apart "b" (Sample.conv "b" true)).
    reflexivity.
Defined.

(* ===================================================================== *)
(** ** The reveal timer and the poll *)
(* ===================================================================== *)

Lemma substring_0_all (n : nat) (s : string) :
  String.length s ≤ n → substring 0 n s = s.
Proof.
  revert n; induction s as [|c s IH]; intros [|n] Hn; simpl in *;
    try reflexivity; try lia.
  rewrite IH; [reflexivity | lia].
Qed.

Lemma substring_0_length_min (n : nat) (s : string) :
  String.length (substring 0 n s) = n `min` String.length s.
Proof.
  destruct (decide (n ≤ String.length s)).
  - rewrite substring_0_length by done. lia.
  - rewrite substring_0_all by lia. lia.
Qed.

Lemma substring_0_empty (n : nat) (s : string) :
  substring 0 n s = "" → n = 0 ∨ s = "".
Proof. destruct n, s; simpl; try discriminate; auto. Qed.

Lemma setMessages_same st : setMessages (messages st) st = st.
Proof. by destruct st. Qed.

(** One firing of the timer on a buffer that ends in a message under
    reveal with [shown] characters visible. *)
Lemma revealStep_last pre m full shown :
  isSimulating m = Some true → shown ≤ String.length full →
  revealStep (length pre) (pre ++ [revealing m full shown])
  = Done (pre ++ [if String.length full <=? shown + batchSize
                  then revealed m full
                  else revealing m full (shown + batchSize)]).
Proof.
  intros Hsim Hshown. unfold revealStep.
  rewrite list_lookup_middle by done. simpl. rewrite Hsim.
  rewrite (substring_0_length shown full Hshown).
  rewrite substring_0_length_min.
  replace (length pre) with (length pre + 0) at 1 by lia.
  rewrite insert_app_r. simpl. f_equal. f_equal. f_equal.
  destruct (Nat.leb_spec (String.length full) (shown + batchSize))
    as [Hdone|Hmore].
  - replace (_ <=? _) with true by (symmetry; apply Nat.leb_le; lia).
    unfold revealed. by rewrite substring_0_all.
  - replace (_ <=? _) with false by (symmetry; apply Nat.leb_gt; lia).
    unfold revealing. by rewrite Hsim.
Qed.

Lemma simulationArmed_revealing pre m full shown st :
  isLoading st = false → messages st = pre ++ [revealing m full shown] →
  isSimulating m = Some true → full ≠ "" →
  simulationArmed st = Some (length pre).
Proof.
  intros Hload Hm Hsim Hfull. unfold simulationArmed.
  rewrite Hload, Hm, last_snoc. unfold reveal_pending. simpl.
  rewrite Hsim. destruct (String.eqb_spec full ""); [done|]. simpl.
  by rewrite length_app, Nat.add_1_r.
Qed.

Lemma simulation_revealed n pre m full st :
  simulation n (setMessages (pre ++ [revealed m full]) st)
  = Done (setMessages (pre ++ [revealed m full]) st).
Proof.
  induction n as [|n IH]; [done|]. simpl.
  unfold simulationTick, simulationArmed. simpl. rewrite last_snoc. simpl.
  destruct (isLoading st); exact IH.
Qed.

(** From a buffer whose last message is under reveal with [shown]
    characters of [full] visible, and with no send in flight, [n] firings of
    the timer leave [shown + 24 n] characters visible while that is short of
    the full length, and after that the full content. *)
Lemma simulation_revealing n : ∀ pre m full shown st,
  isLoading st = false →
  messages st = pre ++ [revealing m full shown] →
  isSimulating m = Some true →
  shown < String.length full →
  simulation n st
  = Done (setMessages
            (pre ++ [if shown + batchSize * n <? String.length full
                     then revealing m full (shown + batchSize * n)
                     else revealed m full]) st).
Proof.
  induction n as [|n IH]; intros pre m full shown st Hload Hm Hsim Hshown.
  - cbn [simulation]. rewrite Nat.mul_0_r, Nat.add_0_r.
    replace (shown <? String.length full) with true
      by (symmetry; by apply Nat.ltb_lt).
    by rewrite <- Hm, setMessages_same.
  - assert (Hfull : full ≠ "") by (intros ->; simpl in Hshown; lia).
    cbn [simulation]. unfold simulationTick.
    rewrite (simulationArmed_revealing pre m full shown st) by done.
    rewrite Hm, revealStep_last by (done || lia).
    cbn [mbind outcome_bind].
    destruct (Nat.leb_spec (String.length full) (shown + batchSize))
      as [Hdone|Hmore].
    + rewrite simulation_revealed.
      replace (_ <? _) with false
        by (symmetry; apply Nat.ltb_ge; unfold batchSize in *; lia).
      done.
    + rewrite (IH pre m full (shown + batchSize)) by done.
      replace (shown + batchSize + batchSize * n)
        with (shown + batchSize * S n) by (unfold batchSize; lia).
      done.
Qed.

Lemma last_insert_last (l : list Message) x :
  l ≠ [] → last (<[pred (length l) := x]> l) = Some x.
Proof.
  intros Hl. rewrite last_lookup, length_insert.
  apply list_lookup_insert_eq. destruct l; [done | simpl; lia].
Qed.

(** A timer that fires late is harmless.  Whatever buffer the updater
    finds, it changes no message but the one at the index it was armed
    with and never the length of the buffer; it changes nothing at all when
    that index is past the end or the message there is not simulating; and
    when it does write, the new content is a prefix of the hidden full text
    at least as long as the old content was (a prefix of it too). *)
Theorem late_reveal_timer_is_harmless lastIdx prev next :
  revealStep lastIdx prev = Done next →
  length next = length prev
  ∧ (∀ j, j ≠ lastIdx → next !! j = prev !! j)
  ∧ ((∀ m, prev !! lastIdx = Some m → isSimulating m ≠ Some true) →
     next = prev)
  ∧ (∀ m full, prev !! lastIdx = Some m → isSimulating m = Some true →
       _fullContent m = Some full →
       String.prefix (content m) full = true →
       ∃ m', next !! lastIdx = Some m'
             ∧ role m' = role m
             ∧ String.prefix (content m') full = true
             ∧ String.length (content m) ≤ String.length (content m')).
Proof.
  unfold revealStep. intros Hstep.
  destruct (prev !! lastIdx) as [msg|] eqn:Hmsg.
  - destruct (isSimulating msg) as [[|]|] eqn:Hsim;
      try (injection Hstep as <-; repeat split; try done;
           intros m full [= <-]; congruence).
    destruct (_fullContent msg) as [fullContent|] eqn:Hfull; [|done].
    injection Hstep as <-.
    split; [apply length_insert|].
    split; [intros j Hj; by apply list_lookup_insert_ne|].
    split; [intros Hnot; by destruct (Hnot msg eq_refl)|].
    intros m full [= <-] _ Hf Hpre. rewrite Hfull in Hf.
    injection Hf as ->.
    apply lookup_lt_Some in Hmsg as Hlt.
    eexists. split; [by apply list_lookup_insert_eq|].
    apply prefix_length_le in Hpre as Hle.
    destruct (_ <=? _); simpl;
      (split; [done|]; split; [apply substring_0_prefix|]);
      rewrite substring_0_length_min; unfold batchSize; lia.
  - injection Hstep as <-. repeat split; try done.
Qed.

Section AfterLoad.

Variable JSON_parse : string -> option Js.value.

(** The reveal after a reload runs to the full content.  When the last
    loaded message is an assistant message with content of which fewer
    characters are visible than it has, [n] firings of the timer after the
    load show [24 n] characters more, and from the firing on at which that
    reaches the full length the message carries the whole content, is
    neither streaming nor simulating and holds no hidden text; the
    messages before it and the rest of the state stay as loaded. *)
Theorem reveal_after_load_completes now data m created n st :
  isLoading st = false →
  last data = Some m → Wire.role m = "assistant" → fullContent m ≠ "" →
  Wire.created_at m = Some created →
  (expectedVisibleLength (now - created)
   < Z.of_nat (String.length (fullContent m)))%Z →
  ∃ pre p,
    parseMessagesData JSON_parse now data = pre ++ [p]
    ∧ simulation n (loadMessagesSync JSON_parse (Some data) now st)
      = Done (setMessages
                (pre ++
                 [if Z.to_nat (Z.max 0 (expectedVisibleLength (now - created)))
                     + batchSize * n <? String.length (fullContent m)
                  then mkMessage (Wire.role m)
                         (substring 0
                            (Z.to_nat
                               (Z.max 0
                                  (expectedVisibleLength (now - created)))
                             + batchSize * n) (fullContent m))
                         (parse_images JSON_parse (Wire.image_data m))
                         (Some (fullContent m)) (Some true) (Some true) None
                  else mkMessage (Wire.role m) (fullContent m)
                         (parse_images JSON_parse (Wire.image_data m))
                         None (Some false) (Some false) None]) st).
Proof.
  intros Hload Hlast Hrole Hfull Hcreated Hvis.
  destruct (parse_trailing_assistant JSON_parse now data m Hlast Hrole Hfull)
    as (Hp & Hsim & _).
  apply last_Some in Hp as [pre Hpre].
  exists pre, (parseMessage JSON_parse now (length data)
                 (pred (length data)) m).
  split; [exact Hpre|].
  set (shown := Z.to_nat (Z.max 0 (expectedVisibleLength (now - created)))).
  assert (Hshape :
    parseMessage JSON_parse now (length data) (pred (length data)) m
    = revealing
        (mkMessage (Wire.role m) "" (parse_images JSON_parse (Wire.image_data m))
           None (Some true) (Some true) None) (fullContent m) shown).
  { unfold parseMessage, elapsed. rewrite Hsim, Hcreated. simpl.
    by replace (_ <? _)%Z with true by (symmetry; apply Z.ltb_lt; lia). }
  rewrite Hshape in Hpre.
  unfold loadMessagesSync.
  assert (Hlen : 0 < String.length (fullContent m)).
  { destruct (fullContent m); [done | simpl; lia]. }
  rewrite (simulation_revealing n pre _ (fullContent m) shown
             (setMessages _ st) Hload Hpre eq_refl)
    by (unfold shown; lia).
  unfold revealing, revealed, setMessages. simpl.
  by destruct (_ <? _).
Qed.

(** When the poll is set after a load.  With a conversation selected and no
    send in flight, the 3 s poll is armed by a loaded buffer exactly when
    the last message received is an assistant message that has no content
    or that was created less than 4 ms before [now]: such a message is
    loaded with no character visible yet. *)
Theorem poll_armed_after_load now data st :
  pollArmed (loadMessagesSync JSON_parse (Some data) now st)
  = is_selected (currentConversation st)
    && negb (isLoading st)
    && from_option
         (fun m =>
            String.eqb (Wire.role m) "assistant"
            && (String.eqb (fullContent m) ""
                || from_option (fun created => (now - created <? 4)%Z) false
                     (Wire.created_at m)))
         false (last data).
Proof.
  unfold pollArmed, loadMessagesSync. simpl. f_equal.
  rewrite parseMessagesData_last.
  destruct (last data) as [m|] eqn:Hlast; [|done]. simpl.
  unfold isPending, parseMessage.
  destruct (shouldSimulate (length data) (pred (length data)) m) eqn:Hsim.
  - apply shouldSimulate_inv in Hsim as (_ & Hrole & Hfull).
    rewrite Hrole.
    replace (String.eqb (fullContent m) "") with false
      by (symmetry; by apply String.eqb_neq).
    unfold elapsed. destruct (Wire.created_at m) as [created|]; simpl;
      [|rewrite ?Hrole; simpl; by apply String.eqb_neq].
    assert (Hlen : 0 < String.length (fullContent m)).
    { destruct (fullContent m); [done | simpl; lia]. }
    unfold expectedVisibleLength.
    destruct (Z.ltb_spec (now - created) 4) as [Hsoon|Hlate].
    + replace (_ <? _)%Z with true
        by (symmetry; apply Z.ltb_lt;
            assert ((now - created) / 4 < 1)%Z
              by (apply Z.div_lt_upper_bound; lia); lia).
      simpl.
      replace (Z.to_nat _) with 0
        by (assert ((now - created) / 4 < 1)%Z
              by (apply Z.div_lt_upper_bound; lia); lia).
      by destruct (fullContent m).
    + assert (Hpos : (1 <= (now - created) / 4)%Z)
        by (apply Z.div_le_lower_bound; lia).
      destruct (_ <? _)%Z eqn:Hcmp; simpl; rewrite ?Hrole; simpl.
      * apply String.eqb_neq. intros Hempty.
        apply substring_0_empty in Hempty as [Hz|Hz]; [lia | done].
      * by apply String.eqb_neq.
  - simpl. unfold shouldSimulate in Hsim.
    destruct (String.eqb (Wire.role m) "assistant") eqn:Hrole; [|done].
    simpl. destruct (String.eqb_spec (fullContent m) "") as [Hempty|Hne];
      [done|].
    simpl. rewrite andb_true_r in Hsim.
    apply andb_false_iff in Hsim as [Hidx|Hlen].
    + apply Z.eqb_neq in Hidx. apply last_Some in Hlast as [pre ->].
      rewrite length_app in Hidx. simpl in Hidx. lia.
    + apply Nat.ltb_ge in Hlen.
      destruct (fullContent m); [done | simpl in Hlen; lia].
Qed.

End AfterLoad.

(** A reveal takes the poll down with its first step.  When the reveal timer
    is armed, its first firing leaves a last message with content, so the
    poll is not armed in the state it produces. *)
Theorem first_reveal_step_disarms_poll st st' lastIdx :
  simulationArmed st = Some lastIdx →
  simulationTick st = Done st' →
  pollArmed st' = false.
Proof.
  unfold simulationTick. intros Harmed. rewrite Harmed.
  unfold simulationArmed in Harmed.
  destruct (isLoading st); [done|].
  destruct (last (messages st)) as [m|] eqn:Hlast; [|done].
  destruct (reveal_pending m) eqn:Hpending; [|done].
  injection Harmed as <-. unfold revealStep.
  rewrite <- last_lookup, Hlast.
  unfold reveal_pending in Hpending.
  destruct (isSimulating m) as [[|]|]; try done.
  destruct (_fullContent m) as [full|]; [|done].
  apply negb_true_iff, String.eqb_neq in Hpending.
  simpl. intros [= <-]. unfold pollArmed. simpl.
  rewrite last_insert_last by (intros E; by rewrite E in Hlast).
  simpl. unfold isPending.
  apply andb_false_iff. right. apply andb_false_iff. right.
  destruct (_ <=? _); simpl; apply String.eqb_neq; intros Hempty;
    apply substring_0_empty in Hempty as [Hz|Hz];
    (done || (unfold batchSize in Hz; lia)).
Qed.

(* ===================================================================== *)
(** ** The lists of the sidebar *)
(* ===================================================================== *)

(** Every conversation is listed once.  The pinned and the active list of
    the sidebar and the archived list of the settings together hold every
    conversation exactly once, whatever its flags; and the pinned list is
    no longer than the number of pinned conversations the pin limit
    counts. *)
Theorem every_conversation_is_listed_once conversations :
  pinnedChats conversations ++ activeChats conversations
    ++ archivedSessions conversations ≡ₚ conversations
  ∧ length (pinnedChats conversations) ≤ pinned_count conversations.
Proof.
  unfold pinnedChats, activeChats, archivedSessions, pinned_count.
  induction conversations as [|c cs [IHp IHl]]; [done|].
  assert (Hmid : ∀ (c : Conv.t) P A R,
            P ++ A ++ c :: R ≡ₚ c :: P ++ A ++ R).
  { intros x P A R. by rewrite (app_assoc P A), <- Permutation_middle,
      <- app_assoc. }
  simpl. destruct (Conv.pinned c), (Conv.archived c); simpl; split;
    try lia.
  - by rewrite Hmid, IHp.
  - by rewrite IHp.
  - by rewrite Hmid, IHp.
  - by rewrite <- Permutation_middle, IHp.
Qed.

Section Order.

Variable Date_getTime : string -> option Z.

Lemma notAfter_spec a b da db :
  createdTime Date_getTime a = Some da →
  createdTime Date_getTime b = Some db →
  notAfter Date_getTime a b
  = (Conv.pinned a && negb (Conv.pinned b))
    || (Bool.eqb (Conv.pinned a) (Conv.pinned b) && (db <=? da)%Z).
Proof.
  intros Ha Hb. unfold notAfter, compareConversations. rewrite Ha, Hb.
  destruct (Conv.pinned a), (Conv.pinned b); simpl; try done.
  all: destruct (Z.leb_spec db da), (Z.leb_spec (db - da) 0); lia.
Qed.

Lemma notAfter_total a b :
  is_Some (createdTime Date_getTime a) →
  is_Some (createdTime Date_getTime b) →
  notAfter Date_getTime a b = false → notAfter Date_getTime b a = true.
Proof.
  intros [da Ha] [db Hb].
  rewrite (notAfter_spec a b da db), (notAfter_spec b a db da) by done.
  destruct (Conv.pinned a), (Conv.pinned b); simpl; try done.
  all: destruct (Z.leb_spec db da), (Z.leb_spec da db); (done || lia).
Qed.

Lemma notAfter_trans a b c :
  is_Some (createdTime Date_getTime a) →
  is_Some (createdTime Date_getTime b) →
  is_Some (createdTime Date_getTime c) →
  notAfter Date_getTime a b = true → notAfter Date_getTime b c = true →
  notAfter Date_getTime a c = true.
Proof.
  intros [da Ha] [db Hb] [dc Hc].
  rewrite (notAfter_spec a b da db), (notAfter_spec b c db dc),
    (notAfter_spec a c da dc) by done.
  destruct (Conv.pinned a), (Conv.pinned b), (Conv.pinned c); simpl;
    try done.
  all: destruct (Z.leb_spec db da), (Z.leb_spec dc db), (Z.leb_spec dc da);
    (done || lia).
Qed.

Lemma insertSorted_perm a sorted :
  insertSorted Date_getTime a sorted ≡ₚ a :: sorted.
Proof.
  induction sorted as [|b rest IH]; [done|]. simpl.
  destruct (notAfter _ a b); [done|]. by rewrite IH, Permutation_swap.
Qed.

Lemma sortedConversations_perm conversations :
  sortedConversations Date_getTime conversations ≡ₚ conversations.
Proof.
  induction conversations as [|c cs IH]; [done|].
  unfold sortedConversations in *. simpl. by rewrite insertSorted_perm, IH.
Qed.

Lemma insertSorted_sorted a sorted :
  is_Some (createdTime Date_getTime a) →
  Forall (fun c => is_Some (createdTime Date_getTime c)) sorted →
  StronglySorted (fun x y => notAfter Date_getTime x y = true) sorted →
  StronglySorted (fun x y => notAfter Date_getTime x y = true)
    (insertSorted Date_getTime a sorted).
Proof.
  intros Ha Hdates Hsorted.
  induction Hsorted as [|b rest Hrest IH Hb]; simpl.
  - repeat constructor.
  - apply Forall_cons in Hdates as [Hdb Hdrest].
    destruct (notAfter _ a b) eqn:Hab.
    + constructor; [by constructor|].
      constructor; [done|].
      rewrite Forall_forall in Hb, Hdrest |- *. intros x Hx.
      apply (notAfter_trans a b x); auto.
    + constructor; [by apply IH|].
      rewrite (insertSorted_perm a rest).
      constructor; [by apply notAfter_total|done].
Qed.

Lemma sortedConversations_sorted conversations :
  datesReadable Date_getTime conversations →
  StronglySorted (fun x y => notAfter Date_getTime x y = true)
    (sortedConversations Date_getTime conversations).
Proof.
  unfold datesReadable, sortedConversations.
  induction conversations as [|c cs IH]; intros Hdates; simpl.
  - constructor.
  - apply insertSorted_sorted.
    + apply Hdates. by left.
    + rewrite Forall_forall. intros x Hx. apply Hdates. right.
      by rewrite <- (sortedConversations_perm cs).
    + apply IH. intros x Hx. apply Hdates. by right.
Qed.

Lemma StronglySorted_lookup {A} (R : A → A → Prop) l i j a b :
  StronglySorted R l → i < j → l !! i = Some a → l !! j = Some b → R a b.
Proof.
  intros Hsorted. revert i j.
  induction Hsorted as [|x l Hl IH Hx]; intros i j Hij Hi Hj; [done|].
  destruct j as [|j]; [lia|]. simpl in Hj.
  destruct i as [|i]; simpl in Hi.
  - injection Hi as ->. rewrite Forall_forall in Hx. apply Hx.
    by eapply list_elem_of_lookup_2.
  - apply (IH i j); (done || lia).
Qed.

(** The order of the sidebar.  When every creation date that is read is a
    date, the list handed to the sidebar holds the same conversations, each
    as often as before; no unpinned conversation stands before a pinned one;
    and of two conversations that are both pinned or both unpinned the one
    that stands first was not created earlier (a conversation without a
    creation date counts as created at time 0). *)
Theorem sidebar_pinned_first_newest_first conversations :
  datesReadable Date_getTime conversations →
  sortedConversations Date_getTime conversations ≡ₚ conversations
  ∧ ∀ i j a b,
      i < j →
      sortedConversations Date_getTime conversations !! i = Some a →
      sortedConversations Date_getTime conversations !! j = Some b →
      (Conv.pinned b = true → Conv.pinned a = true)
      ∧ (Conv.pinned a = Conv.pinned b →
         ∃ da db, createdTime Date_getTime a = Some da
                  ∧ createdTime Date_getTime b = Some db
                  ∧ (db ≤ da)%Z).
Proof.
  intros Hdates. split; [apply sortedConversations_perm|].
  intros i j a b Hij Hi Hj.
  pose proof (StronglySorted_lookup _ _ i j a b
                (sortedConversations_sorted _ Hdates) Hij Hi Hj) as Hab.
  assert (Ha : a ∈ conversations).
  { rewrite <- (sortedConversations_perm conversations).
    by eapply list_elem_of_lookup_2. }
  assert (Hb : b ∈ conversations).
  { rewrite <- (sortedConversations_perm conversations).
    by eapply list_elem_of_lookup_2. }
  destruct (Hdates a Ha) as [da Hda], (Hdates b Hb) as [db Hdb].
  cbv beta in Hab. rewrite (notAfter_spec a b da db) in Hab by done.
  split.
  - intros Hpb. rewrite Hpb in Hab. destruct (Conv.pinned a); [done|].
    simpl in Hab. done.
  - intros Hsame. exists da, db. repeat split; try done.
    rewrite Hsame in Hab. destruct (Conv.pinned b); simpl in Hab;
      by apply Z.leb_le.
Qed.

Lemma notAfter_retitled id newTitle a b :
  notAfter Date_getTime (retitled id newTitle a) (retitled id newTitle b)
  = notAfter Date_getTime a b.
Proof.
  unfold notAfter, compareConversations, createdTime, retitled.
  by destruct (Conv.has_id id a), (Conv.has_id id b).
Qed.

Lemma insertSorted_retitled id newTitle a sorted :
  insertSorted Date_getTime (retitled id newTitle a)
    (List.map (retitled id newTitle) sorted)
  = List.map (retitled id newTitle) (insertSorted Date_getTime a sorted).
Proof.
  induction sorted as [|b rest IH]; [done|]. simpl.
  rewrite notAfter_retitled. destruct (notAfter _ a b); [done|].
  simpl. by rewrite IH.
Qed.

(** Renaming changes the title and nothing else.  [renameConversation]
    keeps the length and the order of the list and every conversation's id,
    dates and flags, sets the title of the conversations with the given id
    and of no other, and leaves the selection, the buffer and the storage
    alone; a failed request logs and takes nothing back; and the renamed
    conversation stays where it was in the sidebar, whose order does not
    read the title. *)
Theorem rename_changes_only_the_title patched id newTitle st :
  (∀ i, conversations (renameConversation patched id newTitle st) !! i
        = retitled id newTitle <$> conversations st !! i)
  ∧ (∀ c, Conv.id (retitled id newTitle c) = Conv.id c
          ∧ Conv.created_at (retitled id newTitle c) = Conv.created_at c
          ∧ Conv.updated_at (retitled id newTitle c) = Conv.updated_at c
          ∧ Conv.isPinned (retitled id newTitle c) = Conv.isPinned c
          ∧ Conv.isArchived (retitled id newTitle c) = Conv.isArchived c
          ∧ Conv.title (retitled id newTitle c)
            = if String.eqb (Conv.id c) id then Some newTitle
              else Conv.title c)
  ∧ currentConversation (renameConversation patched id newTitle st)
    = currentConversation st
  ∧ messages (renameConversation patched id newTitle st) = messages st
  ∧ localStorage (renameConversation patched id newTitle st)
    = localStorage st
  ∧ conversations (renameConversation false id newTitle st)
    = conversations (renameConversation true id newTitle st)
  ∧ sortedConversations Date_getTime
      (conversations (renameConversation patched id newTitle st))
    = List.map (retitled id newTitle)
        (sortedConversations Date_getTime (conversations st)).
Proof.
  assert (Hconv : ∀ p, conversations (renameConversation p id newTitle st)
                       = List.map (retitled id newTitle) (conversations st)).
  { intros []; reflexivity. }
  split; [intros i; by rewrite Hconv, list_lookup_fmap|].
  split.
  { intros c. unfold retitled, Conv.has_id.
    by destruct (String.eqb (Conv.id c) id). }
  split; [by destruct patched|].
  split; [by destruct patched|].
  split; [by destruct patched|].
  split; [by rewrite !Hconv|].
  rewrite Hconv. clear Hconv. unfold sortedConversations.
  induction (conversations st) as [|c cs IH]; [done|].
  cbn [List.map foldr]. by rewrite IH, insertSorted_retitled.
Qed.

End Order.

(* ===================================================================== *)
(** ** The image viewer *)
(* ===================================================================== *)

Lemma next_index len i :
  (0 ≤ i < Z.of_nat len)%Z →
  ImageViewer.js_rem (i + 1) (Z.of_nat len)
  = Some (if (i + 1 =? Z.of_nat len)%Z then 0 else i + 1)%Z.
Proof.
  intros Hi. unfold ImageViewer.js_rem.
  destruct (Z.eqb_spec (Z.of_nat len) 0); [lia|]. f_equal.
  destruct (Z.eqb_spec (i + 1) (Z.of_nat len)) as [->|Hne].
  - apply Z.rem_same; lia.
  - apply Z.rem_small; lia.
Qed.

Lemma prev_index len i :
  (0 ≤ i < Z.of_nat len)%Z →
  ImageViewer.js_rem (i - 1 + Z.of_nat len) (Z.of_nat len)
  = Some (if (i =? 0)%Z then Z.of_nat len - 1 else i - 1)%Z.
Proof.
  intros Hi. unfold ImageViewer.js_rem.
  destruct (Z.eqb_spec (Z.of_nat len) 0); [lia|]. f_equal.
  destruct (Z.eqb_spec i 0) as [->|Hne].
  - replace (0 - 1 + Z.of_nat len)%Z with (Z.of_nat len - 1)%Z by lia.
    apply Z.rem_small; lia.
  - rewrite Z.rem_mod_nonneg by lia.
    replace (i - 1 + Z.of_nat len)%Z
      with (i - 1 + 1 * Z.of_nat len)%Z by lia.
    rewrite Z_mod_plus_full. apply Z.mod_small; lia.
Qed.

Lemma press_in_range len c v :
  ImageViewer.in_range len v →
  ImageViewer.in_range len (ImageViewer.press len v c).
Proof.
  intros [(i & Hidx & Hi) Hzoom]. unfold ImageViewer.in_range.
  destruct c; simpl; rewrite ?Hidx; simpl.
  - rewrite next_index by done. split; [|lia]. eexists. split; [done|].
    destruct (Z.eqb_spec (i + 1) (Z.of_nat len)); lia.
  - rewrite prev_index by done. split; [|lia]. eexists. split; [done|].
    destruct (Z.eqb_spec i 0); lia.
  - split; [by exists i | lia].
  - split; [by exists i | lia].
  - split; [by exists i | lia].
Qed.

(** The viewer stays on an image and within its zoom limits.  From an index
    of one of the [len] images and a zoom between 0.5 and 3 (as the viewer
    starts: zoom 1), every run of the controls leaves an index of one of
    the images and a zoom between 0.5 and 3; next and previous undo each
    other on the index, next wraps from the last image to the first and
    previous from the first to the last, and both put the zoom back to
    1. *)
Theorem viewer_stays_in_range len i z cs :
  (0 ≤ i < Z.of_nat len)%Z → (2 ≤ z ≤ 12)%Z →
  ImageViewer.in_range len
    (ImageViewer.presses len cs (ImageViewer.mkViewer (Some i) z 0))
  ∧ ImageViewer.handleNext len (ImageViewer.mkViewer (Some i) z 0)
    = ImageViewer.mkViewer
        (Some (if (i + 1 =? Z.of_nat len)%Z then 0 else i + 1)%Z) 4 0
  ∧ ImageViewer.handlePrev len (ImageViewer.mkViewer (Some i) z 0)
    = ImageViewer.mkViewer
        (Some (if (i =? 0)%Z then Z.of_nat len - 1 else i - 1)%Z) 4 0
  ∧ ImageViewer.currentIndex
      (ImageViewer.handlePrev len
         (ImageViewer.handleNext len (ImageViewer.mkViewer (Some i) z 0)))
    = Some i
  ∧ ImageViewer.currentIndex
      (ImageViewer.handleNext len
         (ImageViewer.handlePrev len (ImageViewer.mkViewer (Some i) z 0)))
    = Some i.
Proof.
  intros Hi Hz. split.
  { assert (Hstart : ImageViewer.in_range len
                       (ImageViewer.mkViewer (Some i) z 0)).
    { split; [by exists i | done]. }
    revert Hstart. generalize (ImageViewer.mkViewer (Some i) z 0).
    unfold ImageViewer.presses.
    induction cs as [|c cs IH]; intros v Hv; [done|]. simpl.
    apply IH. by apply press_in_range. }
  unfold ImageViewer.handleNext, ImageViewer.handlePrev. simpl.
  rewrite !next_index, !prev_index by done. simpl.
  split; [done|]. split; [done|]. split.
  - destruct (Z.eqb_spec (i + 1) (Z.of_nat len)) as [Hlast|Hne].
    + rewrite prev_index by lia. simpl. f_equal. lia.
    + rewrite prev_index by lia.
      destruct (Z.eqb_spec (i + 1) 0); [lia|]. f_equal. lia.
  - destruct (Z.eqb_spec i 0) as [->|Hne].
    + rewrite next_index by lia.
      destruct (Z.eqb_spec (Z.of_nat len - 1 + 1) (Z.of_nat len));
        [done|lia].
    + rewrite next_index by lia.
      destruct (Z.eqb_spec (i - 1 + 1) (Z.of_nat len)); [lia|].
      f_equal. lia.
Qed.

(* ===================================================================== *)
(** ** A reply as the server sends it *)
(* ===================================================================== *)

Lemma append_cons (x : ascii) (a b : string) :
  String x a +:+ b = String x (a +:+ b).
Proof. reflexivity. Qed.

Lemma append_assoc (a b c : string) : (a +:+ b) +:+ c = a +:+ (b +:+ c).
Proof.
  induction a as [|x a IH]; [done|]. by rewrite !append_cons, IH.
Qed.

Lemma append_empty_r (a : string) : a +:+ "" = a.
Proof.
  induction a as [|x a IH]; [done|]. by rewrite append_cons, IH.
Qed.

Lemma text_of_app events more :
  text_of (events ++ more) = text_of events +:+ text_of more.
Proof.
  induction events as [|[t|s|] events IH]; simpl; try done.
  by rewrite IH, append_assoc.
Qed.

Lemma setMessages_twice a b st :
  setMessages a (setMessages b st) = setMessages a st.
Proof. reflexivity. Qed.

Lemma message_eta (m : Message) :
  mkMessage (role m) (content m) (images m) (_fullContent m) (isStreaming m)
    (isSimulating m) (status m) = m.
Proof. by destruct m. Qed.

Section Reply.

Variable JSON_parse : string -> option Js.value.

Lemma dispatch_Token payload props text d st :
  JSON_parse payload = Some (Js.Obj props) →
  props !! "type" = Some (Js.Str "token") →
  props !! "content" = Some (Js.Str text) →
  dispatch JSON_parse payload d st = (Next, token text d, st).
Proof.
  intros Hparse Hty Hcontent. unfold dispatch. rewrite Hparse. simpl.
  by rewrite Hty, Hcontent.
Qed.

Lemma dispatch_Status payload props d st :
  JSON_parse payload = Some (Js.Obj props) →
  props !! "type" = Some (Js.Str "status") →
  dispatch JSON_parse payload d st
  = (Next, d,
     setMessages
       (update_last (with_status (Js.get (Js.Obj props) "status"))
          (messages st)) st).
Proof.
  intros Hparse Hty. unfold dispatch. rewrite Hparse. simpl.
  by rewrite Hty.
Qed.

Lemma processLine_Finished len i line d st :
  carries JSON_parse line Finished →
  processLine JSON_parse len i line d st = (Break, d, st).
Proof.
  intros (payload & -> & Hdone).
  destruct (String.eqb_spec payload "[DONE]") as [->|Hne]; [done|].
  rewrite processLine_record by done.
  destruct Hdone as [Hdone|(props & Hparse & Hty)]; [done|].
  unfold dispatch. rewrite Hparse. simpl. by rewrite Hty.
Qed.

(** The flush on an open reply. *)
Lemma flush_open len i d st pre m :
  messages st = pre ++ [m] →
  ∃ b c,
    flush len i d st
    = (Decoder (assistantMessage d) b,
       setMessages
         (pre ++ [mkMessage (role m) c (images m) (_fullContent m)
                    (isStreaming m) (isSimulating m) (status m)]) st)
    ∧ (S i = len → c = assistantMessage d).
Proof.
  intros Hm. unfold flush.
  destruct (_ || _) eqn:Hcond.
  - exists 0, (assistantMessage d). split; [|done].
    by rewrite Hm, update_last_snoc.
  - exists (batchTokens d), (content m). split.
    + rewrite message_eta, <- Hm, setMessages_same. by destruct d.
    + intros Hlast. apply orb_false_iff in Hcond as [_ Hidx].
      apply Z.eqb_neq in Hidx. lia.
Qed.

(** One line of a chunk that carries a token or a status. *)
Lemma processLine_event len i line e acc b st pre m :
  carries JSON_parse line e → is_finished e = false →
  messages st = pre ++ [m] →
  ∃ b' c s,
    processLine JSON_parse len i line (Decoder acc b) st
    = (Next, Decoder (acc +:+ text_of [e]) b',
       setMessages
         (pre ++ [mkMessage (role m) c (images m) (_fullContent m)
                    (isStreaming m) (isSimulating m) s]) st)
    ∧ (S i = len → c = acc +:+ text_of [e]).
Proof.
  intros (payload & -> & He) Hnot Hm.
  destruct e as [text|v|]; [| |done].
  - destruct He as (Hne & props & Hparse & Hty & Hcontent).
    rewrite processLine_record by done.
    rewrite (dispatch_Token payload props text) by done.
    destruct (flush_open len i (token text (Decoder acc b)) st pre m Hm)
      as (b' & c & -> & Hc).
    simpl. rewrite append_empty_r. by exists b', c, (status m).
  - destruct He as (Hne & props & Hparse & Hty & Hv).
    rewrite processLine_record by done.
    rewrite (dispatch_Status payload props) by done. rewrite Hv.
    destruct (flush_open len i (Decoder acc b)
                (setMessages (update_last (with_status v) (messages st)) st)
                pre (with_status v m)) as (b' & c & -> & Hc).
    { simpl. by rewrite Hm, update_last_snoc. }
    simpl. rewrite append_empty_r. by exists b', c, (Some v).
Qed.

(** The lines of a chunk that carry tokens and statuses, read to the last
    line of the chunk: the accumulated text grows by the tokens, and the
    flush at the last line shows it. *)
Lemma processLines_events lines : ∀ events len i acc b st pre m,
  Forall2 (carries JSON_parse) lines events →
  existsb is_finished events = false →
  messages st = pre ++ [m] →
  i + length lines = len →
  ∃ b' c s,
    processLines JSON_parse len i lines (Decoder acc b) st
    = (Decoder (acc +:+ text_of events) b',
       setMessages
         (pre ++ [mkMessage (role m) c (images m) (_fullContent m)
                    (isStreaming m) (isSimulating m) s]) st)
    ∧ (lines ≠ [] → c = acc +:+ text_of events)
    ∧ (lines = [] → c = content m).
Proof.
  induction lines as [|line rest IH];
    intros events len i acc b st pre m Hcarry Hnot Hm Hlen.
  - apply Forall2_nil_inv_l in Hcarry as ->.
    exists b, (content m), (status m). simpl.
    by rewrite append_empty_r, message_eta, <- Hm, setMessages_same.
  - apply Forall2_cons_inv_l in Hcarry as (e & es & He & Hes & ->).
    simpl in Hnot. apply orb_false_iff in Hnot as [Hnote Hnotes].
    destruct (processLine_event len i line e acc b st pre m He Hnote Hm)
      as (b1 & c1 & s1 & Hline & Hc1).
    cbn [processLines]. rewrite Hline.
    destruct (IH es len (S i) (acc +:+ text_of [e]) b1
                (setMessages
                   (pre ++ [mkMessage (role m) c1 (images m) (_fullContent m)
                              (isStreaming m) (isSimulating m) s1]) st)
                pre
                (mkMessage (role m) c1 (images m) (_fullContent m)
                   (isStreaming m) (isSimulating m) s1) Hes Hnotes)
      as (b' & c & s & -> & Hc & Hc0); [done | simpl in *; lia |].
    assert (Htext : (acc +:+ text_of [e]) +:+ text_of es
                    = acc +:+ text_of (e :: es)).
    { rewrite append_assoc. f_equal.
      change (e :: es) with ([e] ++ es). by rewrite text_of_app. }
    exists b', c, s. rewrite Htext in *. rewrite setMessages_twice.
    split; [done|]. split; [|done]. intros _.
    destruct rest as [|line' rest']; [|by apply Hc].
    apply Forall2_nil_inv_l in Hes as ->.
    rewrite (Hc0 eq_refl). cbn [content].
    rewrite Hc1 by (simpl in *; lia).
    by rewrite <- Htext, append_empty_r.
Qed.

(** A body that delivers the events of a reply, read into an open reply
    that shows the text accumulated so far. *)
Lemma readLoop_delivers body : ∀ chunks acc st pre m,
  delivers JSON_parse body chunks →
  messages st = pre ++ [m] → content m = acc →
  ∃ s,
    readLoop JSON_parse body acc st
    = (setMessages
         (pre ++ [mkMessage (role m) (acc +:+ text_of (concat chunks))
                    (images m) (_fullContent m) (isStreaming m)
                    (isSimulating m) s]) st, None).
Proof.
  induction body as [|text rest IH|];
    intros [|events more] acc st pre m Hdel Hm Hacc; try done.
  - exists (status m). simpl.
    by rewrite append_empty_r, <- Hacc, message_eta, <- Hm, setMessages_same.
  - destruct Hdel as ((Hne & Hcarry & Hfin) & Hrest).
    cbn [readLoop concat]. rewrite text_of_app.
    destruct (existsb is_finished events) eqn:Hex.
    + rewrite (Hfin eq_refl) in *.
      apply Forall2_cons_inv_r in Hcarry as (line & lines & Hline & Hnil & ->).
      apply Forall2_nil_inv_r in Hnil as ->.
      cbn [processLines length]. rewrite processLine_Finished by done.
      cbn [assistantMessage].
      destruct (IH more acc st pre m Hrest Hm Hacc) as (s & ->).
      by exists s.
    + destruct (processLines_events (chunk_lines text) events
                  (length (chunk_lines text)) 0 acc 0 st pre m Hcarry Hex Hm
                  eq_refl) as (b' & c & s1 & -> & Hc & _).
      assert (Hlines : chunk_lines text ≠ []).
      { intros Hnil. rewrite Hnil in Hcarry.
        by apply Forall2_nil_inv_l in Hcarry. }
      specialize (Hc Hlines). subst c. cbn [assistantMessage].
      destruct (IH more (acc +:+ text_of events)
                  (setMessages
                     (pre ++ [mkMessage (role m) (acc +:+ text_of events)
                                (images m) (_fullContent m) (isStreaming m)
                                (isSimulating m) s1]) st)
                  pre (mkMessage (role m) (acc +:+ text_of events)
                         (images m) (_fullContent m) (isStreaming m)
                         (isSimulating m) s1) Hrest eq_refl eq_refl)
        as (s & ->).
      exists s. by rewrite setMessages_twice, append_assoc.
Qed.

Lemma keeps_session_refl st : keeps_session st st.
Proof. by repeat split. Qed.

Lemma keeps_session_setMessages msgs st st' :
  keeps_session st st' → keeps_session st (setMessages msgs st').
Proof. by intros (?&?&?&?&?&?&?). Qed.

Lemma dispatch_keeps data d st0 st :
  keeps_session st0 st →
  keeps_session st0 (dispatch JSON_parse data d st).2.
Proof.
  intros Hk. unfold dispatch.
  repeat (case_match; try done); by apply keeps_session_setMessages.
Qed.

Lemma flush_keeps len i d st0 st :
  keeps_session st0 st → keeps_session st0 (flush len i d st).2.
Proof.
  intros Hk. unfold flush.
  case_match; [by apply keeps_session_setMessages | done].
Qed.

Lemma processLine_keeps len i line d st0 st :
  keeps_session st0 st →
  keeps_session st0 (processLine JSON_parse len i line d st).2.
Proof.
  intros Hk. unfold processLine.
  case_match; [|done]. case_match; [done|].
  pose proof (dispatch_keeps (drop_string 6 line) d st0 st Hk) as Hd.
  destruct (dispatch _ _ _ _) as [[[] d1] st1]; [|done].
  pose proof (flush_keeps len i d1 st0 st1 Hd) as Hf.
  by destruct (flush len i d1 st1).
Qed.

Lemma processLines_keeps len lines : ∀ i d st0 st,
  keeps_session st0 st →
  keeps_session st0 (processLines JSON_parse len i lines d st).2.
Proof.
  induction lines as [|line rest IH]; intros i d st0 st Hk; [done|].
  cbn [processLines].
  pose proof (processLine_keeps len i line d st0 st Hk) as Hl.
  destruct (processLine _ _ _ _ _ _) as [[[] d1] st1]; [|done].
  by apply IH.
Qed.

Lemma readLoop_keeps body : ∀ soFar st0 st,
  keeps_session st0 st →
  keeps_session st0 (readLoop JSON_parse body soFar st).1.
Proof.
  induction body as [|text rest IH|]; intros soFar st0 st Hk; try done.
  cbn [readLoop].
  pose proof (processLines_keeps (length (chunk_lines text))
                (chunk_lines text) 0 (Decoder soFar 0) st0 st Hk) as Hl.
  destruct (processLines _ _ _ _ _ _) as [d st1]. by apply IH.
Qed.

Lemma sendFailed_keeps st0 st :
  keeps_session st0 st → keeps_session st0 (sendFailed st).
Proof. by intros (?&?&?&?&?&?&?). Qed.


Lemma append_empty_l (a : string) : "" +:+ a = a.
Proof. reflexivity. Qed.

(** The reply shown is the text of the tokens.  When the body of the
    response delivers the events of a reply chunk by chunk and closes (each
    chunk one or more token and status records, the end of the reply in a
    chunk of its own), the send appends the user's turn and one assistant
    message whose content is the text of all tokens in the order sent, not
    streaming and with no status left; and this whether or not the
    response opened a new session. *)
Theorem reply_is_the_text_of_the_tokens text uploadedImages sessionId body
    chunks nowISO st :
  delivers JSON_parse body chunks →
  messages
    (sendMessage JSON_parse text uploadedImages
       (Response sessionId (Some body)) nowISO st)
  = messages st
    ++ [userTurn (trim text) (List.map preview uploadedImages);
        mkMessage "assistant" (text_of (concat chunks)) [] None
          (Some false) None (Some Js.Null)].
Proof.
  intros Hdel. unfold sendMessage, trySend.
  set (st3 := setIsLoading true _).
  set (stA := match sessionId with Some _ => _ | None => _ end).
  assert (HmA : messages stA
                = messages st
                  ++ [userTurn (trim text) (List.map preview uploadedImages)]).
  { unfold stA. destruct sessionId as [sid|]; [|done].
    destruct (_ && _); [|done]. by rewrite adoptSession_messages. }
  destruct (readLoop_delivers body chunks ""
              (setMessages (messages stA ++ [placeholder]) stA)
              (messages stA) placeholder Hdel eq_refl eq_refl) as (s & ->).
  simpl. rewrite update_last_snoc, HmA, <- app_assoc. done.
Qed.

(** Tokens that are followed, in their chunk, by the end of the reply. *)
Lemma processLines_tokens_then_end lines sentinel junk :
  ∀ tokens len i acc b st,
  Forall2 (carries JSON_parse) lines (Token <$> tokens) →
  carries JSON_parse sentinel Finished →
  b + length tokens < BATCH_SIZE →
  i + length lines < len →
  processLines JSON_parse len i (lines ++ sentinel :: junk) (Decoder acc b) st
  = (Decoder (acc +:+ text_of (Token <$> tokens)) (b + length tokens), st).
Proof.
  induction lines as [|line rest IH];
    intros tokens len i acc b st Hcarry Hend Hb Hi.
  - apply Forall2_nil_inv_l in Hcarry.
    destruct tokens; [|done].
    cbn [app processLines]. rewrite processLine_Finished by done.
    simpl. by rewrite append_empty_r, Nat.add_0_r.
  - apply Forall2_cons_inv_l in Hcarry as (e & es & He & Hes & Heq).
    destruct tokens as [|t tokens]; [done|].
    injection Heq as <- <-.
    destruct He as (payload & -> & Hne & props & Hparse & Hty & Hcontent).
    cbn [app processLines]. rewrite processLine_record by done.
    rewrite (dispatch_Token payload props t) by done.
    unfold flush, token. cbn [batchTokens assistantMessage].
    simpl in Hb, Hi.
    replace (BATCH_SIZE <=? S b) with false
      by (symmetry; apply Nat.leb_gt; lia).
    replace (Z.of_nat i =? Z.of_nat len - 1)%Z with false
      by (symmetry; apply Z.eqb_neq; lia).
    cbn [orb fst snd].
    rewrite (IH tokens len (S i) (acc +:+ t) (S b) st) by (done || lia).
    cbn [fmap list_fmap text_of length].
    rewrite append_assoc. do 2 f_equal. lia.
Qed.

(** Tokens that share a chunk with the end of the reply are not shown by
    that chunk.  When fewer than 8 token records are followed, in the same
    chunk, by the record that ends the reply, the chunk changes nothing in
    the state: the loop over its lines is left before the flush, and the
    text of its tokens only stays in the accumulator, for a later chunk to
    show.  When the body closes after this chunk, the reply is finished
    with empty content. *)
Theorem tokens_before_the_end_in_one_chunk chunk lines tokens sentinel junk :
  chunk_lines chunk = lines ++ sentinel :: junk →
  Forall2 (carries JSON_parse) lines (Token <$> tokens) →
  carries JSON_parse sentinel Finished →
  length tokens < BATCH_SIZE →
  (∀ rest soFar st,
     readLoop JSON_parse (Chunk chunk rest) soFar st
     = readLoop JSON_parse rest (soFar +:+ text_of (Token <$> tokens)) st)
  ∧ (∀ text uploadedImages sessionId nowISO st,
       messages
         (sendMessage JSON_parse text uploadedImages
            (Response sessionId (Some (Chunk chunk Closed))) nowISO st)
       = messages st
         ++ [userTurn (trim text) (List.map preview uploadedImages);
             mkMessage "assistant" "" [] None (Some false) None
               (Some Js.Null)]).
Proof.
  intros Hlines Hcarry Hend Hfew.
  assert (Hread : ∀ rest soFar st,
    readLoop JSON_parse (Chunk chunk rest) soFar st
    = readLoop JSON_parse rest (soFar +:+ text_of (Token <$> tokens)) st).
  { intros rest soFar st. cbn [readLoop]. rewrite Hlines.
    rewrite (processLines_tokens_then_end lines sentinel junk tokens)
      by (done || (rewrite length_app; simpl; lia)).
    done. }
  split; [exact Hread|].
  intros text uploadedImages sessionId nowISO st.
  unfold sendMessage, trySend.
  set (st3 := setIsLoading true _).
  set (stA := match sessionId with Some _ => _ | None => _ end).
  assert (HmA : messages stA
                = messages st
                  ++ [userTurn (trim text) (List.map preview uploadedImages)]).
  { unfold stA. destruct sessionId as [sid|]; [|done].
    destruct (_ && _); [|done]. by rewrite adoptSession_messages. }
  rewrite Hread. simpl. rewrite update_last_snoc, HmA, <- app_assoc. done.
Qed.

Lemma trySend_keeps userMessage nowISO selected net st0 st :
  keeps_session st0
    match net with
    | Response (Some sid) _ =>
        if negb (String.eqb sid "") && negb (is_selected selected)
        then adoptSession sid userMessage nowISO st
        else st
    | _ => st
    end →
  keeps_session st0 (trySend JSON_parse userMessage nowISO selected net st).1.
Proof.
  unfold trySend. destruct net as [|sessionId [body|]]; try done.
  - set (stA := match sessionId with Some _ => _ | None => _ end).
    intros Hk.
    assert (HkA : keeps_session st0 stA).
    { unfold stA. by destruct sessionId. }
    pose proof (readLoop_keeps body "" st0
                  (setMessages (messages stA ++ [placeholder]) stA)
                  (keeps_session_setMessages _ _ _ HkA)) as Hr.
    destruct (readLoop _ _ _ _) as [st3 [e|]]; [done|].
    by apply keeps_session_setMessages.
Qed.

Lemma sendMessage_keeps text uploadedImages net nowISO st0 st :
  keeps_session st0
    match net with
    | Response (Some sid) _ =>
        if negb (String.eqb sid "")
           && negb (is_selected (currentConversation st))
        then adoptSession sid (trim text) nowISO st
        else st
    | _ => st
    end →
  keeps_session st0
    (sendMessage JSON_parse text uploadedImages net nowISO st).
Proof.
  intros Hk. unfold sendMessage.
  set (st3 := setIsLoading true _).
  pose proof (trySend_keeps (trim text) nowISO (currentConversation st) net
                st0 st3) as Ht.
  destruct (trySend _ _ _ _ _ _) as [st' [e|]]; simpl in Ht.
  - assert (Hf : keeps_session st0 (sendFailed st')).
    { apply sendFailed_keeps, Ht.
      destruct net as [|[sid|] body]; try done.
      destruct (_ && _); [|done].
      unfold adoptSession in *. simpl in *. by destruct (List.find _ _). }
    by destruct Hf as (?&?&?&?&?&?&?).
  - assert (Hf : keeps_session st0 st').
    { apply Ht.
      destruct net as [|[sid|] body]; try done.
      destruct (_ && _); [|done].
      unfold adoptSession in *. simpl in *. by destruct (List.find _ _). }
    by destruct Hf as (?&?&?&?&?&?&?).
Qed.

(** A session the server has just opened is adopted.  When no conversation
    is selected and the response names a session, then whatever the body
    does the send selects that session and remembers it in the storage,
    puts a conversation with that id, titled with the first 50 characters
    of the message, at the head of the list unless the list has one with
    that id, and leaves the mark that the session was just created; the
    effect that follows the change of selection then only clears that mark
    and does not load the conversation over the reply. *)
Theorem new_session_is_adopted text uploadedImages sid body nowISO st st' :
  is_selected (currentConversation st) = false → sid ≠ "" →
  sendMessage JSON_parse text uploadedImages (Response (Some sid) body)
    nowISO st = st' →
  currentConversation st' = Some sid
  ∧ localStorage st' = <["lastConversationId" := sid]> (localStorage st)
  ∧ conversations st'
    = (if existsb (Conv.has_id sid) (conversations st)
       then conversations st
       else Conv.Make sid (Some (substring 0 50 (trim text))) (Some nowISO)
              None Js.Undefined Js.Undefined :: conversations st)
  ∧ isCreatingSessionRef st' = true
  ∧ isLoading st' = false
  ∧ isSendingMessageRef st' = false
  ∧ ∀ fetched now,
      conversationChanged JSON_parse fetched now st'
      = set_isCreatingSessionRef false st'.
Proof.
  intros Hsel Hsid <-.
  pose proof (sendMessage_keeps text uploadedImages
                (Response (Some sid) body) nowISO
                (adoptSession sid (trim text) nowISO st) st) as Hk.
  cbv beta iota in Hk. rewrite Hsel in Hk.
  destruct (String.eqb_spec sid "") as [|_]; [done|].
  specialize (Hk (keeps_session_refl _)).
  destruct Hk as (Hconv & Hcur & Hstore & Hcreating & _).
  assert (Hc : currentConversation
                 (sendMessage JSON_parse text uploadedImages
                    (Response (Some sid) body) nowISO st) = Some sid).
  { rewrite Hcur. unfold adoptSession. by destruct (List.find _ _). }
  assert (Hm : isCreatingSessionRef
                 (sendMessage JSON_parse text uploadedImages
                    (Response (Some sid) body) nowISO st) = true).
  { rewrite Hcreating. unfold adoptSession. by destruct (List.find _ _). }
  split; [done|].
  split; [rewrite Hstore; unfold adoptSession; by destruct (List.find _ _)|].
  split.
  { rewrite Hconv. unfold adoptSession. simpl.
    destruct (List.find _ _) as [c|] eqn:Hfind.
    - replace (existsb _ _) with true; [done|].
      symmetry. apply existsb_exists. exists c.
      apply find_some in Hfind. done.
    - replace (existsb _ _) with false; [done|].
      symmetry. apply not_true_is_false. intros Hex.
      apply existsb_exists in Hex as (c & Hin & Hid).
      by rewrite (find_none _ _ Hfind c Hin) in Hid. }
  split; [done|]. split; [done|]. split; [done|].
  intros fetched now. unfold conversationChanged. rewrite Hc, Hm.
  by destruct (String.eqb_spec sid "").
Qed.

(** A send into the selected conversation touches neither the list nor the
    selection nor the storage.  With a conversation selected, whatever the
    network does (a rejected request, a response without body, a session id
    in the response that is not the selected one, a body that breaks), the
    send leaves the conversation list, the selection, the storage and the
    mark of a just created session as they were, and ends with the loading
    flag and the sending flag down. *)
Theorem send_keeps_the_selected_conversation text uploadedImages net nowISO
    st :
  is_selected (currentConversation st) = true →
  keeps_session st
    (sendMessage JSON_parse text uploadedImages net nowISO st)
  ∧ isLoading (sendMessage JSON_parse text uploadedImages net nowISO st)
    = false
  ∧ isSendingMessageRef
      (sendMessage JSON_parse text uploadedImages net nowISO st) = false.
Proof.
  intros Hsel. split; [|done].
  apply sendMessage_keeps. rewrite Hsel.
  destruct net as [|[sid|] body]; rewrite ?andb_false_r;
    apply keeps_session_refl.
Qed.

End Reply.

(* ===================================================================== *)
(** ** What a reload finds *)
(* ===================================================================== *)

Lemma prefix_app_same (p a b : string) :
  String.prefix (p +:+ a) (p +:+ b) = String.prefix a b.
Proof.
  induction p as [|x p IH]; [done|]. rewrite !append_cons. simpl.
  by destruct (ascii_dec x x).
Qed.

Lemma prefix_app (a b : string) : String.prefix a (a +:+ b) = true.
Proof.
  induction a as [|x a IH]; [by destruct b|]. rewrite append_cons. simpl.
  by destruct (ascii_dec x x).
Qed.

(** A click on the expander is remembered per message.  The flag
    [toggleExpand] stores is the one the message starts with when it is
    mounted again, and it is the opposite of the one before the click; the
    click leaves the flag of every other message of the conversation as it
    was; a message without an id starts collapsed and stores nothing. *)
Theorem expanded_flag_is_remembered expanded conversationId idx store :
  initExpanded (Some (messageId conversationId idx))
    (toggleExpand expanded (Some (messageId conversationId idx)) store).2
  = negb expanded
  ∧ (toggleExpand expanded (Some (messageId conversationId idx)) store).1
    = negb expanded
  ∧ (∀ idx', idx' ≠ idx →
       initExpanded (Some (messageId conversationId idx'))
         (toggleExpand expanded (Some (messageId conversationId idx))
            store).2
       = initExpanded (Some (messageId conversationId idx')) store)
  ∧ (toggleExpand expanded None store).2 = store
  ∧ initExpanded None store = false.
Proof.
  unfold toggleExpand, initExpanded. simpl.
  split; [rewrite lookup_insert_eq; by destruct expanded|].
  split; [done|]. split; [|done].
  intros idx' Hne. rewrite lookup_insert_ne; [done|].
  unfold messageId. intros Heq.
  apply (inj (String.app "expand_")) in Heq.
  apply (inj (String.app conversationId)) in Heq.
  apply (inj (String.app "_")) in Heq.
  by apply (inj pretty) in Heq.
Qed.

Section Reload.

Variable JSON_parse : string -> option Js.value.
Variable JSON_stringify : Js.value -> string.

Lemma deleteConversation_storage id st props k :
  read_chat_metadata JSON_parse (localStorage st) = Done (Js.Obj props) →
  k ≠ "chat_metadata" → k ≠ "lastConversationId" →
  localStorage (deleteConversation JSON_parse JSON_stringify true id st) !! k
  = if startsWith k ("expand_" +:+ id) then None else localStorage st !! k.
Proof.
  intros Hread Hk1 Hk2. unfold deleteConversation.
  set (st1 := setConversations _ st).
  set (st2 := if is_current id st then _ else st1).
  assert (Hst2 : localStorage st2 !! k = localStorage st !! k).
  { unfold st2. destruct (is_current id st); [|done].
    simpl. by rewrite lookup_delete_ne. }
  assert (Hread2 : read_chat_metadata JSON_parse (localStorage st2)
                   = Done (Js.Obj props)).
  { rewrite <- Hread. apply read_chat_metadata_ext.
    unfold st2. destruct (is_current id st); [|done].
    simpl. by rewrite lookup_delete_ne. }
  rewrite (cleanup_metadata_object JSON_parse JSON_stringify id st2 props
             Hread2).
  rewrite cleanup_expansion_lookup.
  destruct (startsWith k _); [done|].
  destruct (Js.truthy_at _); [|done].
  simpl. by rewrite lookup_insert_ne.
Qed.

(** The messages of a deleted conversation start collapsed.  When the
    request resolves and the stored metadata reads as an object,
    [deleteConversation] leaves no expanded flag for any message of the
    conversation, nor for a message of any conversation whose id begins
    with the deleted id; the flag of a message is kept when the deleted id
    is no prefix of that message's conversation id followed by [_] and its
    index. *)
Theorem deleted_conversation_starts_collapsed id st props :
  read_chat_metadata JSON_parse (localStorage st) = Done (Js.Obj props) →
  (∀ suffix idx,
     localStorage (deleteConversation JSON_parse JSON_stringify true id st)
       !! messageId (id +:+ suffix) idx = None
     ∧ initExpanded (Some (messageId (id +:+ suffix) idx))
         (localStorage
            (deleteConversation JSON_parse JSON_stringify true id st))
       = false)
  ∧ (∀ other idx,
       String.prefix id (other +:+ "_" +:+ pretty idx) = false →
       initExpanded (Some (messageId other idx))
         (localStorage
            (deleteConversation JSON_parse JSON_stringify true id st))
       = initExpanded (Some (messageId other idx)) (localStorage st)).
Proof.
  intros Hread.
  assert (Hkey : ∀ c idx, messageId c idx ≠ "chat_metadata"
                          ∧ messageId c idx ≠ "lastConversationId").
  { intros c idx. unfold messageId. by split. }
  assert (Hstarts : ∀ c idx,
    startsWith (messageId c idx) ("expand_" +:+ id)
    = String.prefix id (c +:+ "_" +:+ pretty idx)).
  { intros c idx. unfold startsWith, messageId. apply prefix_app_same. }
  split.
  - intros suffix idx.
    assert (Hgone :
      localStorage (deleteConversation JSON_parse JSON_stringify true id st)
        !! messageId (id +:+ suffix) idx = None).
    { rewrite (deleteConversation_storage id st props) by apply Hkey || done.
      by rewrite Hstarts, append_assoc, prefix_app. }
    split; [done|]. unfold initExpanded. by rewrite Hgone.
  - intros other idx Hpre. unfold initExpanded.
    rewrite (deleteConversation_storage id st props) by apply Hkey || done.
    by rewrite Hstarts, Hpre.
Qed.

Lemma write_flags_keys id conv metadata store store' k :
  write_flags JSON_stringify id conv metadata store = Done store' →
  k ≠ "chat_metadata" →
  store' !! k = store !! k.
Proof.
  unfold write_flags. intros Hdone Hk.
  destruct metadata as [| |b|r|s|xs|props]; try discriminate;
    repeat (case_match; try discriminate);
    injection Hdone as <-; by rewrite lookup_insert_ne.
Qed.

Lemma toggleArchive_storage id st st' k :
  toggleArchive JSON_parse JSON_stringify id st = Done st' →
  k ≠ "chat_metadata" →
  localStorage st' !! k = localStorage st !! k.
Proof.
  unfold toggleArchive. intros Hdone Hk.
  set (st1 := if _ && _ then _ else st) in Hdone.
  assert (Hst1 : localStorage st1 = localStorage st).
  { unfold st1. by destruct (_ && _). }
  destruct (read_chat_metadata _ _) as [metadata|]; [|done].
  cbn [mbind outcome_bind] in Hdone.
  destruct (List.find _ (List.map _ _)) as [conv|]; [|done].
  destruct (write_flags _ _ _ _ _) as [store|] eqn:Hwrite; [|done].
  cbn [mbind outcome_bind] in Hdone. injection Hdone as <-. simpl.
  by rewrite (write_flags_keys _ _ _ _ _ k Hwrite Hk), Hst1.
Qed.

(** Which conversation the next start selects.  After the effect that
    follows a selection has run for a selected conversation (no send in
    flight), the initialiser of [currentConversation] gives that
    conversation back, unless its id is the text [null]; after
    [createConversation] it gives none; after [deleteConversation] it gives
    none when the deleted conversation was the selected one and what it
    gave before otherwise, whether or not the stored metadata can be read;
    after [toggleArchive] it gives what it gave before, also when the
    conversation archived was the selected one and has been deselected. *)
Theorem which_conversation_a_restart_selects st :
  (∀ fetched now cur,
     currentConversation st = Some cur → cur ≠ "" →
     isCreatingSessionRef st = false → isSendingMessageRef st = false →
     initialConversation
       (localStorage (conversationChanged JSON_parse fetched now st))
     = if String.eqb cur "null" then None else Some cur)
  ∧ (∀ innerWidth sidebarOpen,
       initialConversation
         (localStorage (createConversation innerWidth sidebarOpen st).1)
       = None)
  ∧ (∀ id,
       initialConversation
         (localStorage
            (deleteConversation JSON_parse JSON_stringify true id st))
       = if is_current id st then None
         else initialConversation (localStorage st))
  ∧ (∀ id st',
       toggleArchive JSON_parse JSON_stringify id st = Done st' →
       initialConversation (localStorage st')
       = initialConversation (localStorage st)).
Proof.
  split.
  { intros fetched now cur Hcur Hne Hcreating Hsending.
    unfold conversationChanged, initialConversation.
    rewrite Hcur, Hcreating, Hsending.
    destruct (String.eqb_spec cur ""); [done|].
    unfold loadMessages. simpl.
    rewrite lookup_insert_eq.
    destruct (String.eqb cur "null"); [done|].
    simpl. by destruct (String.eqb_spec cur ""). }
  split.
  { intros innerWidth sidebarOpen. unfold initialConversation. simpl.
    by rewrite lookup_delete_eq. }
  split.
  - intros id. unfold initialConversation.
    assert (Hlast :
      localStorage (deleteConversation JSON_parse JSON_stringify true id st)
        !! "lastConversationId"
      = if is_current id st then None
        else localStorage st !! "lastConversationId").
    { unfold deleteConversation.
      set (st1 := setConversations _ st).
      set (st2 := if is_current id st then _ else st1).
      assert (Hst2 : localStorage st2 !! "lastConversationId"
                     = if is_current id st then None
                       else localStorage st !! "lastConversationId").
      { unfold st2. destruct (is_current id st); [|done].
        simpl. by rewrite lookup_delete_eq. }
      destruct (not_an_expansion_key id) as [_ Hk].
      destruct (cleanup_metadata JSON_parse JSON_stringify id st2)
        as [st3|e] eqn:Hclean; [|exact Hst2].
      rewrite (deleteConversation_cleaned JSON_parse JSON_stringify id st2
                 st3 _ Hclean) by done.
      by rewrite Hk. }
    rewrite Hlast. by destruct (is_current id st).
  - intros id st' Hdone. unfold initialConversation.
    by rewrite (toggleArchive_storage id st st' _ Hdone).
Qed.

Lemma conversationChanged_sending fetched now st cur :
  currentConversation st = Some cur → cur ≠ "" →
  isSendingMessageRef st = true →
  conversationChanged JSON_parse fetched now st
  = set_isCreatingSessionRef false st.
Proof.
  intros Hcur Hne Hsending. unfold conversationChanged.
  rewrite Hcur, Hsending. destruct (String.eqb_spec cur ""); [done|].
  destruct (isCreatingSessionRef st) eqn:Hc; [done|].
  destruct st; simpl in *; by subst.
Qed.

(** A reply in flight is not reloaded.  While a send is in flight and a
    conversation is selected, the effect that follows a change of selection,
    run any number of times and whatever the server answers, leaves the
    buffer, the selection, the list and the storage as they are: it loads
    nothing and does not remember the selection; it only clears the mark of
    a just created session. *)
Theorem reply_in_flight_is_not_reloaded n fetched now st cur :
  currentConversation st = Some cur → cur ≠ "" →
  isSendingMessageRef st = true →
  conversationChanges JSON_parse n fetched now st
  = if n is O then st else set_isCreatingSessionRef false st.
Proof.
  revert st. induction n as [|n IH]; intros st Hcur Hne Hsending; [done|].
  cbn [conversationChanges].
  rewrite (conversationChanged_sending fetched now st cur) by done.
  rewrite IH by done. by destruct n.
Qed.

End Reload.

(* ===================================================================== *)
(** ** Pins, archives and the profile across a reload *)
(* ===================================================================== *)

Section Persistence.

Variable JSON_parse : string -> option Js.value.
Variable JSON_stringify : Js.value -> string.
Variable defaultAvatar : string.

(** The merge of [initConversations] over metadata that reads as an
    object. *)
Lemma merge_metadata_object props data :
  mapM (merge_metadata (Js.Obj props)) data
  = Done (List.map
            (fun conv =>
               Conv.Make (Conv.id conv) (Conv.title conv)
                 (Conv.created_at conv) (Conv.updated_at conv)
                 (or_false
                    (opt_get_at (Js.lookup (Js.Obj props) (Conv.id conv))
                       "isPinned"))
                 (or_false
                    (opt_get_at (Js.lookup (Js.Obj props) (Conv.id conv))
                       "isArchived"))) data).
Proof.
  induction data as [|conv data IH]; [done|].
  cbn [mapM List.map]. rewrite IH. reflexivity.
Qed.

Lemma initConversations_conversations props data fetched_messages now st :
  read_chat_metadata JSON_parse (localStorage st) = Done (Js.Obj props) →
  conversations
    (initConversations JSON_parse (Some data) fetched_messages now st)
  = List.map
      (fun conv =>
         Conv.Make (Conv.id conv) (Conv.title conv)
           (Conv.created_at conv) (Conv.updated_at conv)
           (or_false
              (opt_get_at (Js.lookup (Js.Obj props) (Conv.id conv))
                 "isPinned"))
           (or_false
              (opt_get_at (Js.lookup (Js.Obj props) (Conv.id conv))
                 "isArchived"))) data.
Proof.
  intros Hread. unfold initConversations. rewrite Hread.
  cbn [mbind outcome_bind]. rewrite merge_metadata_object.
  cbn [mbind outcome_bind].
  destruct (localStorage st !! "lastConversationId") as [savedId|];
    [|done].
  destruct (String.eqb savedId ""); [done|].
  destruct (existsb _ _); [|done].
  unfold loadMessagesSync. by destruct fetched_messages.
Qed.

Lemma truthy_or_false v : Js.truthy (or_false v) = Js.truthy v.
Proof. unfold or_false. by destruct (Js.truthy v) eqn:Hv. Qed.

(** The flags read back from what a toggle stored: those of the
    conversation it stored, except at the id [__proto__] without an entry,
    where nothing was stored and the flags read are those of a member of
    the prototype: none. *)
Lemma stored_flags_read id conv props :
  (if String.eqb id "__proto__" && bool_decide (props !! id = None)
   then Js.truthy
          (or_false
             (opt_get_at (Js.lookup (Js.Obj (stored_flags id conv props)) id)
                "isPinned")) = false
        ∧ Js.truthy
            (or_false
               (opt_get_at
                  (Js.lookup (Js.Obj (stored_flags id conv props)) id)
                  "isArchived")) = false
   else Js.truthy
          (or_false
             (opt_get_at (Js.lookup (Js.Obj (stored_flags id conv props)) id)
                "isPinned")) = Conv.pinned conv
        ∧ Js.truthy
            (or_false
               (opt_get_at
                  (Js.lookup (Js.Obj (stored_flags id conv props)) id)
                  "isArchived")) = Conv.archived conv).
Proof.
  unfold stored_flags. rewrite !truthy_or_false.
  destruct (String.eqb id "__proto__" && bool_decide (props !! id = None))
    eqn:Hproto.
  - apply andb_true_iff in Hproto as [Hid Hnone].
    apply String.eqb_eq in Hid. apply bool_decide_eq_true in Hnone.
    subst id. unfold Js.lookup. rewrite Hnone. by split.
  - unfold Js.lookup at 1 3. rewrite !lookup_insert_eq. simpl.
    rewrite lookup_insert_eq.
    rewrite lookup_insert_ne by done. by rewrite lookup_insert_eq.
Qed.

Lemma stored_flags_other id conv props other :
  other ≠ id →
  Js.lookup (Js.Obj (stored_flags id conv props)) other
  = Js.lookup (Js.Obj props) other.
Proof.
  intros Hne. unfold stored_flags.
  destruct (_ && _); [done|].
  unfold Js.lookup. by rewrite lookup_insert_ne.
Qed.

(** What a toggle that went through has stored and shows. *)
Lemma toggle_stored id st st' props :
  read_chat_metadata JSON_parse (localStorage st) = Done (Js.Obj props) →
  (togglePin JSON_parse JSON_stringify id st = Done st'
   ∧ (from_option Conv.pinned false
        (List.find (Conv.has_id id) (conversations st)) = true
      ∨ pinned_count (conversations st) < 5))
  ∨ toggleArchive JSON_parse JSON_stringify id st = Done st' →
  ∃ conv,
    List.find (Conv.has_id id) (conversations st') = Some conv
    ∧ localStorage st'
      = <["chat_metadata" :=
            JSON_stringify (Js.Obj (stored_flags id conv props))]>
          (localStorage st).
Proof.
  assert (Hwrite : ∀ conv store,
    write_flags JSON_stringify id conv (Js.Obj props) store
    = Done (<["chat_metadata" :=
                JSON_stringify (Js.Obj (stored_flags id conv props))]>
              store)).
  { intros conv store. unfold write_flags, stored_flags.
    by destruct (_ && _). }
  intros Hread [[Hdone Hroom]|Hdone].
  - unfold togglePin in Hdone.
    replace (negb _ && _) with false in Hdone.
    2:{ symmetry. apply andb_false_iff. destruct Hroom as [->|Hroom];
          [by left|right]. apply Nat.leb_gt. exact Hroom. }
    rewrite Hread in Hdone. cbn [mbind outcome_bind] in Hdone.
    destruct (List.find _ (List.map _ _)) as [conv|] eqn:Hfind; [|done].
    rewrite Hwrite in Hdone. cbn [mbind outcome_bind] in Hdone.
    injection Hdone as <-. exists conv. by split.
  - unfold toggleArchive in Hdone.
    set (st1 := if _ && _ then _ else st) in Hdone.
    assert (Hst1 : localStorage st1 = localStorage st).
    { unfold st1. by destruct (_ && _). }
    rewrite Hst1, Hread in Hdone. cbn [mbind outcome_bind] in Hdone.
    destruct (List.find _ (List.map _ _)) as [conv|] eqn:Hfind; [|done].
    rewrite Hwrite in Hdone. cbn [mbind outcome_bind] in Hdone.
    injection Hdone as <-. exists conv. by split.
Qed.

(** Pins and archives survive a reload.  When [togglePin] (not refused by
    the limit) or [toggleArchive] has completed over metadata that reads as
    an object, and the metadata it stored reads back as the object written,
    then every later load, whatever list the server sends, shows each
    conversation with the toggled id pinned and archived as the toggle left
    it, and every other conversation with the flags it would have been
    loaded with before the toggle.  The one id for which the toggle stores
    nothing is [__proto__] when the metadata has no entry of that name: a
    conversation with that id is loaded neither pinned nor archived. *)
Theorem pin_and_archive_survive_reload id st st' props conv :
  read_chat_metadata JSON_parse (localStorage st) = Done (Js.Obj props) →
  (togglePin JSON_parse JSON_stringify id st = Done st'
   ∧ (from_option Conv.pinned false
        (List.find (Conv.has_id id) (conversations st)) = true
      ∨ pinned_count (conversations st) < 5))
  ∨ toggleArchive JSON_parse JSON_stringify id st = Done st' →
  List.find (Conv.has_id id) (conversations st') = Some conv →
  read_chat_metadata JSON_parse
    (<["chat_metadata" :=
         JSON_stringify (Js.Obj (stored_flags id conv props))]> ∅)
  = Done (Js.Obj (stored_flags id conv props)) →
  ∀ data fetched_messages now st0 i c,
    localStorage st0 = localStorage st' →
    data !! i = Some c →
    ∃ loaded,
      conversations
        (initConversations JSON_parse (Some data) fetched_messages now st0)
        !! i = Some loaded
      ∧ Conv.id loaded = Conv.id c
      ∧ Conv.title loaded = Conv.title c
      ∧ (Conv.id c = id →
         if String.eqb id "__proto__" && bool_decide (props !! id = None)
         then Conv.pinned loaded = false ∧ Conv.archived loaded = false
         else Conv.pinned loaded = Conv.pinned conv
              ∧ Conv.archived loaded = Conv.archived conv)
      ∧ (Conv.id c ≠ id →
         conversations
           (initConversations JSON_parse (Some data) fetched_messages now
              st) !! i = Some loaded).
Proof.
  intros Hread Htoggle Hfind Hback data fetched_messages now st0 i c Hst0 Hc.
  destruct (toggle_stored id st st' props Hread Htoggle)
    as (conv' & Hfind' & Hstore).
  rewrite Hfind in Hfind'. injection Hfind' as <-.
  assert (Hread0 : read_chat_metadata JSON_parse (localStorage st0)
                   = Done (Js.Obj (stored_flags id conv props))).
  { rewrite <- Hback. apply read_chat_metadata_ext.
    by rewrite Hst0, Hstore, !lookup_insert_eq. }
  rewrite (initConversations_conversations _ data fetched_messages now st0
             Hread0).
  rewrite (initConversations_conversations _ data fetched_messages now st
             Hread).
  rewrite !list_lookup_fmap, Hc. cbn -[Js.lookup stored_flags].
  eexists. split; [reflexivity|]. cbn -[Js.lookup stored_flags].
  split; [done|]. split; [done|]. split.
  - intros ->. exact (stored_flags_read id conv props).
  - intros Hne. by rewrite stored_flags_other.
Qed.

Lemma get_union (a b : gmap string Js.value) k :
  Js.get (Js.Obj (a ∪ b)) k
  = match a !! k with
    | Some v => v
    | None => Js.get (Js.Obj b) k
    end.
Proof.
  simpl. rewrite lookup_union.
  by destruct (a !! k), (b !! k).
Qed.

(** A saved profile is the profile of the next start.  When the profile
    [handleUpdateProfile] stores reads back as the object written and its
    avatar is a text that is none of the old paths, the initialiser of
    [userProfile] returns that object and writes nothing; in it every field
    of the new profile has the new value and every other field the value of
    the profile before. *)
Theorem saved_profile_is_restored userProfile newProfile st updated st' :
  handleUpdateProfile JSON_stringify userProfile newProfile st
  = (Js.Obj updated, st') →
  JSON_stringify (Js.Obj updated) ≠ "" →
  JSON_parse (JSON_stringify (Js.Obj updated)) = Some (Js.Obj updated) →
  avatar_is_old (Js.get (Js.Obj updated) "avatar") = Done false →
  initUserProfile JSON_parse JSON_stringify defaultAvatar st'
  = (Js.Obj updated, st')
  ∧ (∀ k, Js.get (Js.Obj updated) k
          = match spread newProfile !! k with
            | Some v => v
            | None => Js.get (Js.Obj (spread userProfile)) k
            end)
  ∧ (∀ k, k ≠ "user_profile" → localStorage st' !! k = localStorage st !! k).
Proof.
  unfold handleUpdateProfile. intros [= <- <-] Hne Hback Hnew.
  split; [|split].
  - unfold initUserProfile. simpl. rewrite lookup_insert_eq.
    destruct (String.eqb_spec
                (JSON_stringify
                   (Js.Obj (spread newProfile ∪ spread userProfile))) "");
      [done|].
    rewrite Hback. simpl in Hnew |- *. by rewrite Hnew.
  - intros k. apply get_union.
  - intros k Hk. simpl. by rewrite lookup_insert_ne.
Qed.

(** The avatar is migrated once.  When the stored profile is an object
    whose avatar is one of the old paths, the initialiser returns the
    profile with the bundled avatar in its place and stores it; when what
    it stored reads back as written and the bundled avatar is none of the
    old paths, the next start returns the same profile and writes
    nothing. *)
Theorem avatar_is_migrated_once saved props st :
  localStorage st !! "user_profile" = Some saved → saved ≠ "" →
  JSON_parse saved = Some (Js.Obj props) →
  avatar_is_old (Js.get (Js.Obj props) "avatar") = Done true →
  avatar_is_old (Js.Str defaultAvatar) = Done false →
  JSON_stringify (Js.Obj (<["avatar" := Js.Str defaultAvatar]> props)) ≠ "" →
  JSON_parse
    (JSON_stringify (Js.Obj (<["avatar" := Js.Str defaultAvatar]> props)))
  = Some (Js.Obj (<["avatar" := Js.Str defaultAvatar]> props)) →
  ∃ st',
    initUserProfile JSON_parse JSON_stringify defaultAvatar st
    = (Js.Obj (<["avatar" := Js.Str defaultAvatar]> props), st')
    ∧ initUserProfile JSON_parse JSON_stringify defaultAvatar st'
      = (Js.Obj (<["avatar" := Js.Str defaultAvatar]> props), st')
    ∧ (∀ k, Js.get (Js.Obj (<["avatar" := Js.Str defaultAvatar]> props)) k
            = if String.eqb k "avatar" then Js.Str defaultAvatar
              else Js.get (Js.Obj props) k).
Proof.
  intros Hsaved Hne Hparse Hold Hnew Hne' Hback.
  eexists. split; [|split].
  - unfold initUserProfile. rewrite Hsaved.
    destruct (String.eqb_spec saved ""); [done|].
    rewrite Hparse. simpl in Hold |- *. rewrite Hold. reflexivity.
  - unfold initUserProfile. simpl. rewrite lookup_insert_eq.
    destruct (String.eqb_spec
                (JSON_stringify
                   (Js.Obj (<["avatar" := Js.Str defaultAvatar]> props)))
                ""); [done|].
    rewrite Hback. simpl. rewrite lookup_insert_eq. simpl.
    simpl in Hnew. injection Hnew as Hnew. by rewrite Hnew.
  - intros k. simpl. destruct (String.eqb_spec k "avatar") as [->|Hk].
    + by rewrite lookup_insert_eq.
    + by rewrite lookup_insert_ne.
Qed.

End Persistence.

(* ===================================================================== *)
(** ** The history a load shows *)
(* ===================================================================== *)

Section History.

Variable JSON_parse : string -> option Js.value.



End History.

(* ===================================================================== *)
(** ** The theorems above at concrete inputs *)
(* ===================================================================== *)

(** A timer armed for index 0 that finds a reply of which two of six
    characters are shown: the reply is completed in place. *)
Lemma late_timer_completes_a_short_reply :
  revealStep 0
    [mkMessage "assistant" "ab" [] (Some "abcdef") (Some true) (Some true)
       None]
  = Done [mkMessage "assistant" "abcdef" [] None (Some false) (Some false)
            None]
  ∧ ∃ m', [mkMessage "assistant" "abcdef" [] None (Some false) (Some false)
             None] !! 0 = Some m'
          ∧ role m' = "assistant"
          ∧ String.prefix (content m') "abcdef" = true
          ∧ 2 ≤ String.length (content m').
Proof.
  split; [reflexivity|].
  destruct (late_reveal_timer_is_harmless 0
              [mkMessage "assistant" "ab" [] (Some "abcdef") (Some true)
                 (Some true) None]
              [mkMessage "assistant" "abcdef" [] None (Some false)
                 (Some false) None] eq_refl) as (_ & _ & _ & Hshown).
  exact (Hshown _ "abcdef" eq_refl eq_refl eq_refl eq_refl).
Defined.

(** A reply of 1000 characters loaded 2000 ms after its creation shows 500
    of them; 21 firings of the timer later it is shown whole. *)
Lemma reply_is_whole_after_21_ticks :
  ∃ st',
    simulation 21
      (loadMessagesSync Json.parse
         (Some [Sample.user_turn "hi" 4000;
                Sample.assistant_reply Sample.thousand 5000]) 7000
         (Sample.browsing Sample.store_ab)) = Done st'
    ∧ last (messages st')
      = Some (mkMessage "assistant" Sample.thousand [] None (Some false)
                (Some false) None).
Proof.
  destruct (reveal_after_load_completes Json.parse 7000
              [Sample.user_turn "hi" 4000;
               Sample.assistant_reply Sample.thousand 5000]
              (Sample.assistant_reply Sample.thousand 5000) 5000 21
              (Sample.browsing Sample.store_ab))
    as (pre & p & _ & Hsim); try reflexivity.
  - intros E. vm_compute in E. discriminate.
  - eexists. split; [exact Hsim|].
    cbn [messages setMessages]. by rewrite last_snoc.
Defined.

(** A reply loaded 1 ms after its creation shows nothing yet and arms both
    the poll and the reveal; the first firing of the reveal takes the poll
    down. *)
Lemma poll_and_reveal_armed_together :
  pollArmed
    (loadMessagesSync Json.parse (Some [Sample.assistant_reply "hello" 5000])
       5001 (Sample.browsing Sample.store_ab)) = true
  ∧ ∃ st',
      simulationTick
        (loadMessagesSync Json.parse
           (Some [Sample.assistant_reply "hello" 5000]) 5001
           (Sample.browsing Sample.store_ab)) = Done st'
      ∧ pollArmed st' = false.
Proof.
  split; [reflexivity|].
  eexists. split; [reflexivity|].
  apply (first_reveal_step_disarms_poll
           (loadMessagesSync Json.parse
              (Some [Sample.assistant_reply "hello" 5000]) 5001
              (Sample.browsing Sample.store_ab)) _ 0); reflexivity.
Defined.

(** Three conversations: the pinned one comes first, then the newer of the
    other two. *)
Lemma pinned_then_newest_of_three :
  datesReadable Sample.getTime
    [Sample.dated "old" "2026-01-01T00:00:00.000Z" false;
     Sample.dated "new" "2026-01-02T00:00:00.000Z" false;
     Sample.conv "pin" true]
  ∧ Conv.id <$>
      sortedConversations Sample.getTime
        [Sample.dated "old" "2026-01-01T00:00:00.000Z" false;
         Sample.dated "new" "2026-01-02T00:00:00.000Z" false;
         Sample.conv "pin" true] = ["pin"; "new"; "old"]
  ∧ sortedConversations Sample.getTime
      [Sample.dated "old" "2026-01-01T00:00:00.000Z" false;
       Sample.dated "new" "2026-01-02T00:00:00.000Z" false;
       Sample.conv "pin" true]
    ≡ₚ [Sample.dated "old" "2026-01-01T00:00:00.000Z" false;
        Sample.dated "new" "2026-01-02T00:00:00.000Z" false;
        Sample.conv "pin" true].
Proof.
  assert (Hdates : datesReadable Sample.getTime
            [Sample.dated "old" "2026-01-01T00:00:00.000Z" false;
             Sample.dated "new" "2026-01-02T00:00:00.000Z" false;
             Sample.conv "pin" true]).
  { intros c Hc. apply list_elem_of_In in Hc. simpl in Hc.
    destruct Hc as [<-|[<-|[<-|[]]]]; vm_compute; eauto. }
  split; [exact Hdates|]. split; [reflexivity|].
  exact (proj1 (sidebar_pinned_first_newest_first Sample.getTime _ Hdates)).
Defined.

(** On the last of three images, zoomed in twice: next wraps to the first
    image at zoom 1, and a run of the controls stays in range. *)
Lemma viewer_wraps_from_the_last_image :
  ImageViewer.in_range 3
    (ImageViewer.presses 3
       [ImageViewer.ZoomOut; ImageViewer.ZoomOut; ImageViewer.ZoomOut;
        ImageViewer.Prev; ImageViewer.Next; ImageViewer.Next]
       (ImageViewer.mkViewer (Some 2%Z) 6 0))
  ∧ ImageViewer.handleNext 3 (ImageViewer.mkViewer (Some 2%Z) 6 0)
    = ImageViewer.mkViewer (Some 0%Z) 4 0.
Proof.
  destruct (viewer_stays_in_range 3 2 6
              [ImageViewer.ZoomOut; ImageViewer.ZoomOut; ImageViewer.ZoomOut;
               ImageViewer.Prev; ImageViewer.Next; ImageViewer.Next])
    as (Hrange & Hnext & _); [lia | lia |].
  split; [exact Hrange | exact Hnext].
Defined.

(** [carries Json.parse line e] for a line given in full. *)
Ltac carried :=
  eexists; split; [reflexivity|];
  first
    [ by left
    | split; [discriminate|];
      eexists; split; [vm_compute; reflexivity|]; split; reflexivity ].

(** [chunk_carries Json.parse chunk events] for a chunk given in full. *)
Ltac carried_chunk :=
  split; [discriminate|];
  split;
    [ match goal with
      | |- Forall2 _ (chunk_lines ?text) _ =>
          let lines := eval vm_compute in (chunk_lines text) in
          replace (chunk_lines text) with lines by (vm_compute; reflexivity)
      end;
      repeat constructor; carried
    | simpl; intros Hend; first [discriminate Hend | reflexivity] ].

(** A reply in three chunks: two tokens, one token, the end. *)
Lemma reply_in_three_chunks :
  messages
    (sendMessage Json.parse "2+2?" []
       (Response (Some "s1")
          (Some (Chunk (Sample.record (Sample.token_payload "2+2")
                        +:+ Sample.record (Sample.token_payload " = "))
                   (Chunk (Sample.record (Sample.token_payload "4"))
                      (Chunk (Sample.record "[DONE]") Closed)))))
       "2026-01-01T00:00:00.000Z" (Sample.fresh ∅))
  = [userTurn "2+2?" [];
     mkMessage "assistant" "2+2 = 4" [] None (Some false) None
       (Some Js.Null)].
Proof.
  apply (reply_is_the_text_of_the_tokens Json.parse "2+2?" [] (Some "s1")
           (Chunk (Sample.record (Sample.token_payload "2+2")
                   +:+ Sample.record (Sample.token_payload " = "))
              (Chunk (Sample.record (Sample.token_payload "4"))
                 (Chunk (Sample.record "[DONE]") Closed)))
           [[Token "2+2"; Token " = "]; [Token "4"]; [Finished]]
           "2026-01-01T00:00:00.000Z" (Sample.fresh ∅)).
  cbn [delivers]. unfold chunk_carries.
  repeat (split; [carried_chunk|]). exact I.
Defined.

(** A token and the sentinel that share a chunk: the token never reaches
    the reply, which is finished with empty content. *)
Lemma token_sharing_a_chunk_with_the_sentinel :
  messages
    (sendMessage Json.parse "2+2?" []
       (Response (Some "s1")
          (Some (Chunk (Sample.record (Sample.token_payload "4")
                        +:+ Sample.record "[DONE]") Closed)))
       "2026-01-01T00:00:00.000Z" (Sample.fresh ∅))
  = [userTurn "2+2?" [];
     mkMessage "assistant" "" [] None (Some false) None (Some Js.Null)].
Proof.
  apply (tokens_before_the_end_in_one_chunk Json.parse
           (Sample.record (Sample.token_payload "4")
            +:+ Sample.record "[DONE]")
           ["data: " +:+ Sample.token_payload "4"] ["4"] "data: [DONE]" []).
  - vm_compute. reflexivity.
  - repeat constructor. carried.
  - carried.
  - unfold BATCH_SIZE. simpl. lia.
Defined.

(** The first turn of a new conversation: the session the server created
    heads the list, titled with the user's text, and is selected and
    remembered; the effect that follows does not reload it. *)
Lemma first_turn_of_a_new_conversation :
  ∃ st',
    sendMessage Json.parse "2+2?" []
      (Response (Some "s1")
         (Some (Chunk (Sample.record (Sample.token_payload "4")) Closed)))
      "2026-01-01T00:00:00.000Z" (Sample.fresh ∅) = st'
    ∧ currentConversation st' = Some "s1"
    ∧ localStorage st' !! "lastConversationId" = Some "s1"
    ∧ conversations st'
      = [Conv.Make "s1" (Some "2+2?") (Some "2026-01-01T00:00:00.000Z") None
           Js.Undefined Js.Undefined]
    ∧ messages (conversationChanged Json.parse (Some []) 0 st')
      = [userTurn "2+2?" [];
         mkMessage "assistant" "4" [] None (Some false) None (Some Js.Null)].
Proof.
  eexists. split; [reflexivity|].
  destruct (new_session_is_adopted Json.parse "2+2?" [] "s1"
              (Some (Chunk (Sample.record (Sample.token_payload "4")) Closed))
              "2026-01-01T00:00:00.000Z" (Sample.fresh ∅) _
              eq_refl ltac:(discriminate) eq_refl)
    as (Hcur & Hstore & Hconv & _ & _ & _ & Heffect).
  split; [exact Hcur|].
  split; [by rewrite Hstore|].
  split; [exact Hconv|].
  rewrite Heffect. vm_compute. reflexivity.
Defined.

(** A send into the selected conversation [a] whose response names another
    session and whose body breaks. *)
Lemma broken_send_into_the_selected_conversation :
  conversations
    (sendMessage Json.parse "hi" [] (Response (Some "zzz") (Some Broken)) ""
       (Sample.browsing Sample.store_ab))
  = conversations (Sample.browsing Sample.store_ab)
  ∧ currentConversation
      (sendMessage Json.parse "hi" [] (Response (Some "zzz") (Some Broken))
         "" (Sample.browsing Sample.store_ab)) = Some "a"
  ∧ localStorage
      (sendMessage Json.parse "hi" [] (Response (Some "zzz") (Some Broken))
         "" (Sample.browsing Sample.store_ab)) = Sample.store_ab.
Proof.
  destruct (send_keeps_the_selected_conversation Json.parse "hi" []
              (Response (Some "zzz") (Some Broken)) ""
              (Sample.browsing Sample.store_ab) eq_refl)
    as ((Hconv & Hcur & Hstore & _) & _).
  split; [exact Hconv|]. split; [exact Hcur | exact Hstore].
Defined.

(** Deleting [a] collapses its messages and leaves the flag of [b]. *)
Lemma deleting_a_collapses_its_messages :
  read_chat_metadata Json.parse
    (localStorage (Sample.browsing Sample.store_ab))
  = Done (Js.Obj Sample.metadata_ab)
  ∧ initExpanded (Some (messageId "a" 0)) Sample.store_ab = true
  ∧ initExpanded (Some (messageId "a" 0))
      (localStorage
         (deleteConversation Json.parse Json.stringify true "a"
            (Sample.browsing Sample.store_ab))) = false
  ∧ initExpanded (Some (messageId "b" 0))
      (localStorage
         (deleteConversation Json.parse Json.stringify true "a"
            (Sample.browsing Sample.store_ab))) = true.
Proof.
  assert (Hread : read_chat_metadata Json.parse
                    (localStorage (Sample.browsing Sample.store_ab))
                  = Done (Js.Obj Sample.metadata_ab))
    by (vm_compute; reflexivity).
  destruct (deleted_conversation_starts_collapsed Json.parse Json.stringify
              "a" (Sample.browsing Sample.store_ab) Sample.metadata_ab Hread)
    as [Hgone Hkept].
  split; [exact Hread|]. split; [vm_compute; reflexivity|].
  split.
  - exact (proj2 (Hgone "" 0)).
  - rewrite (Hkept "b" 0) by (vm_compute; reflexivity).
    vm_compute. reflexivity.
Defined.

(** Three runs of the effect while a send into [a] is in flight. *)
Lemma effect_during_a_send :
  messages
    (conversationChanges Json.parse 3
       (Some [Sample.user_turn "older" 0]) 5000
       (set_isSendingMessageRef true (Sample.browsing Sample.store_ab)))
  = [mkMessage "user" "hi" [] None None None None].
Proof.
  rewrite (reply_in_flight_is_not_reloaded Json.parse 3
             (Some [Sample.user_turn "older" 0]) 5000
             (set_isSendingMessageRef true (Sample.browsing Sample.store_ab))
             "a" eq_refl ltac:(discriminate) eq_refl).
  reflexivity.
Defined.

(** Pinning [a], then loading the list again: [a] comes back pinned.
    Pinning a conversation whose id is [__proto__] while the metadata has
    no entry of that name: the list shows it pinned, nothing is stored for
    it, and it comes back unpinned. *)
Lemma pinned_conversation_after_reload :
  (∃ st',
     togglePin Json.parse Json.stringify "a"
       (Sample.browsing Sample.store_ab) = Done st'
     ∧ ∃ loaded,
         conversations
           (initConversations Json.parse
              (Some [Sample.conv "a" false; Sample.conv "b" false]) None 0
              (Sample.fresh (localStorage st'))) !! 0 = Some loaded
         ∧ Conv.id loaded = "a"
         ∧ Conv.pinned loaded = true
         ∧ Conv.archived loaded = false)
  ∧ ∃ st',
      togglePin Json.parse Json.stringify "__proto__"
        (setConversations [Sample.conv "__proto__" false] (Sample.fresh ∅))
      = Done st'
      ∧ Conv.pinned <$> conversations st' = [true]
      ∧ localStorage st' !! "chat_metadata" = Some "{}"
      ∧ ∃ loaded,
          conversations
            (initConversations Json.parse
               (Some [Sample.conv "__proto__" false]) None 0
               (Sample.fresh (localStorage st'))) !! 0 = Some loaded
          ∧ Conv.pinned loaded = false.
Proof.
  split.
  - eexists. split; [vm_compute; reflexivity|].
    match goal with
    | |- context [Sample.fresh (localStorage ?s)] =>
        destruct (pin_and_archive_survive_reload Json.parse Json.stringify
                    "a" (Sample.browsing Sample.store_ab) s
                    Sample.metadata_ab
                    (Conv.Make "a" (Some "a") None None (Js.Bool true)
                       (Js.Bool false))
                    ltac:(vm_compute; reflexivity)
                    ltac:(left; split; [vm_compute; reflexivity|];
                          right; vm_compute; lia)
                    ltac:(vm_compute; reflexivity)
                    ltac:(vm_compute; reflexivity)
                    [Sample.conv "a" false; Sample.conv "b" false] None 0%Z
                    (Sample.fresh (localStorage s)) 0 (Sample.conv "a" false)
                    eq_refl eq_refl)
          as (loaded & Hloaded & Hid & _ & Hflags & _)
    end.
    exists loaded. split; [exact Hloaded|]. split; [exact Hid|].
    exact (Hflags eq_refl).
  - assert (Hread :
      read_chat_metadata Json.parse
        (localStorage
           (setConversations [Sample.conv "__proto__" false]
              (Sample.fresh ∅))) = Done (Js.Obj ∅))
      by (vm_compute; reflexivity).
    assert (Hback :
      read_chat_metadata Json.parse
        (<["chat_metadata" :=
             Json.stringify
               (Js.Obj
                  (stored_flags "__proto__"
                     (Conv.Make "__proto__" (Some "__proto__") None None
                        (Js.Bool true) (Js.Bool false)) ∅))]> ∅)
      = Done
          (Js.Obj
             (stored_flags "__proto__"
                (Conv.Make "__proto__" (Some "__proto__") None None
                   (Js.Bool true) (Js.Bool false)) ∅)))
      by (vm_compute; reflexivity).
    eexists. split; [vm_compute; reflexivity|].
    split; [reflexivity|]. split; [vm_compute; reflexivity|].
    match goal with
    | |- context [Sample.fresh (localStorage ?s)] =>
        destruct (pin_and_archive_survive_reload Json.parse Json.stringify
                    "__proto__"
                    (setConversations [Sample.conv "__proto__" false]
                       (Sample.fresh ∅)) s ∅
                    (Conv.Make "__proto__" (Some "__proto__") None None
                       (Js.Bool true) (Js.Bool false))
                    Hread
                    ltac:(left; split; [vm_compute; reflexivity|];
                          right; vm_compute; lia)
                    ltac:(vm_compute; reflexivity)
                    Hback
                    [Sample.conv "__proto__" false] None 0%Z
                    (Sample.fresh (localStorage s)) 0
                    (Sample.conv "__proto__" false)
                    eq_refl eq_refl)
          as (loaded & Hloaded & _ & _ & Hflags & _)
    end.
    exists loaded. split; [exact Hloaded|].
    exact (proj1 (Hflags eq_refl)).
Defined.

(** The guest renamed to [An]: the next start shows the profile saved. *)
Lemma renamed_guest_after_restart :
  ∃ updated st',
    handleUpdateProfile Json.stringify (guestProfile "/assets/pochi-1.jpeg")
      (Js.Obj {[ "name" := Js.Str "An" ]}) (Sample.fresh ∅)
    = (Js.Obj updated, st')
    ∧ initUserProfile Json.parse Json.stringify "/assets/pochi-1.jpeg" st'
      = (Js.Obj updated, st')
    ∧ Js.get (Js.Obj updated) "name" = Js.Str "An"
    ∧ Js.get (Js.Obj updated) "email" = Js.Str "guest@example.com".
Proof.
  eexists _, _. split; [reflexivity|].
  destruct (saved_profile_is_restored Json.parse Json.stringify
              "/assets/pochi-1.jpeg" (guestProfile "/assets/pochi-1.jpeg")
              (Js.Obj {[ "name" := Js.Str "An" ]}) (Sample.fresh ∅) _ _
              eq_refl) as (Hinit & Hfields & _).
  - vm_compute. discriminate.
  - vm_compute. reflexivity.
  - vm_compute. reflexivity.
  - split; [exact Hinit|]. rewrite !Hfields. split; reflexivity.
Defined.

(** A profile stored with the old avatar path: the first start replaces
    the avatar and stores the profile, the second finds it up to date. *)
Lemma old_avatar_is_replaced_once :
  ∃ profile st',
    initUserProfile Json.parse Json.stringify "/assets/pochi-1.jpeg"
      (Sample.fresh
         {[ "user_profile" :=
              Json.stringify
                (Js.Obj (<["name" := Js.Str "An"]>
                           {[ "avatar" := Js.Str "/hnam.jpeg" ]})) ]})
    = (profile, st')
    ∧ Js.get profile "avatar" = Js.Str "/assets/pochi-1.jpeg"
    ∧ Js.get profile "name" = Js.Str "An"
    ∧ initUserProfile Json.parse Json.stringify "/assets/pochi-1.jpeg" st'
      = (profile, st').
Proof.
  destruct (avatar_is_migrated_once Json.parse Json.stringify
              "/assets/pochi-1.jpeg"
              (Json.stringify
                 (Js.Obj (<["name" := Js.Str "An"]>
                            {[ "avatar" := Js.Str "/hnam.jpeg" ]})))
              (<["name" := Js.Str "An"]>
                 {[ "avatar" := Js.Str "/hnam.jpeg" ]})
              (Sample.fresh
                 {[ "user_profile" :=
                      Json.stringify
                        (Js.Obj (<["name" := Js.Str "An"]>
                                   {[ "avatar" := Js.Str "/hnam.jpeg" ]})) ]}))
    as (st' & Hfirst & Hsecond & Hfields).
  - vm_compute. reflexivity.
  - vm_compute. discriminate.
  - vm_compute. reflexivity.
  - vm_compute. reflexivity.
  - vm_compute. reflexivity.
  - vm_compute. discriminate.
  - vm_compute. reflexivity.
  - eexists _, st'. split; [exact Hfirst|].
    rewrite !Hfields. split; [reflexivity|]. split; [|exact Hsecond].
    vm_compute. reflexivity.
Defined.
